(** * Routing, listener registry and tab/window store of electron-chrome-extensions

    A shallow embedding of [src/browser/router.ts], [src/browser/store.ts] and
    of the change-notification code of [src/browser/api/tabs.ts] and
    [src/browser/api/browser-action.ts].

    Part I holds the definitions, one module per source file; Part II holds
    the theorems about them. *)

From stdpp Require Import gmap strings list fin_maps.
From Stdlib Require Import ZArith Lia.

Open Scope Z_scope.
Open Scope nat_scope.

(* ===================================================================== *)
(** * Part I: definitions                                                 *)
(* ===================================================================== *)

(** ** Electron objects

    Electron hands out numeric ids that identify a [WebContents] and a
    [BrowserWindow] for the lifetime of the process, so an object reference
    is modelled by its id.  Mutable properties of the objects ([isDestroyed],
    [session], ...) are not part of the reference: the functions below take
    them as readings of the outside world at the time of the call. *)
Module Electron.

Record WebContents := WC { wc_id : Z }.
Record BrowserWindow := BW { bw_id : Z }.
Record Session := Ses { ses_id : nat }.

#[export] Instance WebContents_eq_dec : EqDecision WebContents.
Proof. solve_decision. Defined.
#[export] Instance BrowserWindow_eq_dec : EqDecision BrowserWindow.
Proof. solve_decision. Defined.
#[export] Instance Session_eq_dec : EqDecision Session.
Proof. solve_decision. Defined.

#[export] Instance WebContents_countable : Countable WebContents.
Proof. apply (inj_countable' wc_id WC). by intros []. Defined.
#[export] Instance BrowserWindow_countable : Countable BrowserWindow.
Proof. apply (inj_countable' bw_id BW). by intros []. Defined.

End Electron.

(** ** JavaScript containers

    [Array.prototype.find], [findIndex], [filter] and [splice (index, 1)] on a
    list, and [Set] as the list of its members in insertion order. *)
Module JS.
Section array.
Context {A : Type}.

Fixpoint find (f : A -> bool) (l : list A) : option A :=
  match l with
  | [] => None
  | x :: l' => if f x then Some x else find f l'
  end.

Fixpoint findIndex (f : A -> bool) (l : list A) : option nat :=
  match l with
  | [] => None
  | x :: l' => if f x then Some 0 else S <$> findIndex f l'
  end.

Fixpoint filter (f : A -> bool) (l : list A) : list A :=
  match l with
  | [] => []
  | x :: l' => if f x then x :: filter f l' else filter f l'
  end.

(** [splice1 index l] is [l.splice(index, 1)]'s effect on [l]. *)
Fixpoint splice1 (index : nat) (l : list A) : list A :=
  match l, index with
  | [], _ => []
  | _ :: l', 0 => l'
  | x :: l', S i => x :: splice1 i l'
  end.

Context `{EqDecision A}.

Definition set_has (x : A) (s : list A) : bool := bool_decide (x ∈ s).

Definition set_add (x : A) (s : list A) : list A :=
  if set_has x s then s else s ++ [x].

Definition set_delete (x : A) (s : list A) : list A :=
  filter (fun y => negb (bool_decide (y = x))) s.
End array.

(** A string is falsy exactly when it is empty; [undefined] is falsy. *)
Definition truthy_string (s : option string) : bool :=
  match s with
  | Some s => negb (bool_decide (s = EmptyString))
  | None => false
  end.
End JS.

(** ** [router.ts]: the per-session router *)
Module Router.
Import Electron.

Record EventListener := mkListener {
  host : WebContents;
  extensionId : string
}.

#[export] Instance EventListener_eq_dec : EqDecision EventListener.
Proof. solve_decision. Defined.

Definition eventListenerEquals (eventListener other : EventListener) : bool :=
  bool_decide (host other = host eventListener)
  && bool_decide (extensionId other = extensionId eventListener).

(** The errors the router throws, named as the specification names them.
    The source throws [Error] objects whose messages are, in this order:
    "<name> is not a registered handler",
    "<name> does not support calling from a remote session",
    "<name> was sent from an unknown extension context",
    "extension not registered in session [extensionId:<id>]". *)
Inductive RouterError :=
| UnknownVerb (handlerName : string)
| CrossSessionNotAllowed (handlerName : string)
| UnknownExtensionContext (handlerName : string)
| UnknownExtension (extensionId : string).

Section router.
(** [Extension] objects, call arguments and call results are opaque. *)
Context {Extension Arg Value : Type}.

Record ExtensionEvent := mkEvent {
  sender : WebContents;
  extension : option Extension
}.

(** What awaiting a handler callback yields. *)
Inductive Settled :=
| Fulfilled (result : Value)
| Rejected (reason : string).

Definition HandlerCallback := ExtensionEvent -> list Arg -> Settled.

Record HandlerOptions := mkOptions {
  opt_allowRemote : option bool;
  opt_extensionContext : option bool
}.

Record Handler := mkHandler {
  callback : HandlerCallback;
  extensionContext : bool;
  allowRemote : bool
}.

(** The router's fields.  [destroyedOnce] lists the one-shot ['destroyed']
    callbacks armed by [observeListenerHost], one host per call. *)
Record ExtensionRouter := mkRouter {
  session : Session;
  handlers : gmap string Handler;
  listeners : gmap string (list EventListener);
  destroyedOnce : list WebContents
}.

Definition newRouter (ses : Session) : ExtensionRouter :=
  mkRouter ses ∅ ∅ [].

Definition set_listeners (r : ExtensionRouter)
    (ls : gmap string (list EventListener)) : ExtensionRouter :=
  mkRouter (session r) (handlers r) ls (destroyedOnce r).

(** [session.getExtension] for each session, and [webContents.session]. *)
Variable getExtension : Session -> string -> option Extension.
Variable session_of : WebContents -> Session.

Definition filterListeners (predicate : EventListener -> bool)
    (r : ExtensionRouter) : ExtensionRouter :=
  set_listeners r
    (omap (fun listeners =>
             let filteredListeners := JS.filter predicate listeners in
             if bool_decide (0 < length filteredListeners)
             then Some filteredListeners else None)
          (listeners r)).

Definition observeListenerHost (host : WebContents)
    (r : ExtensionRouter) : ExtensionRouter :=
  mkRouter (session r) (handlers r) (listeners r) (destroyedOnce r ++ [host]).

(** The callback [observeListenerHost] arms for [host]. *)
Definition onHostDestroyed (host' : WebContents)
    (r : ExtensionRouter) : ExtensionRouter :=
  filterListeners (fun listener => negb (bool_decide (host listener = host'))) r.

(** The session's ['extension-unloaded'] callback. *)
Definition onExtensionUnloaded (id : string)
    (r : ExtensionRouter) : ExtensionRouter :=
  filterListeners (fun listener => negb (bool_decide (extensionId listener = id))) r.

(** [host] emits ['destroyed']: every callback armed for it runs, in the
    order of arming, and is disarmed ([once]). *)
Definition emitDestroyed (host' : WebContents)
    (r : ExtensionRouter) : ExtensionRouter :=
  let r' :=
    foldl (fun acc h => if bool_decide (h = host') then onHostDestroyed host' acc else acc)
          r (destroyedOnce r) in
  mkRouter (session r') (handlers r') (listeners r')
           (JS.filter (fun h => negb (bool_decide (h = host'))) (destroyedOnce r')).

Definition addListener (listener : EventListener) (extensionId : string)
    (eventName : string) (r : ExtensionRouter) : RouterError + ExtensionRouter :=
  match getExtension (session r) extensionId with
  | None => inl (UnknownExtension extensionId)
  | Some _ =>
      let listeners1 :=
        match listeners r !! eventName with
        | Some _ => listeners r
        | None => <[eventName := []]> (listeners r)
        end in
      let eventListeners := default [] (listeners1 !! eventName) in
      match JS.find (eventListenerEquals listener) eventListeners with
      | Some _ => inr (set_listeners r listeners1)
      | None =>
          inr (observeListenerHost (host listener)
                 (set_listeners r
                    (<[eventName := eventListeners ++ [listener]]> listeners1)))
      end
  end.

Definition removeListener (listener : EventListener) (extensionId : string)
    (eventName : string) (r : ExtensionRouter) : ExtensionRouter :=
  match listeners r !! eventName with
  | None => r
  | Some eventListeners =>
      let eventListeners' :=
        match JS.findIndex (eventListenerEquals listener) eventListeners with
        | Some index => JS.splice1 index eventListeners
        | None => eventListeners
        end in
      if bool_decide (length eventListeners' = 0)
      then set_listeners r (delete eventName (listeners r))
      else set_listeners r (<[eventName := eventListeners']> (listeners r))
  end.

Definition getHandler (handlerName : string)
    (r : ExtensionRouter) : RouterError + Handler :=
  match handlers r !! handlerName with
  | None => inl (UnknownVerb handlerName)
  | Some handler => inr handler
  end.

(** The value of [const extension] in [onExtensionMessage]:
    [extensionId ? sender.session.getExtension (extensionId) : undefined]. *)
Definition senderExtension (event_sender : WebContents)
    (extensionId : option string) : option Extension :=
  match extensionId with
  | Some id =>
      if JS.truthy_string extensionId
      then getExtension (session_of event_sender) id
      else None
  | None => None
  end.

(** [onExtensionMessage]: [event.sender] is the calling web contents. *)
Definition onExtensionMessage (r : ExtensionRouter) (event_sender : WebContents)
    (extensionId : option string) (handlerName : string) (args : list Arg)
    : RouterError + Settled :=
  match getHandler handlerName r with
  | inl e => inl e
  | inr handler =>
      if negb (bool_decide (session_of event_sender = session r))
         && negb (allowRemote handler)
      then inl (CrossSessionNotAllowed handlerName)
      else
        let extension := senderExtension event_sender extensionId in
        if negb (bool_decide (is_Some extension)) && extensionContext handler
        then inl (UnknownExtensionContext handlerName)
        else
          let extEvent := mkEvent event_sender extension in
          inr (callback handler extEvent args)
  end.

Definition handle (name : string) (callback : HandlerCallback)
    (opts : option HandlerOptions) (r : ExtensionRouter) : ExtensionRouter :=
  mkRouter (session r)
    (<[name := mkHandler callback
                 (default true (opts ≫= opt_extensionContext))
                 (default false (opts ≫= opt_allowRemote))]> (handlers r))
    (listeners r) (destroyedOnce r).

(** One message [host.send (ipcName, ...args)]. *)
Record Sent := mkSent {
  sent_to : WebContents;
  sent_channel : string;
  sent_args : list Arg
}.

(** [sendEvent] when nothing else touches the router while the loop runs;
    [isDestroyed] is the liveness of each host at the time of the call. *)
Definition sendEvent (isDestroyed : WebContents -> bool) (r : ExtensionRouter)
    (extensionId : option string) (eventName : string) (args : list Arg)
    : list Sent :=
  let eventListeners := listeners r !! eventName in
  let eventListeners :=
    if JS.truthy_string extensionId
    then JS.filter (fun el => bool_decide (Some (Router.extensionId el) = extensionId))
           <$> eventListeners
    else eventListeners in
  match eventListeners with
  | None => []
  | Some eventListeners =>
      if bool_decide (length eventListeners = 0) then []
      else
        flat_map (fun el =>
                    if isDestroyed (host el) then []
                    else [mkSent (host el) ("crx-" +:+ eventName) args])
                 eventListeners
  end.

Definition broadcastEvent (isDestroyed : WebContents -> bool)
    (r : ExtensionRouter) (eventName : string) (args : list Arg) : list Sent :=
  sendEvent isDestroyed r None eventName args.

(** The entries the registry holds for an event name, in array order; an
    event name without an array has none. *)
Definition listenersFor (eventName : string) (r : ExtensionRouter) : list EventListener :=
  default [] (listeners r !! eventName).

(** Every host with an entry in the registry has a ['destroyed'] callback
    armed. *)
Definition armed (r : ExtensionRouter) : Prop :=
  forall eventName listener,
    listener ∈ listenersFor eventName r -> host listener ∈ destroyedOnce r.

(** No event name holds two entries with the same host and extension id. *)
Definition no_duplicates (r : ExtensionRouter) : Prop :=
  forall eventName, NoDup (listenersFor eventName r).

(** [RoutingDelegate.onAddListener] and [onRemoveListener] for a sender of
    this router's session: the listener is [{ host: sender, extensionId }].
    An [addListener] that throws leaves the router as it was. *)
Inductive ListenerCall := AddListener | RemoveListener.

Definition listenerCall (c : ListenerCall) (event_sender : WebContents)
    (extensionId eventName : string) (r : ExtensionRouter) : ExtensionRouter :=
  let listener := mkListener event_sender extensionId in
  match c with
  | AddListener =>
      match addListener listener extensionId eventName r with
      | inr r' => r'
      | inl _ => r
      end
  | RemoveListener => removeListener listener extensionId eventName r
  end.

#[export] Instance ListenerCall_eq_dec : EqDecision ListenerCall.
Proof. solve_decision. Defined.

(** How many of [calls] are [c]. *)
Definition count_calls (c : ListenerCall) (calls : list ListenerCall) : nat :=
  length (JS.filter (fun c' => bool_decide (c' = c)) calls).

Definition listenerCalls (calls : list ListenerCall) (event_sender : WebContents)
    (extensionId eventName : string) (r : ExtensionRouter) : ExtensionRouter :=
  foldl (fun r c => listenerCall c event_sender extensionId eventName r) r calls.

End router.

Arguments ExtensionEvent : clear implicits.
Arguments Settled : clear implicits.
Arguments HandlerCallback : clear implicits.
Arguments Handler : clear implicits.
Arguments ExtensionRouter : clear implicits.
Arguments Sent : clear implicits.

(** The routers a session can have: a new one, changed by the calls the
    router receives; which extensions the session holds may differ from one
    call to the next. *)
Inductive reachable {Extension Arg Value : Type}
  : ExtensionRouter Extension Arg Value -> Prop :=
| reach_new ses : reachable (newRouter ses)
| reach_listenerCall getExtension c event_sender extensionId eventName r :
    reachable r ->
    reachable (listenerCall getExtension c event_sender extensionId eventName r)
| reach_handle name callback opts r :
    reachable r -> reachable (handle name callback opts r)
| reach_destroyed host r :
    reachable r -> reachable (emitDestroyed host r)
| reach_unloaded id r :
    reachable r -> reachable (onExtensionUnloaded id r).
End Router.

(** ** The [chrome.*] records the store and the tabs API exchange *)
Module Chrome.

(** [chrome.tabs.CreateProperties], the fields the store reads or passes on. *)
Record CreateProperties := mkCreateProperties {
  cp_windowId : option Z;
  cp_url : option string;
  cp_active : option bool
}.

(** The [mutedInfo] object of a tab descriptor.  [mi_object] is the identity
    of the JavaScript object: [===] on two [mutedInfo] values compares it. *)
Record MutedInfo := mkMutedInfo {
  mi_object : nat;
  muted : bool
}.

(** [chrome.tabs.Tab] as [createTabDetails] builds it. *)
Record Tab := mkTab {
  active : bool;
  audible : bool;
  autoDiscardable : bool;
  discarded : bool;
  favIconUrl : option string;
  height : Z;
  highlighted : bool;
  id : Z;
  incognito : bool;
  index : Z;
  mutedInfo : MutedInfo;
  pinned : bool;
  selected : bool;
  status : string;
  title : string;
  url : string;
  width : Z;
  windowId : Z
}.

(** [chrome.tabs.TabChangeInfo]: a field is [None] when the key is absent. *)
Record TabChangeInfo := mkChangeInfo {
  ci_status : option string;
  ci_url : option string;
  ci_pinned : option bool;
  ci_audible : option bool;
  ci_discarded : option bool;
  ci_autoDiscardable : option bool;
  ci_mutedInfo : option MutedInfo;
  ci_favIconUrl : option (option string);
  ci_title : option string
}.

End Chrome.

(** ** [store.ts]: the tab and window store *)
Module Store.
Import Electron.

(** What an adapter written in JavaScript may hand back where its interface
    declares an object of type [A].  The declaration is not checked when the
    program runs, so besides such an object the value may be [undefined],
    [null] or a primitive; objects of another class are left out. *)
Inductive Hole := HUndefined | HNull | HPrimitive.

Inductive JSItem (A : Type) :=
| Given (a : A)
| Missing (hole : Hole).
Arguments Given {A}.
Arguments Missing {A}.

(** [typeof v === 'object']: true of [null] as well. *)
Definition typeof_object {A} (v : JSItem A) : bool :=
  match v with
  | Given _ | Missing HNull => true
  | Missing HUndefined | Missing HPrimitive => false
  end.

(** What the promise of the adapter's [createTab] settles to: an array, read
    by [const [tab, window] = result], in which an item the array does not
    have reads as [undefined]; a value that is no array; or a rejection. *)
Inductive CreateTabSettled :=
| TabArray (tab : JSItem WebContents) (window : JSItem BrowserWindow)
| TabNoArray
| TabRejected (reason : string).

(** What the promise of the adapter's [createWindow] settles to. *)
Inductive CreateWindowSettled :=
| WindowValue (window : JSItem BrowserWindow)
| WindowRejected (reason : string).

(** The errors the store throws.  The messages of the source are, in this
    order: "Active tab has no parent window"; "createTab is not implemented"
    and "createWindow is not implemented"; "createTab must return an array of
    [tab, window]", "createTab must return a WebContents" and "createTab must
    return a BrowserWindow".  [TypeError] is the runtime's, and
    [AdapterFailed] passes on the rejection of an adapter's promise. *)
Inductive StoreError :=
| NoParentWindow
| NotImplemented (operation : string)
| InvalidAdapterResult (expected : string)
| TypeError
| AdapterFailed (reason : string).

(** The store's events with their arguments; [WindowAddedValue] is
    ['window-added'] emitted with a value that is no window. *)
Inductive StoreEvent :=
| WindowAdded (window : BrowserWindow)
| WindowAddedValue (value : Hole)
| TabAdded (tab : WebContents)
| TabRemoved (tabId : Z)
| ActiveTabChanged (tab : WebContents) (window : BrowserWindow).

Section store.
(** [chrome.windows.CreateData] is passed through unread. *)
Context {CreateData : Type}.

(** What the store does to the outside, in the order it does it.  [Emit]
    is the call [this.emit (...)] as the store makes it; what the listeners
    subscribed to the event do on it is theirs, not the store method's. *)
Inductive Effect :=
| Emit (event : StoreEvent)
| CallSelectTab (tab : WebContents) (window : BrowserWindow)
| CallRemoveTab (tab : WebContents) (window : option BrowserWindow)
| CallCreateTab (details : Chrome.CreateProperties)
| CallCreateWindow (details : CreateData)
| CallRemoveWindow (window : BrowserWindow)
| WindowDestroy (window : BrowserWindow).

(** The store's fields ([windowDetailsCache] is left out: nothing below
    reads it).  A [Set] lists its members in insertion order. *)
Record ExtensionStore := mkStore {
  tabs : list WebContents;
  windows : list BrowserWindow;
  lastFocusedWindowId : option Z;
  tabToWindow : gmap WebContents BrowserWindow;
  windowToActiveTab : gmap BrowserWindow WebContents;
  tabDetailsCache : gmap Z Chrome.Tab
}.

Definition newStore : ExtensionStore := mkStore [] [] None ∅ ∅ ∅.

(** [ChromeExtensionImpl].  A hook returning nothing is [true] when it is a
    function; an asynchronous adapter may change the store before it
    settles. *)
Record ChromeExtensionImpl := mkImpl {
  impl_createTab :
    option (Chrome.CreateProperties -> ExtensionStore
            -> CreateTabSettled * ExtensionStore);
  impl_selectTab : bool;
  impl_removeTab : bool;
  impl_assignTabDetails : option (Chrome.Tab -> WebContents -> Chrome.Tab);
  impl_createWindow :
    option (CreateData -> ExtensionStore -> CreateWindowSettled * ExtensionStore);
  impl_removeWindow : bool
}.

(** How a call that filed a value that is no window ended: by throwing, by
    returning that value, or by returning the tab it was filed for. *)
Inductive Ending :=
| ThrewError (e : StoreError)
| ReturnedFiled
| ReturnedTab (tab : WebContents).

(** How a call ends.  The store's fields hold web contents and windows; a
    call in which the source files a value that is neither ends in
    [OutsideTypes]: [filed] has become a member of [windows], [owner_of] is
    the tab whose [tabToWindow] entry is [filed], when there is one, and
    [ending] is how the call ended.  The store given with it holds the
    other members and entries, the effects are those of the call; calls on a
    store with such a member are not followed further. *)
Inductive Outcome (A : Type) :=
| Returned (a : A)
| Thrown (e : StoreError)
| OutsideTypes (filed : Hole) (owner_of : option WebContents) (ending : Ending).
Arguments Returned {A}.
Arguments Thrown {A}.
Arguments OutsideTypes {A}.

(** A store method: outcome, store afterwards, effects performed. *)
Definition M (A : Type) : Type :=
  ExtensionStore -> Outcome A * ExtensionStore * list Effect.

Definition ret {A} (a : A) : M A := fun st => (Returned a, st, []).
Definition throw {A} (e : StoreError) : M A := fun st => (Thrown e, st, []).
Definition perform (eff : Effect) : M unit := fun st => (Returned tt, st, [eff]).
Definition modify (f : ExtensionStore -> ExtensionStore) : M unit :=
  fun st => (Returned tt, f st, []).
Definition bind {A B} (m : M A) (k : A -> M B) : M B :=
  fun st =>
    match m st with
    | (Returned a, st1, effs1) =>
        match k a st1 with
        | (o, st2, effs2) => (o, st2, effs1 ++ effs2)
        end
    | (Thrown e, st1, effs1) => (Thrown e, st1, effs1)
    | (OutsideTypes filed owner_of ending, st1, effs1) =>
        (OutsideTypes filed owner_of ending, st1, effs1)
    end.
Definition when (b : bool) (m : M unit) : M unit := if b then m else ret tt.

#[export] Instance M_ret : MRet M := @ret.
#[export] Instance M_bind : MBind M := fun A B k m => bind m k.

Definition set_tabs (ts : list WebContents) (st : ExtensionStore) :=
  mkStore ts (windows st) (lastFocusedWindowId st) (tabToWindow st)
          (windowToActiveTab st) (tabDetailsCache st).
Definition set_windows (ws : list BrowserWindow) (st : ExtensionStore) :=
  mkStore (tabs st) ws (lastFocusedWindowId st) (tabToWindow st)
          (windowToActiveTab st) (tabDetailsCache st).
Definition set_lastFocusedWindowId (i : option Z) (st : ExtensionStore) :=
  mkStore (tabs st) (windows st) i (tabToWindow st)
          (windowToActiveTab st) (tabDetailsCache st).
Definition set_tabToWindow (m : gmap WebContents BrowserWindow) (st : ExtensionStore) :=
  mkStore (tabs st) (windows st) (lastFocusedWindowId st) m
          (windowToActiveTab st) (tabDetailsCache st).
Definition set_windowToActiveTab (m : gmap BrowserWindow WebContents) (st : ExtensionStore) :=
  mkStore (tabs st) (windows st) (lastFocusedWindowId st) (tabToWindow st)
          m (tabDetailsCache st).
Definition set_tabDetailsCache (m : gmap Z Chrome.Tab) (st : ExtensionStore) :=
  mkStore (tabs st) (windows st) (lastFocusedWindowId st) (tabToWindow st)
          (windowToActiveTab st) m.

(** Readings of the outside world: [isDestroyed ()] of a web contents and
    of a window, [BrowserWindow.fromWebContents] and [webContents.fromId]. *)
Variable wcDestroyed : WebContents -> bool.
Variable bwDestroyed : BrowserWindow -> bool.
Variable fromWebContents : WebContents -> option BrowserWindow.
Variable fromId : Z -> option WebContents.
Variable impl : ChromeExtensionImpl.

Definition getWindowById (windowId : Z) (st : ExtensionStore) : option BrowserWindow :=
  JS.find (fun window => negb (bwDestroyed window) && bool_decide (bw_id window = windowId))
          (windows st).

(** A number is falsy exactly when it is [0] (ids are never [NaN]). *)
Definition truthy_number (n : option Z) : bool :=
  match n with
  | Some n => negb (bool_decide (n = 0%Z))
  | None => false
  end.

Definition getLastFocusedWindow (st : ExtensionStore) : option BrowserWindow :=
  match lastFocusedWindowId st with
  | Some i => if truthy_number (Some i) then getWindowById i st else None
  | None => None
  end.

Definition getCurrentWindow := getLastFocusedWindow.

Definition addWindow (window : BrowserWindow) : M unit :=
  fun st =>
    if JS.set_has window (windows st) then ret tt st
    else
      (modify (set_windows (JS.set_add window (windows st))) ;;
       modify (fun st =>
                 match lastFocusedWindowId st with
                 | Some _ => st
                 | None => set_lastFocusedWindowId (Some (bw_id window)) st
                 end) ;;
       perform (Emit (WindowAdded window))) st.

Definition removeWindow (window : BrowserWindow) : M unit :=
  fun st =>
    if negb (JS.set_has window (windows st)) then ret tt st
    else
      (modify (set_windows (JS.set_delete window (windows st))) ;;
       if impl_removeWindow impl
       then perform (CallRemoveWindow window)
       else perform (WindowDestroy window)) st.

Definition getTabById (tabId : Z) (st : ExtensionStore) : option WebContents :=
  JS.find (fun tab => negb (wcDestroyed tab) && bool_decide (wc_id tab = tabId))
          (tabs st).

Definition getActiveTabFromWindow (win : BrowserWindow)
    (st : ExtensionStore) : option WebContents :=
  let activeTab :=
    if negb (bwDestroyed win) then windowToActiveTab st !! win else None in
  match activeTab with
  | Some activeTab => if negb (wcDestroyed activeTab) then Some activeTab else None
  | None => None
  end.

Definition getActiveTabFromWebContents (wc : WebContents)
    (st : ExtensionStore) : option WebContents :=
  let win :=
    match tabToWindow st !! wc with
    | Some win => Some win
    | None => fromWebContents wc
    end in
  match win with
  | Some win => getActiveTabFromWindow win st
  | None => None
  end.

Definition getActiveTabOfCurrentWindow (st : ExtensionStore) : option WebContents :=
  match getCurrentWindow st with
  | Some win => getActiveTabFromWindow win st
  | None => None
  end.

Definition setActiveTab (tab : WebContents) : M unit :=
  fun st =>
    match tabToWindow st !! tab with
    | None => throw NoParentWindow st
    | Some win =>
        let prevActiveTab := getActiveTabFromWebContents tab st in
        (modify (fun st => set_windowToActiveTab (<[win := tab]> (windowToActiveTab st)) st) ;;
         when (negb (bool_decide (Some (wc_id tab) = wc_id <$> prevActiveTab)))
           (perform (Emit (ActiveTabChanged tab win)) ;;
            when (impl_selectTab impl) (perform (CallSelectTab tab win)))) st
    end.

(** [addTab] as the store's own method.  Its last statement,
    [emit ('tab-added', tab)], is logged as an effect; with the tabs API
    subscribed, as the program always has it, [observeTab] runs inside that
    [emit]: [Program.addTab] below is the call with its subscriber. *)
Definition addTab (tab : WebContents) (window : BrowserWindow) : M unit :=
  fun st =>
    if JS.set_has tab (tabs st) then ret tt st
    else
      (modify (fun st => set_tabs (JS.set_add tab (tabs st)) st) ;;
       modify (fun st => set_tabToWindow (<[tab := window]> (tabToWindow st)) st) ;;
       addWindow window ;;
       (fun st =>
          let activeTab := getActiveTabFromWebContents tab st in
          when (negb (bool_decide (is_Some activeTab))) (setActiveTab tab) st) ;;
       perform (Emit (TabAdded tab))) st.

Definition removeTab (tab : WebContents) : M unit :=
  fun st =>
    if negb (JS.set_has tab (tabs st)) then ret tt st
    else
      let tabId := wc_id tab in
      let win := tabToWindow st !! tab in
      (modify (fun st => set_tabs (JS.set_delete tab (tabs st)) st) ;;
       modify (fun st => set_tabToWindow (delete tab (tabToWindow st)) st) ;;
       modify (fun st =>
                 let windowHasTabs :=
                   JS.find (fun tab => bool_decide (tabToWindow st !! tab = win)) (tabs st) in
                 match windowHasTabs, win with
                 | None, Some win => set_windows (JS.set_delete win (windows st)) st
                 | _, _ => st
                 end) ;;
       when (impl_removeTab impl) (perform (CallRemoveTab tab win)) ;;
       perform (Emit (TabRemoved tabId))) st.

(** [createWindow] from the point where the adapter's promise has settled:
    [this.addWindow (win)] and [return win], whatever [win] is.  For a value
    that is no window, [addWindow] finds it in no [Set], adds it to
    [windows], reads [window.id] when [lastFocusedWindowId] is not a number
    (a [TypeError] for [undefined] and [null], [undefined] for a primitive),
    and emits ['window-added']. *)
Definition createWindow_afterAwait (settled : CreateWindowSettled) : M BrowserWindow :=
fun st =>
  match settled with
  | WindowRejected reason => throw (AdapterFailed reason) st
  | WindowValue (Given win) => (addWindow win ;; ret win) st
  | WindowValue (Missing value) =>
      match lastFocusedWindowId st, value with
      | None, (HUndefined | HNull) =>
          (OutsideTypes value None (ThrewError TypeError), st, [])
      | _, _ =>
          (OutsideTypes value None ReturnedFiled, st, [Emit (WindowAddedValue value)])
      end
  end.

Definition createWindow (details : CreateData) : M BrowserWindow :=
fun st =>
  match impl_createWindow impl with
  | None => throw (NotImplemented "createWindow is not implemented") st
  | Some implCreateWindow =>
      (perform (CallCreateWindow details) ;;
       ((fun st =>
           let '(settled, st1) := implCreateWindow details st in
           createWindow_afterAwait settled st1) : M BrowserWindow)) st
  end.

(** [this.addTab (tab, null)] and [return tab]: what [createTab] does with
    a tab that passed its check and [null] for the window, [typeof null]
    being ['object'].  An untracked [tab] is added to [tabs] and its
    [tabToWindow] entry set to [null]; [addWindow (null)] adds [null] to
    [windows] and reads [null.id] when [lastFocusedWindowId] is not a number;
    past that, [tabToWindow.get (tab) || BrowserWindow.fromWebContents (tab)]
    is the latter, and [setActiveTab], called when that window has no live
    active tab, finds no parent window. *)
Definition addTab_null (tab : WebContents) : M WebContents :=
fun st =>
  if JS.set_has tab (tabs st) then ret tab st
  else
    let st1 :=
      set_tabToWindow (delete tab (tabToWindow st))
        (set_tabs (JS.set_add tab (tabs st)) st) in
    match lastFocusedWindowId st1 with
    | None => (OutsideTypes HNull (Some tab) (ThrewError TypeError), st1, [])
    | Some _ =>
        let activeTab :=
          match fromWebContents tab with
          | Some win => getActiveTabFromWindow win st1
          | None => None
          end in
        match activeTab with
        | None =>
            (OutsideTypes HNull (Some tab) (ThrewError NoParentWindow), st1,
             [Emit (WindowAddedValue HNull)])
        | Some _ =>
            (OutsideTypes HNull (Some tab) (ReturnedTab tab), st1,
             [Emit (WindowAddedValue HNull); Emit (TabAdded tab)])
        end
    end.

(** [createTab] from the point where the adapter's promise has settled.
    [tab.id] is read when [typeof tab] is ['object'], which throws a
    [TypeError] for [null]. *)
Definition createTab_afterAwait (settled : CreateTabSettled) : M WebContents :=
fun st =>
  match settled with
  | TabRejected reason => throw (AdapterFailed reason) st
  | TabNoArray =>
      throw (InvalidAdapterResult "createTab must return an array of [tab, window]") st
  | TabArray tab window =>
      if negb (typeof_object tab)
      then throw (InvalidAdapterResult "createTab must return a WebContents") st
      else
        match tab with
        | Missing _ => throw TypeError st
        | Given tab =>
            if negb (bool_decide (is_Some (fromId (wc_id tab))))
            then throw (InvalidAdapterResult "createTab must return a WebContents") st
            else if negb (typeof_object window)
            then throw (InvalidAdapterResult "createTab must return a BrowserWindow") st
            else
              match window with
              | Given window => (addTab tab window ;; ret tab) st
              | Missing _ => addTab_null tab st
              end
        end
  end.

(** [details] as the adapter gets it: [if (!details.windowId)
    details.windowId = this.lastFocusedWindowId]. *)
Definition createTab_details (details : Chrome.CreateProperties)
    (st : ExtensionStore) : Chrome.CreateProperties :=
  if negb (truthy_number (Chrome.cp_windowId details))
  then Chrome.mkCreateProperties (lastFocusedWindowId st)
         (Chrome.cp_url details) (Chrome.cp_active details)
  else details.

Definition createTab (details : Chrome.CreateProperties) : M WebContents :=
fun st =>
  match impl_createTab impl with
  | None => throw (NotImplemented "createTab is not implemented") st
  | Some implCreateTab =>
      let details := createTab_details details st in
      (perform (CallCreateTab details) ;;
       ((fun st =>
           let '(settled, st1) := implCreateTab details st in
           createTab_afterAwait settled st1) : M WebContents)) st
  end.
End store.

Arguments Effect : clear implicits.
Arguments ExtensionStore : clear implicits.
Arguments ChromeExtensionImpl : clear implicits.
Arguments Returned {A}.
Arguments Thrown {A}.
Arguments OutsideTypes {A}.
End Store.

(** ** [api/tabs.ts]: tab descriptors and the diff behind [tabs.onUpdated] *)
Module TabsAPI.
Import Electron.

(** What [createTabDetails] reads off a [TabContents] at the time of the
    call: [isCurrentlyAudible ()], [audioMuted], [isLoading ()],
    [getTitle ()], [getURL ()] and the [favicon] property. *)
Record TabReading := mkReading {
  isCurrentlyAudible : bool;
  audioMuted : bool;
  isLoading : bool;
  getTitle : string;
  getURL : string;
  favicon : option string
}.

(** The keys of [compareProps]. *)
Inductive TabProp :=
| P_status | P_url | P_pinned | P_audible | P_discarded
| P_autoDiscardable | P_mutedInfo | P_favIconUrl | P_title.

Definition compareProps : list TabProp :=
  [P_status; P_url; P_pinned; P_audible; P_discarded;
   P_autoDiscardable; P_mutedInfo; P_favIconUrl; P_title].

(** [details[prop] !== prevDetails[prop]]: strings, booleans and [undefined]
    compare by value, the [mutedInfo] object by identity. *)
Definition differs (prop : TabProp) (details prevDetails : Chrome.Tab) : bool :=
  match prop with
  | P_status => negb (bool_decide (Chrome.status details = Chrome.status prevDetails))
  | P_url => negb (bool_decide (Chrome.url details = Chrome.url prevDetails))
  | P_pinned => negb (bool_decide (Chrome.pinned details = Chrome.pinned prevDetails))
  | P_audible => negb (bool_decide (Chrome.audible details = Chrome.audible prevDetails))
  | P_discarded =>
      negb (bool_decide (Chrome.discarded details = Chrome.discarded prevDetails))
  | P_autoDiscardable =>
      negb (bool_decide (Chrome.autoDiscardable details = Chrome.autoDiscardable prevDetails))
  | P_mutedInfo =>
      negb (bool_decide (Chrome.mi_object (Chrome.mutedInfo details)
                         = Chrome.mi_object (Chrome.mutedInfo prevDetails)))
  | P_favIconUrl =>
      negb (bool_decide (Chrome.favIconUrl details = Chrome.favIconUrl prevDetails))
  | P_title => negb (bool_decide (Chrome.title details = Chrome.title prevDetails))
  end.

Definition emptyChangeInfo : Chrome.TabChangeInfo :=
  Chrome.mkChangeInfo None None None None None None None None None.

(** [changeInfo[prop] = details[prop]]. *)
Definition assignProp (prop : TabProp) (details : Chrome.Tab)
    (ci : Chrome.TabChangeInfo) : Chrome.TabChangeInfo :=
  let '(Chrome.mkChangeInfo s u p a d ad m f t) := ci in
  match prop with
  | P_status => Chrome.mkChangeInfo (Some (Chrome.status details)) u p a d ad m f t
  | P_url => Chrome.mkChangeInfo s (Some (Chrome.url details)) p a d ad m f t
  | P_pinned => Chrome.mkChangeInfo s u (Some (Chrome.pinned details)) a d ad m f t
  | P_audible => Chrome.mkChangeInfo s u p (Some (Chrome.audible details)) d ad m f t
  | P_discarded => Chrome.mkChangeInfo s u p a (Some (Chrome.discarded details)) ad m f t
  | P_autoDiscardable =>
      Chrome.mkChangeInfo s u p a d (Some (Chrome.autoDiscardable details)) m f t
  | P_mutedInfo => Chrome.mkChangeInfo s u p a d ad (Some (Chrome.mutedInfo details)) f t
  | P_favIconUrl => Chrome.mkChangeInfo s u p a d ad m (Some (Chrome.favIconUrl details)) t
  | P_title => Chrome.mkChangeInfo s u p a d ad m f (Some (Chrome.title details))
  end.

(** The arguments of [router.broadcastEvent ('tabs.onUpdated', ...)]. *)
Record Updated := mkUpdated {
  upd_tabId : Z;
  upd_changeInfo : Chrome.TabChangeInfo;
  upd_details : Chrome.Tab
}.

Section tabs.
Context {CreateData : Type}.

(** The API's context: the store, and the number of objects the runtime
    has allocated so far (the next object literal gets this identity). *)
Record Ctx := mkCtx {
  store : Store.ExtensionStore;
  allocated : nat
}.

Variable wcDestroyed : WebContents -> bool.
Variable bwDestroyed : BrowserWindow -> bool.
Variable fromWebContents : WebContents -> option BrowserWindow.
Variable reading : WebContents -> TabReading.
(** [win.getSize ()], as [(width, height)]. *)
Variable getSize : BrowserWindow -> Z * Z.
Variable impl : Store.ChromeExtensionImpl CreateData.

Definition createTabDetails (tab : WebContents) (ctx : Ctx) : Chrome.Tab * Ctx :=
  let tabId := wc_id tab in
  let activeTab :=
    Store.getActiveTabFromWebContents wcDestroyed bwDestroyed fromWebContents
      tab (store ctx) in
  let win := Store.tabToWindow (store ctx) !! tab in
  let win :=
    match win with
    | Some w => if bwDestroyed w then None else Some w
    | None => None
    end in
  let '(width, height) :=
    match win with
    | Some w => getSize w
    | None => (0%Z, 0%Z)
    end in
  let details :=
    Chrome.mkTab
      (bool_decide (wc_id <$> activeTab = Some tabId))
      (isCurrentlyAudible (reading tab))
      true
      false
      (match favicon (reading tab) with
       | Some f => if JS.truthy_string (Some f) then Some f else None
       | None => None
       end)
      height
      false
      tabId
      false
      (-1)%Z
      (Chrome.mkMutedInfo (allocated ctx) (audioMuted (reading tab)))
      false
      true
      (if isLoading (reading tab) then "loading" else "complete")
      (getTitle (reading tab))
      (getURL (reading tab))
      width
      (match win with
       | Some w => bw_id w
       | None => (-1)%Z
       end) in
  let details :=
    match Store.impl_assignTabDetails impl with
    | Some assignTabDetails => assignTabDetails details tab
    | None => details
    end in
  (details,
   mkCtx (Store.set_tabDetailsCache
            (<[wc_id tab := details]> (Store.tabDetailsCache (store ctx)))
            (store ctx))
         (S (allocated ctx))).

Definition getTabDetails (tab : WebContents) (ctx : Ctx) : Chrome.Tab * Ctx :=
  match Store.tabDetailsCache (store ctx) !! wc_id tab with
  | Some details => (details, ctx)
  | None => createTabDetails tab ctx
  end.

(** The loop over [compareProps]: [(didUpdate, changeInfo)]. *)
Definition diff (details prevDetails : Chrome.Tab) : bool * Chrome.TabChangeInfo :=
  foldl (fun '(didUpdate, changeInfo) prop =>
           if differs prop details prevDetails
           then (true, assignProp prop details changeInfo)
           else (didUpdate, changeInfo))
        (false, emptyChangeInfo) compareProps.

(** [onUpdated]: the broadcast, if one is made, and the context after. *)
Definition onUpdated (tabId : Z) (ctx : Ctx) : option Updated * Ctx :=
  match Store.getTabById wcDestroyed tabId (store ctx) with
  | None => (None, ctx)
  | Some tab =>
      match Store.tabDetailsCache (store ctx) !! wc_id tab with
      | None => (None, ctx)
      | Some prevDetails =>
          let '(details, ctx') := createTabDetails tab ctx in
          let '(didUpdate, changeInfo) := diff details prevDetails in
          if negb didUpdate then (None, ctx')
          else (Some (mkUpdated (wc_id tab) changeInfo details), ctx')
      end
  end.

(** Every cached descriptor holds a [mutedInfo] object that exists already:
    its identity is below the next one the runtime hands out. *)
Definition cache_allocated (ctx : Ctx) : Prop :=
  forall tabId details,
    Store.tabDetailsCache (store ctx) !! tabId = Some details ->
    Chrome.mi_object (Chrome.mutedInfo details) < allocated ctx.
End tabs.
End TabsAPI.

(** ** [api/browser-action.ts]: the coalesced update *)
Module BrowserActionAPI.
Import Electron.

(** The closure [onUpdate] hands to [queueMicrotask]. *)
Inductive Microtask := FlushUpdate.

Section action.
(** The [actionMap] and what the setters write into it stay opaque. *)
Context {ActionMap : Type}.

(** The API object's fields together with the two things of the runtime
    the update touches: its microtask queue and the messages sent, each a
    pair of the receiving observer and the channel. *)
Record State := mkState {
  actionMap : ActionMap;
  observers : list WebContents;
  queuedUpdate : bool;
  microtasks : list Microtask;
  sent : list (WebContents * string)
}.

Definition onUpdate (s : State) : State :=
  if queuedUpdate s then s
  else mkState (actionMap s) (observers s) true
               (microtasks s ++ [FlushUpdate]) (sent s).

(** A write to the action state, as [setDetails] and [removeActions] make
    it: change [actionMap], then call [onUpdate]. *)
Definition mutate (write : ActionMap -> ActionMap) (s : State) : State :=
  onUpdate (mkState (write (actionMap s)) (observers s) (queuedUpdate s)
                    (microtasks s) (sent s)).

Variable isDestroyed : WebContents -> bool.

Definition runMicrotask (task : Microtask) (s : State) : State :=
  match task with
  | FlushUpdate =>
      mkState (actionMap s) (observers s) false (microtasks s)
              (sent s ++
               flat_map (fun observer =>
                           if negb (isDestroyed observer)
                           then [(observer, "browserAction.update")]
                           else [])
                        (observers s))
  end.

(** A burst of writes with no microtask run in between. *)
Definition mutations (writes : list (ActionMap -> ActionMap)) (s : State) : State :=
  foldl (fun s write => mutate write s) s writes.

(** The end of the tick: the runtime runs the queued microtasks in order. *)
Definition drainMicrotasks (s : State) : State :=
  foldl (fun s task => runMicrotask task s)
        (mkState (actionMap s) (observers s) (queuedUpdate s) [] (sent s))
        (microtasks s).
End action.

Arguments State : clear implicits.

Section states.
Context {ActionMap : Type}.

Definition newState (actions : ActionMap) : State ActionMap :=
  mkState actions [] false [] [].

(** The handlers of ['browserAction.addObserver'] and
    ['browserAction.removeObserver']; the latter is also what the observer's
    ['destroyed'] callback does. *)
Definition addObserver (event_sender : WebContents) (s : State ActionMap) : State ActionMap :=
  mkState (actionMap s) (JS.set_add event_sender (observers s)) (queuedUpdate s)
          (microtasks s) (sent s).

Definition removeObserver (event_sender : WebContents) (s : State ActionMap) : State ActionMap :=
  mkState (actionMap s) (JS.set_delete event_sender (observers s)) (queuedUpdate s)
          (microtasks s) (sent s).

(** The states the API can be in. *)
Inductive reachable : State ActionMap -> Prop :=
| reach_new actions : reachable (newState actions)
| reach_mutate write s : reachable s -> reachable (mutate write s)
| reach_addObserver event_sender s : reachable s -> reachable (addObserver event_sender s)
| reach_removeObserver event_sender s :
    reachable s -> reachable (removeObserver event_sender s)
| reach_drain isDestroyed s : reachable s -> reachable (drainMicrotasks isDestroyed s).
End states.
End BrowserActionAPI.

(** ** [router.ts] on the main process: one job at a time

    A router changes and sends only from the main process' event loop: a
    listener message of a renderer (the delegate's [ipcMain] handlers), a
    host's ['destroyed'] event, the session's ['extension-unloaded'] event,
    and an API's call to [sendEvent].  Each is a job that runs to completion
    before the next one starts; the loop of [sendEvent] awaits nothing and
    calls [isDestroyed], [console.error] and [host.send] only, so whatever
    arrives while it runs is a job behind it. *)
Module MainProcess.
Import Electron Router.

Section jobs.
Context {Extension Arg Value : Type}.

(** A job carries what it reads off the world when it runs: the extensions
    of each session, the liveness of each host. *)
Inductive Job :=
| ListenerMessage (getExtension : Session -> string -> option Extension)
    (c : ListenerCall) (event_sender : WebContents) (extensionId eventName : string)
| HostDestroyed (host : WebContents)
| ExtensionUnloaded (id : string)
| SendEvent (isDestroyed : WebContents -> bool) (extensionId : option string)
    (eventName : string) (args : list Arg).

(** The router and the messages sent so far, oldest first. *)
Record Main := mkMain {
  router : ExtensionRouter Extension Arg Value;
  outbox : list (Sent Arg)
}.

Definition run_job (j : Job) (m : Main) : Main :=
  match j with
  | ListenerMessage getExtension c event_sender extensionId eventName =>
      mkMain (listenerCall getExtension c event_sender extensionId eventName (router m))
             (outbox m)
  | HostDestroyed host => mkMain (emitDestroyed host (router m)) (outbox m)
  | ExtensionUnloaded id => mkMain (onExtensionUnloaded id (router m)) (outbox m)
  | SendEvent isDestroyed extensionId eventName args =>
      mkMain (router m)
             (outbox m ++ sendEvent isDestroyed (router m) extensionId eventName args)
  end.

(** The jobs of a queue, first in, first run. *)
Definition run_jobs (jobs : list Job) (m : Main) : Main :=
  foldl (fun m j => run_job j m) m jobs.

End jobs.

Arguments Job : clear implicits.
Arguments Main : clear implicits.
End MainProcess.

(** ** Concrete worlds and stores the examples below run in *)
Module Scenario.
Import Electron.

Definition W1 : BrowserWindow := BW 1.
Definition T1 : WebContents := WC 1.
Definition T2 : WebContents := WC 2.

(** No adapter function is configured. *)
Definition noImpl : Store.ChromeExtensionImpl unit :=
  Store.mkImpl None false false None None false.

(** Nothing is destroyed, and no web contents belongs to a window the store
    is not told of. *)
Definition wcAlive : WebContents -> bool := fun _ => false.
Definition bwAlive : BrowserWindow -> bool := fun _ => false.
Definition noOwner : WebContents -> option BrowserWindow := fun _ => None.

(** Every window is destroyed. *)
Definition bwGone : BrowserWindow -> bool := fun _ => true.

(** Every id is that of a registered web contents. *)
Definition allRegistered : Z -> option WebContents := fun i => Some (WC i).

(** The store after the store's own [addWindow (W1)], [addTab (T1, W1)] and
    [addTab (T2, W1)]: [T1] is the active tab of [W1]. *)
Definition twoTabs : Store.ExtensionStore :=
  (Store.addTab wcAlive bwAlive noOwner noImpl T2 W1
     (Store.addTab wcAlive bwAlive noOwner noImpl T1 W1
        (Store.addWindow (CreateData := unit) W1 Store.newStore).1.2).1.2).1.2.

(** A store in which [T1] is tracked under [W1] and no active tab is
    recorded. *)
Definition oneTab : Store.ExtensionStore :=
  Store.mkStore [T1] [W1] (Some 1%Z) {[T1 := W1]} ∅ ∅.

(** Three hosts listening to ["tabs.onUpdated"] for the extension ["ext"],
    registered in this order. *)
Definition L1 := Router.mkListener (WC 1) "ext".
Definition L2 := Router.mkListener (WC 2) "ext".
Definition L3 := Router.mkListener (WC 3) "ext".
Definition extLoaded : Session -> string -> option unit := fun _ _ => Some tt.
Definition threeListeners : MainProcess.Main unit unit unit :=
  MainProcess.run_jobs
    [MainProcess.ListenerMessage extLoaded Router.AddListener (WC 1) "ext" "tabs.onUpdated";
     MainProcess.ListenerMessage extLoaded Router.AddListener (WC 2) "ext" "tabs.onUpdated";
     MainProcess.ListenerMessage extLoaded Router.AddListener (WC 3) "ext" "tabs.onUpdated"]
    (MainProcess.mkMain (Router.newRouter (Ses 1)) []).

(** What the tabs API reads off any tab and any window. *)
Definition blankPage : WebContents -> TabsAPI.TabReading :=
  fun _ => TabsAPI.mkReading false false false "New Tab" "about:blank" None.
Definition windowSize : BrowserWindow -> Z * Z := fun _ => (800%Z, 600%Z).

(** The tabs API context over [twoTabs] once [T1]'s descriptor has been
    built and cached, as [onCreated] does. *)
Definition observed : TabsAPI.Ctx :=
  (TabsAPI.createTabDetails wcAlive bwAlive noOwner blankPage windowSize noImpl
     T1 (TabsAPI.mkCtx twoTabs 0)).2.

(** An adapter whose [createWindow] settles to [undefined], as a function
    that opens a window and returns nothing does, and whose [createTab]
    settles to the pair of [T1] and [W1]. *)
Definition sloppyImpl : Store.ChromeExtensionImpl unit :=
  Store.mkImpl
    (Some (fun _ st => (Store.TabArray (Store.Given T1) (Store.Given W1), st)))
    false false None
    (Some (fun _ st => (Store.WindowValue (Store.Missing Store.HUndefined), st)))
    false.

End Scenario.

(** ** [router.ts]: what the registry keeps, and the routing delegate *)
Module RouterMore.
Import Electron Router.

#[export] Instance Session_countable : Countable Session.
Proof. apply (inj_countable' ses_id Ses). by intros []. Defined.

Section more.
Context {Extension Arg Value : Type}.

(** No event name is left with an empty array. *)
Definition no_empty_array (r : ExtensionRouter Extension Arg Value) : Prop :=
  forall eventName eventListeners,
    listeners r !! eventName = Some eventListeners -> eventListeners <> [].

(** [DEFAULT_SESSION]. *)
Definition DEFAULT_SESSION : string := "_self".

(** [RoutingDelegate]: [sessionMap] holds the observer of each session.  An
    observer is a router object; a call that changes the router changes the
    object the map holds. *)
Record RoutingDelegate := mkDelegate {
  sessionMap : gmap Session (ExtensionRouter Extension Arg Value)
}.

Definition newDelegate : RoutingDelegate := mkDelegate ∅.

Definition addObserver (observer : ExtensionRouter Extension Arg Value)
    (d : RoutingDelegate) : RoutingDelegate :=
  mkDelegate (<[session observer := observer]> (sessionMap d)).

(** [session.getExtension] for each session, [webContents.session] and
    [session.fromPartition]. *)
Variable getExtension : Session -> string -> option Extension.
Variable session_of : WebContents -> Session.
Variable fromPartition : string -> Session.

(** [onRouterMessage] and [onRemoteMessage]: [None] is the [undefined] that
    [observer?.onExtensionMessage (...)] yields without an observer. *)
Definition onRouterMessage (d : RoutingDelegate) (event_sender : WebContents)
    (extensionId : string) (handlerName : string) (args : list Arg)
    : option (RouterError + Settled Value) :=
  match sessionMap d !! session_of event_sender with
  | None => None
  | Some observer =>
      Some (onExtensionMessage getExtension session_of observer event_sender
              (Some extensionId) handlerName args)
  end.

Definition onRemoteMessage (d : RoutingDelegate) (event_sender : WebContents)
    (sessionPartition : string) (handlerName : string) (args : list Arg)
    : option (RouterError + Settled Value) :=
  let ses :=
    if bool_decide (sessionPartition = DEFAULT_SESSION)
    then session_of event_sender
    else fromPartition sessionPartition in
  match sessionMap d !! ses with
  | None => None
  | Some observer =>
      Some (onExtensionMessage getExtension session_of observer event_sender
              None handlerName args)
  end.

(** [onAddListener] and [onRemoveListener]: what is thrown, if anything, and
    the delegate afterwards. *)
Definition onAddListener (d : RoutingDelegate) (event_sender : WebContents)
    (extensionId eventName : string) : option RouterError * RoutingDelegate :=
  match sessionMap d !! session_of event_sender with
  | None => (None, d)
  | Some observer =>
      let listener := mkListener event_sender extensionId in
      match addListener getExtension listener extensionId eventName observer with
      | inl e => (Some e, d)
      | inr observer' =>
          (None, mkDelegate (<[session_of event_sender := observer']> (sessionMap d)))
      end
  end.

Definition onRemoveListener (d : RoutingDelegate) (event_sender : WebContents)
    (extensionId eventName : string) : RoutingDelegate :=
  match sessionMap d !! session_of event_sender with
  | None => d
  | Some observer =>
      let listener := mkListener event_sender extensionId in
      mkDelegate (<[session_of event_sender :=
                      removeListener listener extensionId eventName observer]>
                    (sessionMap d))
  end.

(** Every observer is filed under its own session. *)
Definition filed_by_session (d : RoutingDelegate) : Prop :=
  forall ses observer, sessionMap d !! ses = Some observer -> session observer = ses.
End more.

Arguments RoutingDelegate : clear implicits.
End RouterMore.

(** ** [renderer/event.ts]: the listener count of an extension context *)
Module RendererEvent.

(** The messages [addExtensionListener] and [removeExtensionListener] send
    to the main process: ['crx-add-listener'] and ['crx-remove-listener'],
    each with the extension id and the event name. *)
Inductive Ipc :=
| CrxAddListener (extensionId name : string)
| CrxRemoveListener (extensionId name : string).

(** A function object: a callback the extension passed in, or the wrapper
    [addExtensionListener] makes around one for [ipcRenderer]; the number
    tells two objects of a kind apart. *)
Inductive Fn :=
| Callback (object : nat)
| Wrapper (object : nat) (callback : Fn).

#[export] Instance Fn_eq_dec : EqDecision Fn.
Proof. solve_decision. Defined.

(** The module's [listenerMap]; the listeners attached to [ipcRenderer], a
    channel and a function each, in the order they were added; the messages
    sent so far; and the number of function objects made so far. *)
Record State := mkState {
  listenerMap : gmap string nat;
  attached : list (string * Fn);
  sent : list Ipc;
  made : nat
}.

Definition newState : State := mkState ∅ [] [] 0.

Definition formatIpcName (name : string) : string := "crx-" +:+ name.

(** [emitter.removeListener (channel, fn)]: the listener added last among
    those that are [fn] on [channel] goes. *)
Fixpoint removeLast (channel : string) (fn : Fn) (l : list (string * Fn))
    : option (list (string * Fn)) :=
  match l with
  | [] => None
  | entry :: l' =>
      match removeLast channel fn l' with
      | Some l'' => Some (entry :: l'')
      | None =>
          if bool_decide (entry = (channel, fn)) then Some l' else None
      end
  end.

Definition ipcRemoveListener (channel : string) (fn : Fn)
    (l : list (string * Fn)) : list (string * Fn) :=
  default l (removeLast channel fn l).

Definition addExtensionListener (extensionId name : string) (callback : Fn)
    (s : State) : State :=
  let listenerCount := default 0 (listenerMap s !! name) in
  let sent' :=
    if bool_decide (listenerCount = 0)
    then sent s ++ [CrxAddListener extensionId name]
    else sent s in
  mkState (<[name := listenerCount + 1]> (listenerMap s))
          (attached s ++ [(formatIpcName name, Wrapper (made s) callback)])
          sent' (S (made s)).

Definition removeExtensionListener (extensionId name : string) (callback : Fn)
    (s : State) : State :=
  let '(listenerMap', sent') :=
    match listenerMap s !! name with
    | Some count =>
        let listenerCount := count in
        if bool_decide (listenerCount <= 1)
        then (delete name (listenerMap s),
              sent s ++ [CrxRemoveListener extensionId name])
        else (<[name := listenerCount - 1]> (listenerMap s), sent s)
    | None => (listenerMap s, sent s)
    end in
  mkState listenerMap'
          (ipcRemoveListener (formatIpcName name) callback (attached s))
          sent' (made s).

(** A call of the extension: [chrome.*.addListener (callback)] or
    [removeListener (callback)] on one event. *)
Inductive Call :=
| Add (callback : nat)
| Remove (callback : nat).

Definition call (extensionId name : string) (c : Call) (s : State) : State :=
  match c with
  | Add callback => addExtensionListener extensionId name (Callback callback) s
  | Remove callback => removeExtensionListener extensionId name (Callback callback) s
  end.

Definition calls (extensionId name : string) (cs : list Call) (s : State) : State :=
  foldl (fun s c => call extensionId name c s) s cs.

(** The count the calls leave: up by one on an add, down by one on a remove,
    never below zero. *)
Definition count_after (cs : list Call) (count : nat) : nat :=
  foldl (fun n c => match c with Add _ => S n | Remove _ => pred n end) count cs.

(** What the main process does on a message, for the router of the sending
    context's session. *)
Definition toListenerCall (m : Ipc) : Router.ListenerCall :=
  match m with
  | CrxAddListener _ _ => Router.AddListener
  | CrxRemoveListener _ _ => Router.RemoveListener
  end.

(** The callbacks the calls passed to [addListener], in call order. *)
Definition added (cs : list Call) : list nat :=
  omap (fun c => match c with Add callback => Some callback | Remove _ => None end) cs.

(** Every attached function is a wrapper. *)
Definition only_wrappers (s : State) : Prop :=
  forall channel fn, (channel, fn) ∈ attached s -> exists n callback, fn = Wrapper n callback.
End RendererEvent.

(** ** The delegates a process can have *)
Module DelegateStates.
Import Electron Router RouterMore.

(** A new delegate, changed by routers registering themselves, by the
    listener messages, and by whatever else changes a router it holds (a
    router's [session] is never assigned to). *)
Inductive reachable {Extension Arg Value : Type}
  : RoutingDelegate Extension Arg Value -> Prop :=
| reach_new : reachable newDelegate
| reach_addObserver observer d :
    reachable d -> reachable (addObserver observer d)
| reach_onAddListener getExtension session_of event_sender extensionId eventName d :
    reachable d ->
    reachable (onAddListener getExtension session_of d event_sender
                 extensionId eventName).2
| reach_onRemoveListener session_of event_sender extensionId eventName d :
    reachable d ->
    reachable (onRemoveListener session_of d event_sender extensionId eventName)
| reach_router ses observer observer' d :
    reachable d ->
    sessionMap d !! ses = Some observer ->
    session observer' = session observer ->
    reachable (mkDelegate (<[ses := observer']> (sessionMap d))).
End DelegateStates.

(** ** Routers and delegates of the examples *)
Module RoutingScenario.
Import Electron Router RouterMore.

Definition S1 : Session := Ses 1.
Definition S2 : Session := Ses 2.

(** Every web contents belongs to [S1]; [S1] has every extension loaded. *)
Definition inS1 : WebContents -> Session := fun _ => S1.
Definition loadedInS1 : Session -> string -> option unit := fun _ _ => Some tt.
Definition partitionS2 : string -> Session := fun _ => S2.

Definition answer : HandlerCallback unit unit unit := fun _ _ => Fulfilled tt.

(** The router of [S1] with ['tabs.get'] registered by default and
    ['browserAction.getState'] registered for the preload API, and the
    delegate it has registered itself with. *)
Definition routerS1 : ExtensionRouter unit unit unit :=
  handle "browserAction.getState" answer (Some (mkOptions (Some true) (Some false)))
    (handle "tabs.get" answer None (newRouter S1)).
Definition delegateS1 : RoutingDelegate unit unit unit :=
  addObserver routerS1 newDelegate.

(** [routerS1] once [WC 1] listens to ["tabs.onUpdated"] for ["ext"]. *)
Definition listeningS1 : ExtensionRouter unit unit unit :=
  listenerCall loadedInS1 AddListener (WC 1) "ext" "tabs.onUpdated" routerS1.
End RoutingScenario.

(** ** The stores a session can have *)
Module StoreStates.
Import Electron Store.

(** A call of one of the store's methods that change it. *)
Inductive Op :=
| AddWindow (window : BrowserWindow)
| RemoveWindow (window : BrowserWindow)
| AddTab (tab : WebContents) (window : BrowserWindow)
| RemoveTab (tab : WebContents)
| SetActiveTab (tab : WebContents).

Section states.
Context {CreateData : Type}.
Variable wcDestroyed : WebContents -> bool.
Variable bwDestroyed : BrowserWindow -> bool.
Variable fromWebContents : WebContents -> option BrowserWindow.
Variable impl : ChromeExtensionImpl CreateData.

Definition run (op : Op) : M (CreateData := CreateData) unit :=
  match op with
  | AddWindow window => addWindow window
  | RemoveWindow window => removeWindow impl window
  | AddTab tab window => addTab wcDestroyed bwDestroyed fromWebContents impl tab window
  | RemoveTab tab => removeTab impl tab
  | SetActiveTab tab => setActiveTab wcDestroyed bwDestroyed fromWebContents impl tab
  end.
End states.

(** A new store, changed by its methods (what is destroyed, and the adapter,
    may differ from call to call), by [WindowsAPI.onFocusChanged] writing
    [lastFocusedWindowId] and by the tabs API writing [tabDetailsCache]. *)
Inductive reachable (CreateData : Type) : ExtensionStore -> Prop :=
| reach_new : reachable CreateData newStore
| reach_run wcDestroyed bwDestroyed fromWebContents
    (impl : ChromeExtensionImpl CreateData) op st :
    reachable CreateData st ->
    reachable CreateData (run wcDestroyed bwDestroyed fromWebContents impl op st).1.2
| reach_focus windowId st :
    reachable CreateData st ->
    reachable CreateData (set_lastFocusedWindowId (Some windowId) st)
| reach_cache cache st :
    reachable CreateData st -> reachable CreateData (set_tabDetailsCache cache st).

(** Every tracked tab has an owning window on record. *)
Definition owners_known (st : ExtensionStore) : Prop :=
  forall tab, tab ∈ tabs st -> is_Some (tabToWindow st !! tab).

(** With a window or a tab tracked, [lastFocusedWindowId] is a number. *)
Definition focus_known (st : ExtensionStore) : Prop :=
  windows st <> [] \/ tabs st <> [] -> is_Some (lastFocusedWindowId st).
End StoreStates.

(** ** [api/windows.ts]: the focus signal *)
Module WindowsAPI.
Import Electron Store.

(** [onFocusChanged]: the store afterwards, and the window ids broadcast as
    ['windows.onFocusChanged']. *)
Definition onFocusChanged (windowId : Z) (st : ExtensionStore)
    : ExtensionStore * list Z :=
  if bool_decide (lastFocusedWindowId st = Some windowId) then (st, [])
  else (set_lastFocusedWindowId (Some windowId) st, [windowId]).

(** The ['focus'] signals of observed windows, one after the other. *)
Definition focusSignals (windowIds : list Z) (st : ExtensionStore)
    : ExtensionStore * list Z :=
  foldl (fun '(st, broadcast) windowId =>
           let '(st', more) := onFocusChanged windowId st in
           (st', broadcast ++ more))
        (st, []) windowIds.

(** No two neighbours are equal. *)
Fixpoint no_repeat (l : list Z) : Prop :=
  match l with
  | x :: (y :: _) as l' => x <> y /\ no_repeat l'
  | _ => True
  end.
End WindowsAPI.

(** ** [api/tabs.ts]: the tab events *)
Module TabsEvents.
Import Electron.

(** The arguments of [router.broadcastEvent] for ['tabs.onCreated'],
    ['tabs.onRemoved'] and ['tabs.onActivated']. *)
Inductive Broadcast :=
| OnCreated (tabDetails : Chrome.Tab)
| OnRemoved (tabId : Z) (windowId : Z) (isWindowClosing : bool)
| OnActivated (tabId : Z) (windowId : option Z).

(** [tabInfo.active = b]. *)
Definition set_active (b : bool) (tabInfo : Chrome.Tab) : Chrome.Tab :=
  Chrome.mkTab b (Chrome.audible tabInfo) (Chrome.autoDiscardable tabInfo)
    (Chrome.discarded tabInfo) (Chrome.favIconUrl tabInfo) (Chrome.height tabInfo)
    (Chrome.highlighted tabInfo) (Chrome.id tabInfo) (Chrome.incognito tabInfo)
    (Chrome.index tabInfo) (Chrome.mutedInfo tabInfo) (Chrome.pinned tabInfo)
    (Chrome.selected tabInfo) (Chrome.status tabInfo) (Chrome.title tabInfo)
    (Chrome.url tabInfo) (Chrome.width tabInfo) (Chrome.windowId tabInfo).

(** The tab id of a ['tabs.onRemoved'] broadcast. *)
Definition removedId (b : Broadcast) : option Z :=
  match b with
  | OnRemoved tabId _ _ => Some tabId
  | _ => None
  end.

Section events.
Context {CreateData : Type}.
Variable wcDestroyed : WebContents -> bool.
Variable bwDestroyed : BrowserWindow -> bool.
Variable fromWebContents : WebContents -> option BrowserWindow.
Variable reading : WebContents -> TabsAPI.TabReading.
Variable getSize : BrowserWindow -> Z * Z.
(** [BrowserWindow.getAllWindows ()]. *)
Variable getAllWindows : list BrowserWindow.
Variable impl : Store.ChromeExtensionImpl CreateData.

Definition with_store (st : Store.ExtensionStore) (ctx : TabsAPI.Ctx) : TabsAPI.Ctx :=
  TabsAPI.mkCtx st (TabsAPI.allocated ctx).

Definition onCreated (tabId : Z) (ctx : TabsAPI.Ctx) : TabsAPI.Ctx * list Broadcast :=
  match Store.getTabById wcDestroyed tabId (TabsAPI.store ctx) with
  | None => (ctx, [])
  | Some tab =>
      let '(tabDetails, ctx') :=
        TabsAPI.getTabDetails wcDestroyed bwDestroyed fromWebContents reading
          getSize impl tab ctx in
      (ctx', [OnCreated tabDetails])
  end.

Definition onRemoved (tabId : Z) (ctx : TabsAPI.Ctx) : TabsAPI.Ctx * list Broadcast :=
  let details := Store.tabDetailsCache (TabsAPI.store ctx) !! tabId in
  let ctx' :=
    with_store (Store.set_tabDetailsCache
                  (delete tabId (Store.tabDetailsCache (TabsAPI.store ctx)))
                  (TabsAPI.store ctx)) ctx in
  let windowId :=
    match details with
    | Some details => Chrome.windowId details
    | None => (-1)%Z
    end in
  let win :=
    if bool_decide (-1 < windowId)%Z
    then JS.find (fun win => bool_decide (bw_id win = windowId)) getAllWindows
    else None in
  (ctx', [OnRemoved tabId windowId
            (match win with
             | Some win => bwDestroyed win
             | None => false
             end)]).

(** [onActivated]: how the call ends, the context afterwards, what the
    store did, and the broadcast. *)
Definition onActivated (tabId : Z) (ctx : TabsAPI.Ctx)
    : Store.Outcome unit * TabsAPI.Ctx * list (Store.Effect CreateData)
      * list Broadcast :=
  match Store.getTabById wcDestroyed tabId (TabsAPI.store ctx) with
  | None => (Store.Returned tt, ctx, [], [])
  | Some tab =>
      let activeTab :=
        Store.getActiveTabFromWebContents wcDestroyed bwDestroyed fromWebContents
          tab (TabsAPI.store ctx) in
      let activeChanged := negb (bool_decide (wc_id <$> activeTab = Some tabId)) in
      if negb activeChanged then (Store.Returned tt, ctx, [], [])
      else
        let win := Store.tabToWindow (TabsAPI.store ctx) !! tab in
        match Store.setActiveTab wcDestroyed bwDestroyed fromWebContents impl tab
                (TabsAPI.store ctx) with
        | (Store.Returned _, st, effs) =>
            let cache :=
              map_imap (fun cacheTabId tabInfo =>
                          Some (set_active (bool_decide (tabId = cacheTabId)) tabInfo))
                       (Store.tabDetailsCache st) in
            (Store.Returned tt, with_store (Store.set_tabDetailsCache cache st) ctx,
             effs, [OnActivated tabId (bw_id <$> win)])
        | (Store.Thrown e, st, effs) => (Store.Thrown e, with_store st ctx, effs, [])
        | (Store.OutsideTypes filed owner_of ending, st, effs) =>
            (Store.OutsideTypes filed owner_of ending, with_store st ctx, effs, [])
        end
  end.

(** What [observeTab] does at once, the listeners it attaches apart:
    [onCreated (tabId)], then [onActivated (tabId)]. *)
Definition observeTab (tab : WebContents) (ctx : TabsAPI.Ctx)
    : Store.Outcome unit * TabsAPI.Ctx * list (Store.Effect CreateData)
      * list Broadcast :=
  let '(ctx1, created) := onCreated (wc_id tab) ctx in
  let '(outcome, ctx2, effs, activated) := onActivated (wc_id tab) ctx1 in
  (outcome, ctx2, effs, created ++ activated).

(** One round of the loop of [remove]. *)
Definition removeOne (tabId : Z) (ctx : TabsAPI.Ctx)
    : TabsAPI.Ctx * list (Store.Effect CreateData) * list Broadcast :=
  let '(st, effs) :=
    match Store.getTabById wcDestroyed tabId (TabsAPI.store ctx) with
    | Some tab =>
        let '(_, st, effs) := Store.removeTab impl tab (TabsAPI.store ctx) in
        (st, effs)
    | None => (TabsAPI.store ctx, [])
    end in
  let '(ctx', removed) := onRemoved tabId (with_store st ctx) in
  (ctx', effs, removed).

(** The handler of ['tabs.remove']; [ids] is the array given, or the one
    number given as an array. *)
Definition remove (ids : list Z) (ctx : TabsAPI.Ctx)
    : TabsAPI.Ctx * list (Store.Effect CreateData) * list Broadcast :=
  foldl (fun '(ctx, effs, removed) tabId =>
           let '(ctx', effs', removed') := removeOne tabId ctx in
           (ctx', effs ++ effs', removed ++ removed'))
        (ctx, [], []) ids.

(** The ['destroyed'] callback [observeTab] arms on the tab. *)
Definition onTabDestroyed (tab : WebContents) (ctx : TabsAPI.Ctx)
    : TabsAPI.Ctx * list (Store.Effect CreateData) * list Broadcast :=
  let '(_, st, effs) := Store.removeTab impl tab (TabsAPI.store ctx) in
  let '(ctx', removed) := onRemoved (wc_id tab) (with_store st ctx) in
  (ctx', effs, removed).
End events.
End TabsEvents.

(** ** [index.ts]: the store with its subscribers

    [ElectronChromeExtensions] builds the store together with the APIs, and
    [TabsAPI] subscribes [observeTab] to the store's ['tab-added'].  The
    program's [addTab (tab, window)] is [store.addTab (tab, window)], whose
    last statement, [emit ('tab-added', tab)], therefore runs [observeTab]
    before [addTab] returns.  The other subscribers to the store's events
    ([WebNavigationAPI.observeTab], [WindowsAPI.observeWindow] and the
    browser action's) attach listeners, broadcast and schedule updates;
    they change nothing of the store's tabs, windows and active-tab record
    and are left out. *)
Module Program.
Import Electron.

Section program.
Context {CreateData : Type}.
Variable wcDestroyed : WebContents -> bool.
Variable bwDestroyed : BrowserWindow -> bool.
Variable fromWebContents : WebContents -> option BrowserWindow.
Variable reading : WebContents -> TabsAPI.TabReading.
Variable getSize : BrowserWindow -> Z * Z.
Variable impl : Store.ChromeExtensionImpl CreateData.

(** [addTab]: how the call ends, the context afterwards, what the store
    did, in order, and what the tabs API broadcast.  A tracked tab makes
    the store return at once, without emitting. *)
Definition addTab (tab : WebContents) (window : BrowserWindow) (ctx : TabsAPI.Ctx)
    : Store.Outcome unit * TabsAPI.Ctx * list (Store.Effect CreateData)
      * list TabsEvents.Broadcast :=
  if JS.set_has tab (Store.tabs (TabsAPI.store ctx))
  then (Store.Returned tt, ctx, [], [])
  else
    match Store.addTab wcDestroyed bwDestroyed fromWebContents impl tab window
            (TabsAPI.store ctx) with
    | (Store.Returned _, st, effs) =>
        let '(outcome, ctx', effs', broadcast) :=
          TabsEvents.observeTab wcDestroyed bwDestroyed fromWebContents reading
            getSize impl tab (TabsEvents.with_store st ctx) in
        (outcome, ctx', effs ++ effs', broadcast)
    | (outcome, st, effs) => (outcome, TabsEvents.with_store st ctx, effs, [])
    end.
End program.
End Program.

(** ** [api/browser-action.ts]: the action state behind the getters and
    setters *)
Module ActionState.
Import Electron.

(** [ExtensionActionKey]. *)
Inductive ExtensionActionKey :=
| K_color | K_text | K_title | K_icon | K_popup | K_iconModified.

#[export] Instance ExtensionActionKey_eq_dec : EqDecision ExtensionActionKey.
Proof. solve_decision. Defined.

#[export] Instance ExtensionActionKey_countable : Countable ExtensionActionKey.
Proof.
  apply (inj_countable'
           (fun k => match k with
                     | K_color => 0 | K_text => 1 | K_title => 2
                     | K_icon => 3 | K_popup => 4 | K_iconModified => 5
                     end)
           (fun n => match n with
                     | 0 => K_color | 1 => K_text | 2 => K_title
                     | 3 => K_icon | 4 => K_popup | _ => K_iconModified
                     end)).
  by intros [].
Defined.

Section action.
(** Property values are opaque but for their truthiness. *)
Context {Value : Type}.
Variable truthy : Value -> bool.

(** An [ExtensionAction] object: its own properties, a property being able
    to hold [undefined]. *)
Definition ExtensionAction := gmap ExtensionActionKey (option Value).

(** [action[propName]]. *)
Definition read (propName : ExtensionActionKey) (action : ExtensionAction)
    : option Value :=
  action !! propName ≫= id.

(** An [ExtensionActionStore]: the extension-wide properties and the
    per-tab objects under [tabs]. *)
Record ExtensionActionStore := mkActionStore {
  props : ExtensionAction;
  tabs : gmap Z ExtensionAction
}.

Definition ActionMap := gmap string ExtensionActionStore.
Definition State := BrowserActionAPI.State ActionMap.

(** [getBrowserActionDefaults] of each extension, by extension id. *)
Variable getBrowserActionDefaults : string -> option ExtensionAction.

(** [getAction]: the action object of the extension, made and filed if
    there was none. *)
Definition getAction (extensionId : string) (s : State)
    : ExtensionActionStore * State :=
  match BrowserActionAPI.actionMap s !! extensionId with
  | Some action => (action, s)
  | None =>
      let action := mkActionStore ∅ ∅ in
      (action, BrowserActionAPI.mutate (fun m => <[extensionId := action]> m) s)
  end.

(** The handler [getter (propName)] makes, for [details = { tabId }]. *)
Definition getter (propName : ExtensionActionKey) (extensionId : string)
    (tabId : option Z) (s : State) : option Value * State :=
  let '(action, s) := getAction extensionId s in
  let result :=
    match tabId with
    | Some t =>
        if Store.truthy_number tabId
        then match tabs action !! t with
             | Some tabAction => read propName tabAction
             | None => read propName (props action)
             end
        else read propName (props action)
    | None => read propName (props action)
    end in
  (result, s).

(** [setDetails] for [details = { tabId, [propName]: given }]. *)
Definition setDetails (extensionId : string) (tabId : option Z)
    (given : option Value) (propName : ExtensionActionKey) (s : State) : State :=
  let value :=
    match given with
    | Some v => if truthy v then Some v else None
    | None => None
    end in
  let value :=
    match value with
    | Some v => Some v
    | None =>
        match getBrowserActionDefaults extensionId with
        | Some defaults => read propName defaults
        | None => None
        end
    end in
  let '(action, s) := getAction extensionId s in
  let action :=
    match tabId with
    | Some t =>
        if Store.truthy_number tabId
        then mkActionStore (props action)
               (<[t := <[propName := value]> (default ∅ (tabs action !! t))]>
                  (tabs action))
        else mkActionStore (<[propName := value]> (props action)) (tabs action)
    | None => mkActionStore (<[propName := value]> (props action)) (tabs action)
    end in
  BrowserActionAPI.mutate (fun m => <[extensionId := action]> m) s.

(** The store's [tab-removed] as the API handles it. *)
Definition onTabRemoved (tabId : Z) (s : State) : State :=
  BrowserActionAPI.mutate
    (fun m => (fun actionDetails =>
                 mkActionStore (props actionDetails) (delete tabId (tabs actionDetails)))
              <$> m) s.

Definition removeActions (extensionId : string) (s : State) : State :=
  BrowserActionAPI.mutate (fun m => delete extensionId m) s.
End action.

Arguments ExtensionAction : clear implicits.
Arguments ExtensionActionStore : clear implicits.
Arguments ActionMap : clear implicits.
Arguments State : clear implicits.
End ActionState.

(** ** Action state of the examples *)
Module ActionScenario.
Import ActionState.

(** A string is truthy when it is not empty. *)
Definition nonEmpty (v : string) : bool := negb (bool_decide (v = EmptyString)).
Definition noDefaults : string -> option (ExtensionAction string) := fun _ => None.

(** The API with no action recorded, and after the extension ["ext"] has
    set its badge text to ["all"]. *)
Definition fresh : State string := BrowserActionAPI.newState ∅.
Definition badgeAll : State string :=
  setDetails nonEmpty noDefaults "ext" None (Some "all") K_text fresh.
End ActionScenario.

(* ===================================================================== *)
(** * Part II: theorems                                                   *)
(* ===================================================================== *)

Import Electron.

(** ** Facts about the JavaScript containers *)
Section js_facts.
Context {A : Type}.
Implicit Types (f : A -> bool) (l : list A).

Lemma find_None f l : JS.find f l = None <-> forall x, x ∈ l -> f x = false.
Proof.
  induction l as [|y l IH]; simpl.
  - split; [intros _ x Hx; inversion Hx | done].
  - destruct (f y) eqn:Hy.
    + split; [done | intros H; specialize (H y (list_elem_of_here _ _)); congruence].
    + rewrite IH. split.
      * intros H x Hx. apply elem_of_cons in Hx as [-> | Hx]; auto.
      * intros H x Hx. apply H. by right.
Qed.

Lemma find_Some f l x : JS.find f l = Some x -> x ∈ l /\ f x = true.
Proof.
  induction l as [|y l IH]; simpl; [done |].
  destruct (f y) eqn:Hy.
  - intros [= <-]. split; [left | done].
  - intros H. destruct (IH H). split; [by right | done].
Qed.

Lemma findIndex_None f l : JS.findIndex f l = None <-> JS.find f l = None.
Proof.
  induction l as [|y l IH]; simpl; [done |].
  destruct (f y); [done |].
  destruct (JS.findIndex f l); simpl; split; try done.
  - intros H. apply IH in H. done.
  - intros _. by apply IH.
Qed.

Lemma elem_of_filter f l x : x ∈ JS.filter f l <-> x ∈ l /\ f x = true.
Proof.
  induction l as [|y l IH]; simpl.
  - split; [intros H; inversion H | intros [H _]; inversion H].
  - destruct (f y) eqn:Hy; rewrite ?elem_of_cons, IH.
    + split; [intros [-> | [? ?]]; auto | intros [[-> | ?] ?]; auto].
    + split; [intros [? ?]; auto | intros [[-> | ?] ?]; [congruence | auto]].
Qed.

Lemma filter_all f l : (forall x, x ∈ l -> f x = true) -> JS.filter f l = l.
Proof.
  induction l as [|y l IH]; simpl; [done |]. intros H.
  rewrite (H y) by left. f_equal. apply IH. intros x Hx. apply H. by right.
Qed.

Lemma filter_idemp f l : JS.filter f (JS.filter f l) = JS.filter f l.
Proof. apply filter_all. intros x Hx. by apply elem_of_filter in Hx as [_ ?]. Qed.

Lemma filter_app f l1 l2 : JS.filter f (l1 ++ l2) = JS.filter f l1 ++ JS.filter f l2.
Proof.
  induction l1 as [|y l1 IH]; simpl; [done |].
  destruct (f y); simpl; by rewrite IH.
Qed.

Lemma filter_NoDup f l : NoDup l -> NoDup (JS.filter f l).
Proof.
  induction 1 as [|y l Hy Hl IH]; simpl; [constructor |].
  destruct (f y); [|done]. constructor; [|done].
  rewrite elem_of_filter. by intros [? _].
Qed.

Lemma filter_empty_length f l : length (JS.filter f l) = 0 -> JS.filter f l = [].
Proof. by destruct (JS.filter f l). Qed.

Lemma elem_of_splice1 index l x : x ∈ JS.splice1 index l -> x ∈ l.
Proof.
  revert index. induction l as [|y l IH]; intros [|i]; simpl; try done.
  - by right.
  - rewrite !elem_of_cons. intros [-> | H]; [by left | right; eauto].
Qed.

Context `{EqDecision A}.

Lemma set_has_true (x : A) l : JS.set_has x l = true <-> x ∈ l.
Proof. unfold JS.set_has. by rewrite bool_decide_eq_true. Qed.

Lemma set_has_false (x : A) l : JS.set_has x l = false <-> x ∉ l.
Proof. unfold JS.set_has. by rewrite bool_decide_eq_false. Qed.

Lemma elem_of_set_delete (x y : A) l : y ∈ JS.set_delete x l <-> y ∈ l /\ y <> x.
Proof.
  unfold JS.set_delete. rewrite elem_of_filter, negb_true_iff, bool_decide_eq_false.
  done.
Qed.

Lemma elem_of_set_add (x y : A) l : y ∈ JS.set_add x l <-> y ∈ l \/ y = x.
Proof.
  unfold JS.set_add. destruct (JS.set_has x l) eqn:H.
  - apply set_has_true in H. split; [by left | by intros [? | ->]].
  - rewrite elem_of_app, list_elem_of_singleton. done.
Qed.

(** Splicing out the first entry equal to [x] from a list without
    repetitions removes [x] and keeps the rest in order. *)
Lemma splice_first (x : A) l index :
  JS.findIndex (fun y => bool_decide (y = x)) l = Some index ->
  JS.splice1 index l = JS.filter (fun y => negb (bool_decide (y = x))) l
  \/ ~ NoDup l.
Proof.
  revert index. induction l as [|y l IH]; simpl; [done |]. intros index.
  case_bool_decide as Hy; simpl.
  - intros [= <-]. subst y.
    destruct (decide (x ∈ l)) as [Hin | Hnin].
    + right. intros Hnd. apply NoDup_cons in Hnd as [? _]. done.
    + left. symmetry. apply filter_all. intros z Hz.
      apply negb_true_iff, bool_decide_eq_false. intros ->. done.
  - destruct (JS.findIndex _ l) as [i|] eqn:Hi; simpl; [|done].
    intros [= <-]. simpl. destruct (IH i eq_refl) as [-> | Hnd]; [by left |].
    right. intros Hnd'. apply NoDup_cons in Hnd' as [_ ?]. done.
Qed.
End js_facts.


(** ** The router: dispatch *)
Section dispatch_facts.
Import Electron Router.
Context {Extension Arg Value : Type}.
Variable getExtension : Session -> string -> option Extension.
Variable session_of : WebContents -> Session.

Local Abbreviation Router := (ExtensionRouter Extension Arg Value).
Local Abbreviation dispatch := (onExtensionMessage getExtension session_of).
Local Abbreviation resolved := (senderExtension getExtension session_of).

(** C1.  A dispatch fails with [UnknownVerb] when no handler is registered
    for the verb; otherwise with [CrossSessionNotAllowed] when the caller's
    session is not the router's and the handler does not allow remote calls;
    otherwise with [UnknownExtensionContext] when the handler requires an
    extension context and the extension id resolves to no extension of the
    caller's session; otherwise it is the awaited result of the handler's
    callback on [{sender, extension}] and the arguments.  The extension an id
    resolves to is what [getExtension] of the caller's session yields for
    it, and none for an id that is absent or empty.  Each case assumes that
    the earlier checks passed, so the checks apply in this order. *)
Theorem dispatch_checks_in_order (r : Router) (caller : WebContents)
    (extensionId : option string) (handlerName : string) (args : list Arg) :
  let result := onExtensionMessage getExtension session_of r caller extensionId
                  handlerName args in
  let extension :=
    match extensionId with
    | Some id =>
        if bool_decide (id = EmptyString) then None
        else getExtension (session_of caller) id
    | None => None
    end in
  (handlers r !! handlerName = None -> result = inl (UnknownVerb handlerName))
  /\ (forall handler, handlers r !! handlerName = Some handler ->
      (session_of caller <> session r /\ allowRemote handler = false ->
       result = inl (CrossSessionNotAllowed handlerName))
      /\ ((session_of caller = session r \/ allowRemote handler = true) ->
          (extensionContext handler = true /\ extension = None ->
           result = inl (UnknownExtensionContext handlerName))
          /\ ((extensionContext handler = false \/ is_Some extension) ->
              result = inr (callback handler (mkEvent caller extension) args)))).
Proof.
  intros result extension.
  assert (senderExtension getExtension session_of caller extensionId = extension)
    as Hresolved.
  { subst extension. unfold senderExtension, JS.truthy_string.
    destruct extensionId as [id|]; [|done]. by case_bool_decide. }
  subst result. unfold onExtensionMessage, getHandler. rewrite Hresolved.
  clearbody extension. split.
  - by intros ->.
  - intros handler ->. split.
    + intros [Hses Hremote]. rewrite Hremote.
      rewrite bool_decide_eq_false_2 by done. done.
    + intros Hpass.
      assert (negb (bool_decide (session_of caller = session r))
              && negb (allowRemote handler) = false) as ->.
      { destruct Hpass as [-> | ->].
        - by rewrite bool_decide_eq_true_2.
        - apply andb_false_r. }
      split.
      * intros [-> ->]. rewrite bool_decide_eq_false_2; [done |].
        by intros [? ?].
      * intros [-> | Hsome].
        -- by rewrite andb_false_r.
        -- by rewrite bool_decide_eq_true_2.
Qed.

(** A handler registered without options requires an extension context and
    refuses remote sessions. *)
Lemma handle_default_policy (r : Router) name cb :
  exists handler,
    handlers (handle name cb None r) !! name = Some handler
    /\ extensionContext handler = true /\ allowRemote handler = false.
Proof. eexists. split; [apply lookup_insert_eq | done]. Qed.

(** An extension id that is absent or empty resolves to no extension; any
    other resolves to what the caller's session knows under it. *)
Lemma senderExtension_absent (caller : WebContents) :
  resolved caller None = None /\ resolved caller (Some EmptyString) = None.
Proof. done. Qed.

Lemma senderExtension_present (caller : WebContents) (id : string) :
  id <> EmptyString ->
  resolved caller (Some id) = getExtension (session_of caller) id.
Proof.
  intros Hne. unfold senderExtension, JS.truthy_string.
  by rewrite bool_decide_eq_false_2.
Qed.
End dispatch_facts.

(** A session with one extension ["ext"], and two handlers: ["tabs.query"]
    with the default policy and ["browserAction.getState"] open to remote
    sessions without an extension context.  The callback answers with the
    number of its arguments, and with 100 more when its event carries an
    extension. *)
Lemma dispatch_checks_in_order_witness :
  let getExtension := fun (s : Electron.Session) (id : string) =>
    if bool_decide (s = Electron.Ses 1 /\ id = "ext") then Some tt else None in
  let session_of := fun wc : Electron.WebContents =>
    if bool_decide (Electron.wc_id wc = 7%Z) then Electron.Ses 1 else Electron.Ses 2 in
  let cb : Router.HandlerCallback unit nat nat :=
    fun ev args =>
      Router.Fulfilled (match Router.extension ev with
                        | Some _ => 100 + length args
                        | None => length args
                        end) in
  let r :=
    Router.handle "browserAction.getState" cb
      (Some (Router.mkOptions (Some true) (Some false)))
      (Router.handle "tabs.query" cb None (Router.newRouter (Electron.Ses 1))) in
  Router.onExtensionMessage getExtension session_of r (Electron.WC 7) (Some "ext")
    "tabs.remove" [] = inl (Router.UnknownVerb "tabs.remove")
  /\ Router.onExtensionMessage getExtension session_of r (Electron.WC 8) None
       "tabs.query" [] = inl (Router.CrossSessionNotAllowed "tabs.query")
  /\ Router.onExtensionMessage getExtension session_of r (Electron.WC 7) None
       "tabs.query" [] = inl (Router.UnknownExtensionContext "tabs.query")
  /\ Router.onExtensionMessage getExtension session_of r (Electron.WC 7) (Some "")
       "tabs.query" [] = inl (Router.UnknownExtensionContext "tabs.query")
  /\ Router.onExtensionMessage getExtension session_of r (Electron.WC 7) (Some "other")
       "tabs.query" [] = inl (Router.UnknownExtensionContext "tabs.query")
  /\ Router.onExtensionMessage getExtension session_of r (Electron.WC 7) (Some "ext")
       "tabs.query" [5] = inr (Router.Fulfilled 101)
  /\ Router.onExtensionMessage getExtension session_of r (Electron.WC 7) (Some "ext")
       "browserAction.getState" [1; 2] = inr (Router.Fulfilled 102)
  /\ Router.onExtensionMessage getExtension session_of r (Electron.WC 8) None
       "browserAction.getState" [1; 2] = inr (Router.Fulfilled 2).
Proof.
  intros getExtension session_of cb r.
  pose proof (dispatch_checks_in_order getExtension session_of r) as H.
  repeat apply conj.
  - destruct (H (Electron.WC 7) (Some "ext") "tabs.remove" []) as [H1 _].
    apply H1. reflexivity.
  - destruct (H (Electron.WC 8) None "tabs.query" []) as [_ H2].
    destruct (H2 (Router.mkHandler cb true false) eq_refl) as [H3 _].
    apply H3. split; [discriminate | reflexivity].
  - destruct (H (Electron.WC 7) None "tabs.query" []) as [_ H2].
    destruct (H2 (Router.mkHandler cb true false) eq_refl) as [_ H3].
    destruct (H3 (or_introl eq_refl)) as [H4 _].
    apply H4. split; reflexivity.
  - destruct (H (Electron.WC 7) (Some "") "tabs.query" []) as [_ H2].
    destruct (H2 (Router.mkHandler cb true false) eq_refl) as [_ H3].
    destruct (H3 (or_introl eq_refl)) as [H4 _].
    apply H4. split; reflexivity.
  - destruct (H (Electron.WC 7) (Some "other") "tabs.query" []) as [_ H2].
    destruct (H2 (Router.mkHandler cb true false) eq_refl) as [_ H3].
    destruct (H3 (or_introl eq_refl)) as [H4 _].
    apply H4. split; reflexivity.
  - destruct (H (Electron.WC 7) (Some "ext") "tabs.query" [5]) as [_ H2].
    destruct (H2 (Router.mkHandler cb true false) eq_refl) as [_ H3].
    destruct (H3 (or_introl eq_refl)) as [_ H4].
    apply (H4 (or_intror (ex_intro _ tt eq_refl))).
  - destruct (H (Electron.WC 7) (Some "ext") "browserAction.getState" [1; 2])
      as [_ H2].
    destruct (H2 (Router.mkHandler cb false true) eq_refl) as [_ H3].
    destruct (H3 (or_introl eq_refl)) as [_ H4].
    apply (H4 (or_introl eq_refl)).
  - destruct (H (Electron.WC 8) None "browserAction.getState" [1; 2]) as [_ H2].
    destruct (H2 (Router.mkHandler cb false true) eq_refl) as [_ H3].
    destruct (H3 (or_intror eq_refl)) as [_ H4].
    apply (H4 (or_introl eq_refl)).
Defined.


(** ** The router: the listener registry *)
Section registry_facts.
Import Router.
Context {Extension Arg Value : Type}.
Variable getExtension : Session -> string -> option Extension.

Local Abbreviation Router := (ExtensionRouter Extension Arg Value).
Implicit Types (r : Router) (l : EventListener) (ev : string).

Lemma eventListenerEquals_true l x : eventListenerEquals l x = true <-> x = l.
Proof.
  unfold eventListenerEquals. rewrite andb_true_iff, !bool_decide_eq_true.
  destruct l, x; simpl. split; [intros [-> ->]; done | intros [= -> ->]; done].
Qed.

Lemma find_listener_None l (ls : list EventListener) :
  JS.find (eventListenerEquals l) ls = None <-> l ∉ ls.
Proof.
  rewrite find_None. split.
  - intros H Hin. specialize (H l Hin).
    by rewrite (proj2 (eventListenerEquals_true l l)) in H.
  - intros Hnin x Hx. destruct (eventListenerEquals l x) eqn:E; [|done].
    apply eventListenerEquals_true in E as ->. done.
Qed.

Lemma findIndex_listener_ext l (ls : list EventListener) :
  JS.findIndex (eventListenerEquals l) ls
  = JS.findIndex (fun y => bool_decide (y = l)) ls.
Proof.
  induction ls as [|x ls IH]; simpl; [done |]. rewrite IH.
  destruct (eventListenerEquals l x) eqn:E.
  - apply eventListenerEquals_true in E as ->. by rewrite bool_decide_eq_true_2.
  - rewrite bool_decide_eq_false_2; [done |]. intros ->.
    by rewrite (proj2 (eventListenerEquals_true l l)) in E.
Qed.

Lemma set_listeners_same r : set_listeners r (listeners r) = r.
Proof. by destruct r. Qed.

(** What [addListener] does to the registry when it does not throw. *)
Lemma addListener_listenersFor l ext ev r r' :
  addListener getExtension l ext ev r = inr r' ->
  listenersFor ev r'
  = (if decide (l ∈ listenersFor ev r) then listenersFor ev r
     else listenersFor ev r ++ [l])
  /\ (forall ev', ev' <> ev -> listenersFor ev' r' = listenersFor ev' r)
  /\ session r' = session r
  /\ destroyedOnce r'
     = (if decide (l ∈ listenersFor ev r) then destroyedOnce r
        else destroyedOnce r ++ [host l]).
Proof.
  unfold addListener, listenersFor.
  destruct (getExtension (session r) ext); [|done].
  destruct (listeners r !! ev) as [ls|] eqn:Hev; simpl.
  - rewrite Hev. simpl.
    destruct (JS.find (eventListenerEquals l) ls) eqn:Hf.
    + intros [= <-]. simpl. rewrite Hev. simpl.
      apply find_Some in Hf as [Hin E]. apply eventListenerEquals_true in E as ->.
      destruct (decide (l ∈ ls)); done.
    + intros [= <-]. simpl. apply find_listener_None in Hf.
      destruct (decide (l ∈ ls)); [done |]. rewrite lookup_insert_eq. simpl.
      split; [done |]. split; [|done].
      intros ev' Hne. by rewrite lookup_insert_ne.
  - rewrite lookup_insert_eq. simpl. intros [= <-]. simpl.
    destruct (decide (l ∈ [])) as [H | _]; [inversion H |].
    rewrite lookup_insert_eq. simpl. split; [done |]. split; [|done].
    intros ev' Hne. by rewrite !lookup_insert_ne.
Qed.

Lemma addListener_throws l ext ev r :
  getExtension (session r) ext = None ->
  addListener getExtension l ext ev r = inl (UnknownExtension ext).
Proof. unfold addListener. by intros ->. Qed.

Lemma addListener_returns l ext ev r :
  is_Some (getExtension (session r) ext) ->
  exists r', addListener getExtension l ext ev r = inr r'.
Proof.
  unfold addListener. intros [e ->].
  destruct (JS.find _ _); eauto.
Qed.

(** An entry that is already there: the router is left exactly as it was. *)
Lemma addListener_present l ext ev r :
  is_Some (getExtension (session r) ext) ->
  l ∈ listenersFor ev r ->
  addListener getExtension l ext ev r = inr r.
Proof.
  unfold addListener, listenersFor. intros [e ->] Hin.
  destruct (listeners r !! ev) as [ls|] eqn:Hev; simpl in *; [|inversion Hin].
  rewrite Hev. simpl.
  destruct (JS.find (eventListenerEquals l) ls) eqn:Hf.
  - by rewrite set_listeners_same.
  - apply find_listener_None in Hf. done.
Qed.

(** What [removeListener] does to the registry. *)
Lemma removeListener_listenersFor l ext ev r :
  listenersFor ev (removeListener l ext ev r)
  = match JS.findIndex (fun y => bool_decide (y = l)) (listenersFor ev r) with
    | Some index => JS.splice1 index (listenersFor ev r)
    | None => listenersFor ev r
    end
  /\ (forall ev', ev' <> ev ->
      listenersFor ev' (removeListener l ext ev r) = listenersFor ev' r)
  /\ session (removeListener l ext ev r) = session r
  /\ destroyedOnce (removeListener l ext ev r) = destroyedOnce r.
Proof.
  unfold removeListener, listenersFor.
  destruct (listeners r !! ev) as [ls|] eqn:Hev; simpl.
  - rewrite findIndex_listener_ext.
    set (ls' := match JS.findIndex _ ls with Some i => JS.splice1 i ls | None => ls end).
    case_bool_decide as Hlen; simpl.
    + rewrite lookup_delete_eq. simpl. split; [by destruct ls' |].
      split; [|done]. intros ev' Hne. by rewrite lookup_delete_ne.
    + rewrite lookup_insert_eq. simpl. split; [done |].
      split; [|done]. intros ev' Hne. by rewrite lookup_insert_ne.
  - rewrite Hev. done.
Qed.

Lemma removeListener_NoDup l ext ev r :
  NoDup (listenersFor ev r) ->
  listenersFor ev (removeListener l ext ev r)
  = JS.filter (fun y => negb (bool_decide (y = l))) (listenersFor ev r).
Proof.
  intros Hnd. destruct (removeListener_listenersFor l ext ev r) as [-> _].
  destruct (JS.findIndex _ _) as [index|] eqn:Hi.
  - destruct (splice_first _ _ _ Hi) as [-> | Hn]; done.
  - symmetry. apply filter_all. intros x Hx.
    apply findIndex_None in Hi. rewrite find_None in Hi.
    specialize (Hi x Hx). by rewrite Hi.
Qed.

(** What [filterListeners] does to the registry. *)
Lemma filterListeners_listenersFor (p : EventListener -> bool) ev r :
  listenersFor ev (filterListeners p r) = JS.filter p (listenersFor ev r).
Proof.
  unfold filterListeners, listenersFor. simpl. rewrite lookup_omap.
  destruct (listeners r !! ev) as [ls|]; simpl; [|done].
  case_bool_decide as Hlen; simpl; [done |].
  destruct (JS.filter p ls); simpl in *; [done | lia].
Qed.

Lemma emitDestroyed_fold (h : WebContents) (hs : list WebContents) r :
  let r' :=
    foldl (fun acc h' => if bool_decide (h' = h) then onHostDestroyed h acc else acc)
          r hs in
  destroyedOnce r' = destroyedOnce r
  /\ forall ev,
       listenersFor ev r'
       = (if decide (h ∈ hs)
          then JS.filter (fun l => negb (bool_decide (host l = h))) (listenersFor ev r)
          else listenersFor ev r).
Proof.
  revert r. induction hs as [|h' hs IH]; intros r; simpl.
  - split; [done |]. intros ev. destruct (decide (h ∈ [])) as [H | _]; [inversion H | done].
  - destruct (IH (if bool_decide (h' = h) then onHostDestroyed h r else r)) as [Hd Hl].
    split.
    + rewrite Hd. by case_bool_decide.
    + intros ev. rewrite Hl. case_bool_decide as Heq.
      * subst h'. unfold onHostDestroyed. rewrite filterListeners_listenersFor.
        destruct (decide (h ∈ h :: hs)) as [_ | Hn]; [|exfalso; apply Hn; left].
        destruct (decide (h ∈ hs)); [apply filter_idemp | done].
      * destruct (decide (h ∈ hs)) as [Hin | Hnin];
          destruct (decide (h ∈ h' :: hs)) as [Hin' | Hnin']; try done.
        -- exfalso. apply Hnin'. by right.
        -- apply elem_of_cons in Hin' as [-> | ?]; done.
Qed.

Lemma emitDestroyed_listenersFor (h : WebContents) ev r :
  listenersFor ev (emitDestroyed h r)
  = (if decide (h ∈ destroyedOnce r)
     then JS.filter (fun l => negb (bool_decide (host l = h))) (listenersFor ev r)
     else listenersFor ev r).
Proof.
  unfold emitDestroyed.
  destruct (emitDestroyed_fold h (destroyedOnce r) r) as [_ Hl].
  rewrite <- Hl. done.
Qed.

Lemma emitDestroyed_destroyedOnce (h : WebContents) r :
  destroyedOnce (emitDestroyed h r)
  = JS.filter (fun h' => negb (bool_decide (h' = h))) (destroyedOnce r).
Proof.
  unfold emitDestroyed. simpl.
  destruct (emitDestroyed_fold h (destroyedOnce r) r) as [-> _]. done.
Qed.


Lemma listenerCall_session c (caller : WebContents) ext ev r :
  session (listenerCall getExtension c caller ext ev r) = session r.
Proof.
  destruct c; simpl.
  - destruct (addListener _ _ _ _ _) as [e | r'] eqn:Ha; [done |].
    by apply addListener_listenersFor in Ha as (_ & _ & ? & _).
  - apply removeListener_listenersFor.
Qed.

Lemma listenerCalls_session calls (caller : WebContents) ext ev r :
  session (listenerCalls getExtension calls caller ext ev r) = session r.
Proof.
  unfold listenerCalls. revert r.
  induction calls as [|c calls IH]; intros r; simpl; [done |].
  rewrite IH. apply listenerCall_session.
Qed.

Lemma listenerCall_no_duplicates c (caller : WebContents) ext ev r :
  no_duplicates r -> no_duplicates (listenerCall getExtension c caller ext ev r).
Proof.
  intros Hnd ev'. destruct c; simpl.
  - destruct (addListener _ _ _ _ _) as [e | r'] eqn:Ha; [apply Hnd |].
    apply addListener_listenersFor in Ha as (Hev & Hother & _).
    destruct (decide (ev' = ev)) as [-> | Hne]; [|rewrite Hother by done; apply Hnd].
    rewrite Hev. destruct (decide (_ ∈ _)) as [Hin | Hnin]; [apply Hnd |].
    apply NoDup_app. split; [apply Hnd |]. split; [|apply NoDup_singleton].
    intros x Hx Hx'. apply list_elem_of_singleton in Hx' as ->. done.
  - destruct (decide (ev' = ev)) as [-> | Hne].
    + rewrite removeListener_NoDup by apply Hnd. apply filter_NoDup, Hnd.
    + destruct (removeListener_listenersFor (mkListener caller ext) ext ev r)
        as (_ & Hother & _). rewrite Hother by done. apply Hnd.
Qed.

Lemma listenerCall_armed c (caller : WebContents) ext ev r :
  armed r -> armed (listenerCall getExtension c caller ext ev r).
Proof.
  intros Harm ev' l. destruct c; simpl.
  - destruct (addListener _ _ _ _ _) as [e | r'] eqn:Ha; [apply Harm |].
    apply addListener_listenersFor in Ha as (Hev & Hother & _ & Hd).
    rewrite Hd. destruct (decide (ev' = ev)) as [-> | Hne].
    + rewrite Hev. destruct (decide (_ ∈ _)) as [Hin | Hnin]; [apply Harm |].
      rewrite !elem_of_app, !list_elem_of_singleton.
      intros [Hl | ->]; [left; by eapply Harm | by right].
    + rewrite Hother by done. intros Hl.
      destruct (decide (_ ∈ _)); [|apply elem_of_app; left]; by eapply Harm.
  - destruct (removeListener_listenersFor (mkListener caller ext) ext ev r)
      as (Hev & Hother & _ & ->).
    destruct (decide (ev' = ev)) as [-> | Hne]; [|rewrite Hother by done; apply Harm].
    rewrite Hev. destruct (JS.findIndex _ _); [|apply Harm].
    intros Hl. apply elem_of_splice1 in Hl. by eapply Harm.
Qed.

(** After a call the entry of the caller is registered exactly when the call
    was an [addListener]. *)
Lemma listenerCall_registered c (caller : WebContents) ext ev r :
  is_Some (getExtension (session r) ext) ->
  no_duplicates r ->
  mkListener caller ext ∈ listenersFor ev (listenerCall getExtension c caller ext ev r)
  <-> c = AddListener.
Proof.
  intros Hext Hnd. destruct c; simpl.
  - destruct (addListener_returns (mkListener caller ext) ext ev r Hext)
      as [r' Ha].
    rewrite Ha. apply addListener_listenersFor in Ha as (-> & _).
    split; [done | intros _].
    destruct (decide (_ ∈ _)) as [Hin | Hnin]; [done |].
    apply elem_of_app. right. apply list_elem_of_singleton. done.
  - rewrite removeListener_NoDup by apply Hnd.
    rewrite elem_of_filter, negb_true_iff, bool_decide_eq_false.
    split; [intros [_ ?]; done | done].
Qed.

(** C2, as the code has it.  Take a router whose registry holds no entry
    twice and calls [addListener]/[removeListener] of one host for one
    extension, loaded in the session, and one event name.  Then the registry
    never holds an entry twice; an [addListener] for an entry that is present
    leaves the router unchanged; and after the calls the entry is registered
    exactly when the last call was an [addListener] (when there was no call,
    when it was registered before). *)
Theorem listener_calls_last_call_decides (r : Router) (caller : WebContents)
    (ext ev : string) (calls : list ListenerCall) :
  is_Some (getExtension (session r) ext) ->
  no_duplicates r ->
  let entry := mkListener caller ext in
  let r' := listenerCalls getExtension calls caller ext ev r in
  no_duplicates r'
  /\ (entry ∈ listenersFor ev r' ->
      listenerCall getExtension AddListener caller ext ev r' = r')
  /\ (entry ∈ listenersFor ev r'
      <-> match last calls with
          | Some AddListener => True
          | Some RemoveListener => False
          | None => entry ∈ listenersFor ev r
          end).
Proof.
  intros Hext Hnd entry r'. subst r'.
  assert (no_duplicates (listenerCalls getExtension calls caller ext ev r)) as Hnd'.
  { clear Hext. revert r Hnd. induction calls as [|c calls IH]; intros r Hnd; [done |].
    simpl. apply IH. by apply listenerCall_no_duplicates. }
  split; [done |]. split.
  - intros Hin. simpl. rewrite addListener_present; [done | | done].
    by rewrite listenerCalls_session.
  - destruct calls as [|c calls _] using rev_ind; [done |].
    rewrite last_snoc. unfold listenerCalls in *. rewrite foldl_app in *. simpl.
    set (r1 := foldl _ r calls) in *.
    assert (no_duplicates r1) as Hnd1.
    { clear -Hnd. subst r1. revert r Hnd.
      induction calls as [|c' calls IH]; intros r Hnd; [done |].
      simpl. apply IH. by apply listenerCall_no_duplicates. }
    assert (is_Some (getExtension (session r1) ext)) as Hext1.
    { subst r1. pose proof (listenerCalls_session calls caller ext ev r) as Hs.
      unfold listenerCalls in Hs. by rewrite Hs. }
    subst entry. rewrite (listenerCall_registered c caller ext ev r1 Hext1 Hnd1).
    destruct c; split; done.
Qed.

End registry_facts.

Section reachable_facts.
Import Router.
Context {Extension Arg Value : Type}.
Local Abbreviation Router := (ExtensionRouter Extension Arg Value).
Implicit Types (r : Router) (l : EventListener) (ev : string).

(** Both properties hold of every router a session can have. *)
Lemma reachable_invariants r :
  reachable r -> armed r /\ no_duplicates r.
Proof.
  induction 1 as [ses | getExtension c caller ext ev r _ [Ha Hn]
                 | name cb opts r _ [Ha Hn] | h r _ [Ha Hn] | id r _ [Ha Hn]].
  - split; [intros ev l H; inversion H | intros ev; constructor].
  - split; [by apply listenerCall_armed | by apply listenerCall_no_duplicates].
  - split; [apply Ha | apply Hn].
  - split.
    + intros ev l. rewrite emitDestroyed_listenersFor, emitDestroyed_destroyedOnce.
      rewrite elem_of_filter, negb_true_iff, bool_decide_eq_false.
      destruct (decide (h ∈ destroyedOnce r)) as [Hin | Hnin].
      * rewrite elem_of_filter, negb_true_iff, bool_decide_eq_false.
        intros [Hl Hne]. split; [by eapply Ha | done].
      * intros Hl. split; [by eapply Ha |]. intros <-. apply Hnin. by eapply Ha.
    + intros ev. rewrite emitDestroyed_listenersFor.
      destruct (decide _); [apply filter_NoDup |]; apply Hn.
  - split.
    + intros ev l. unfold onExtensionUnloaded. rewrite filterListeners_listenersFor.
      rewrite elem_of_filter. intros [Hl _]. by eapply Ha.
    + intros ev. unfold onExtensionUnloaded. rewrite filterListeners_listenersFor.
      apply filter_NoDup, Hn.
Qed.

(** C6.  When the ['destroyed'] signal of a host fires on a router the
    session can have, each event name keeps exactly its entries of other
    hosts, in their order, so the registry holds no entry of that host
    afterwards and every entry of another host is still there. *)
Theorem host_destroyed_removes_its_listeners (r : Router) (h : WebContents) :
  reachable r ->
  let r' := emitDestroyed h r in
  (forall ev, listenersFor ev r'
              = JS.filter (fun l => negb (bool_decide (host l = h))) (listenersFor ev r))
  /\ (forall ev l, l ∈ listenersFor ev r' -> host l <> h)
  /\ (forall ev l, l ∈ listenersFor ev r -> host l <> h -> l ∈ listenersFor ev r').
Proof.
  intros Hr r'. apply reachable_invariants in Hr as [Harm _].
  assert (forall ev, listenersFor ev r'
            = JS.filter (fun l => negb (bool_decide (host l = h))) (listenersFor ev r))
    as Hfilter.
  { intros ev. subst r'. rewrite emitDestroyed_listenersFor.
    destruct (decide (h ∈ destroyedOnce r)) as [Hin | Hnin]; [done |].
    symmetry. apply filter_all. intros l Hl.
    apply negb_true_iff, bool_decide_eq_false. intros <-.
    apply Hnin. by eapply Harm. }
  split; [done |]. split.
  - intros ev l. rewrite Hfilter, elem_of_filter, negb_true_iff, bool_decide_eq_false.
    by intros [_ ?].
  - intros ev l Hl Hne.
    rewrite Hfilter, elem_of_filter, negb_true_iff, bool_decide_eq_false. done.
Qed.
End reachable_facts.

(** Two [addListener] calls and one [removeListener] call of host 1 for the
    loaded extension ["ext"] on a new router. *)
Lemma listener_calls_last_call_decides_witness :
  let calls := [Router.AddListener; Router.AddListener; Router.RemoveListener] in
  let r' :=
    Router.listenerCalls (Extension := unit) (Arg := unit) (Value := unit)
      (fun _ _ => Some tt) calls (WC 1) "ext" "tabs.onUpdated"
      (Router.newRouter (Ses 1)) in
  Router.no_duplicates r'
  /\ Router.mkListener (WC 1) "ext" ∉ Router.listenersFor "tabs.onUpdated" r'.
Proof.
  intros calls r'.
  destruct (listener_calls_last_call_decides (Arg := unit) (Value := unit)
              (fun _ _ => Some tt) (Router.newRouter (Ses 1)) (WC 1)
              "ext" "tabs.onUpdated" calls) as (Hnd & _ & Hlast).
  - simpl. eexists. reflexivity.
  - intros ev. vm_compute. constructor.
  - split; [exact Hnd |]. intros Hin. apply Hlast in Hin. exact Hin.
Defined.

(** C2, as stated, fails: after add, add, remove on a new router the adds
    outnumber the removes, yet the entry is not registered. *)
Lemma add_count_does_not_decide_membership :
  let calls := [Router.AddListener; Router.AddListener; Router.RemoveListener] in
  let r' :=
    Router.listenerCalls (Extension := unit) (Arg := unit) (Value := unit)
      (fun _ _ => Some tt) calls (WC 1) "ext" "tabs.onUpdated"
      (Router.newRouter (Ses 1)) in
  ~ (Router.mkListener (WC 1) "ext" ∈ Router.listenersFor "tabs.onUpdated" r'
     <-> Router.count_calls Router.RemoveListener calls
         < Router.count_calls Router.AddListener calls).
Proof.
  intros calls r' [_ H].
  assert (Router.mkListener (WC 1) "ext" ∈ Router.listenersFor "tabs.onUpdated" r')
    as Hin by (apply H; vm_compute; lia).
  vm_compute in Hin. inversion Hin.
Qed.

(** Hosts 1 and 2 listen to ["tabs.onUpdated"]; host 1 is destroyed. *)
Lemma host_destroyed_removes_its_listeners_witness :
  let r :=
    Router.listenerCall (Extension := unit) (Arg := unit) (Value := unit)
      (fun _ _ => Some tt) Router.AddListener (WC 2) "ext" "tabs.onUpdated"
      (Router.listenerCall (fun _ _ => Some tt) Router.AddListener (WC 1) "ext"
         "tabs.onUpdated" (Router.newRouter (Ses 1))) in
  Router.listenersFor "tabs.onUpdated" r
  = [Router.mkListener (WC 1) "ext"; Router.mkListener (WC 2) "ext"]
  /\ Router.listenersFor "tabs.onUpdated" (Router.emitDestroyed (WC 1) r)
     = [Router.mkListener (WC 2) "ext"].
Proof.
  intros r. split; [vm_compute; reflexivity |].
  destruct (host_destroyed_removes_its_listeners r (WC 1)) as (Hfilter & _ & _).
  - subst r. repeat constructor.
  - rewrite Hfilter. vm_compute. reflexivity.
Defined.


(** ** The store *)
Section store_facts.
Import Store.
Context {CreateData : Type}.
Variable wcDestroyed : WebContents -> bool.
Variable bwDestroyed : BrowserWindow -> bool.
Variable fromWebContents : WebContents -> option BrowserWindow.
Variable fromId : Z -> option WebContents.
Variable impl : ChromeExtensionImpl CreateData.

Local Abbreviation addWindow := (Store.addWindow (CreateData := CreateData)).
Local Abbreviation addTab :=
  (Store.addTab wcDestroyed bwDestroyed fromWebContents impl).
Local Abbreviation removeTab := (Store.removeTab impl).
Local Abbreviation setActiveTab :=
  (Store.setActiveTab wcDestroyed bwDestroyed fromWebContents impl).
Local Abbreviation activeTabOf :=
  (Store.getActiveTabFromWebContents wcDestroyed bwDestroyed fromWebContents).

Implicit Types (st : ExtensionStore) (tab : WebContents) (win : BrowserWindow).

Ltac run_store :=
  unfold mbind, M_bind, Store.bind, modify, perform, when, mret, M_ret, ret, throw;
  simpl.

Lemma removeTab_untracked tab st :
  tab ∉ tabs st -> removeTab tab st = (Returned tt, st, []).
Proof.
  intros H. unfold Store.removeTab. apply set_has_false in H. by rewrite H.
Qed.

Lemma removeTab_tracked tab st :
  tab ∈ tabs st ->
  removeTab tab st
  = (Returned tt,
     mkStore (JS.set_delete tab (tabs st))
       (match JS.find (fun t => bool_decide (delete tab (tabToWindow st) !! t
                                             = tabToWindow st !! tab))
                      (JS.set_delete tab (tabs st)),
              tabToWindow st !! tab with
        | None, Some win => JS.set_delete win (windows st)
        | _, _ => windows st
        end)
       (lastFocusedWindowId st) (delete tab (tabToWindow st))
       (windowToActiveTab st) (tabDetailsCache st),
     (if impl_removeTab impl then [CallRemoveTab tab (tabToWindow st !! tab)] else [])
     ++ [Emit (TabRemoved (wc_id tab))]).
Proof.
  intros H. unfold Store.removeTab. apply set_has_true in H. rewrite H. run_store.
  destruct (JS.find _ _), (tabToWindow st !! tab), (impl_removeTab impl); done.
Qed.

Lemma setActiveTab_no_parent tab st :
  tabToWindow st !! tab = None ->
  setActiveTab tab st = (Thrown NoParentWindow, st, []).
Proof. intros H. unfold Store.setActiveTab. by rewrite H. Qed.

Lemma setActiveTab_parent tab win st :
  tabToWindow st !! tab = Some win ->
  setActiveTab tab st
  = (Returned tt,
     set_windowToActiveTab (<[win := tab]> (windowToActiveTab st)) st,
     if bool_decide (Some (wc_id tab) = wc_id <$> activeTabOf tab st) then []
     else Emit (ActiveTabChanged tab win)
          :: (if impl_selectTab impl then [CallSelectTab tab win] else [])).
Proof.
  intros H. unfold Store.setActiveTab. rewrite H. run_store.
  case_bool_decide; simpl; [done |]. by destruct (impl_selectTab impl).
Qed.

Lemma addWindow_spec win st :
  exists effs,
    addWindow win st
    = (Returned tt,
       (if JS.set_has win (windows st) then st
        else mkStore (tabs st) (JS.set_add win (windows st))
               (match lastFocusedWindowId st with
                | Some i => Some i
                | None => Some (bw_id win)
                end)
               (tabToWindow st) (windowToActiveTab st) (tabDetailsCache st)),
       effs).
Proof.
  unfold Store.addWindow. destruct (JS.set_has win (windows st)); run_store.
  - by eexists.
  - eexists. destruct st as [? ? [i|] ? ? ?]; reflexivity.
Qed.

(** [addTab] of an untracked tab returns, with the tab tracked under
    [win] and [win] tracked. *)
Lemma addTab_untracked tab win st :
  tab ∉ tabs st ->
  exists st' effs,
    addTab tab win st = (Returned tt, st', effs)
    /\ tabs st' = tabs st ++ [tab]
    /\ tabToWindow st' = <[tab := win]> (tabToWindow st)
    /\ (forall w, w ∈ windows st' <-> w ∈ windows st \/ w = win).
Proof.
  intros H. unfold Store.addTab. apply set_has_false in H. rewrite H.
  run_store. unfold JS.set_add at 1. rewrite H.
  set (st1 := set_tabToWindow _ _).
  destruct (addWindow_spec win st1) as [effs1 Hw]. rewrite Hw.
  set (st2 := if JS.set_has win (windows st1) then st1 else _).
  assert (tabs st2 = tabs st ++ [tab]
          /\ tabToWindow st2 = <[tab := win]> (tabToWindow st)
          /\ (forall w, w ∈ windows st2 <-> w ∈ windows st \/ w = win)) as (Ht & Hm & Hws).
  { subst st2. destruct (JS.set_has win (windows st1)) eqn:Hhas; simpl.
    - split; [done |]. split; [done |]. intros w.
      apply set_has_true in Hhas. simpl in Hhas.
      split; [by left | by intros [? | ->]].
    - split; [done |]. split; [done |]. intros w. apply elem_of_set_add. }
  destruct (bool_decide (is_Some (activeTabOf tab st2))); simpl.
  - eexists _, _. split; [reflexivity |]. done.
  - rewrite (setActiveTab_parent tab win st2) by (rewrite Hm; apply lookup_insert_eq).
    eexists _, _. split; [reflexivity |]. done.
Qed.

(** Whether the window loses its place among the tracked windows when [tab]
    goes: exactly when no tab tracked afterwards has it as owning window. *)
Lemma removeTab_windows tab win st :
  tab ∈ tabs st ->
  tabToWindow st !! tab = Some win ->
  forall st' effs, removeTab tab st = (Returned tt, st', effs) ->
  ((forall t, t ∈ tabs st' -> tabToWindow st' !! t <> Some win) ->
   windows st' = JS.set_delete win (windows st))
  /\ ((exists t, t ∈ tabs st' /\ tabToWindow st' !! t = Some win) ->
      windows st' = windows st).
Proof.
  intros Hin Hwin st' effs. rewrite (removeTab_tracked tab st Hin), Hwin.
  intros [= <- _]. simpl.
  destruct (JS.find _ _) as [t|] eqn:Hf.
  - apply find_Some in Hf as [Ht Heq]. apply bool_decide_eq_true in Heq.
    split; [|done]. intros Hnone. by destruct (Hnone t Ht).
  - rewrite find_None in Hf. split; [done |].
    intros (t & Ht & Heq). specialize (Hf t Ht).
    apply bool_decide_eq_false in Hf. done.
Qed.

(** C7.  [removeTab] always returns.  For an untracked tab it changes
    nothing and emits nothing, and after any call the tab is untracked, so a
    second call is such a no-op.  For a tracked tab it takes the tab out of
    the tracked set and out of the tab-to-window relation and leaves the
    other tabs as they were; if no tab tracked afterwards has the same owning
    window, that window is taken out of the tracked windows (the others
    stay), else the tracked windows stay as they were; the only effects are
    the [removeTab] hook, when configured, and then [tab-removed] with the
    tab's id, so no window is destroyed.  And [addTab] of an untracked tab
    into a window owning no tracked tab, followed by [removeTab], leaves the
    window untracked. *)
Theorem removeTab_contract tab st :
  (exists st' effs,
     removeTab tab st = (Returned tt, st', effs)
     /\ (tab ∉ tabs st -> st' = st /\ effs = [])
     /\ (tab ∉ tabs st')
     /\ removeTab tab st' = (Returned tt, st', [])
     /\ (tab ∈ tabs st ->
         tabToWindow st' !! tab = None
         /\ (forall t, t <> tab ->
             (t ∈ tabs st' <-> t ∈ tabs st)
             /\ tabToWindow st' !! t = tabToWindow st !! t)
         /\ (forall win, tabToWindow st !! tab = Some win ->
             ((forall t, t ∈ tabs st' -> tabToWindow st' !! t <> Some win) ->
              (win ∉ windows st')
              /\ forall w, w <> win -> (w ∈ windows st' <-> w ∈ windows st))
             /\ ((exists t, t ∈ tabs st' /\ tabToWindow st' !! t = Some win) ->
                 windows st' = windows st))
         /\ effs = (if impl_removeTab impl
                    then [CallRemoveTab tab (tabToWindow st !! tab)] else [])
                   ++ [Emit (TabRemoved (wc_id tab))]))
  /\ (forall win,
        tab ∉ tabs st ->
        (forall t, t ∈ tabs st -> tabToWindow st !! t <> Some win) ->
        exists st1 effs1 st2 effs2,
          addTab tab win st = (Returned tt, st1, effs1)
          /\ win ∈ windows st1
          /\ removeTab tab st1 = (Returned tt, st2, effs2)
          /\ win ∉ windows st2).
Proof.
  split.
  - destruct (decide (tab ∈ tabs st)) as [Hin | Hnin].
    + pose proof (removeTab_tracked tab st Hin) as Hrun.
      eexists _, _. split; [exact Hrun |].
      split; [done |].
      assert (tab ∉ JS.set_delete tab (tabs st)) as Hgone.
      { rewrite elem_of_set_delete. by intros [_ ?]. }
      split; [exact Hgone |].
      split; [by apply removeTab_untracked |].
      intros _. split; [apply lookup_delete_eq |].
      split.
      { intros t Hne. simpl. rewrite elem_of_set_delete, lookup_delete_ne by done.
        split; [|done]. split; [by intros [? _] | done]. }
      split; [|done].
      intros win Hwin.
      destruct (removeTab_windows tab win st Hin Hwin _ _ Hrun) as [Hdrop Hkeep].
      split; [|exact Hkeep].
      intros Hnone. rewrite (Hdrop Hnone).
      split; [rewrite elem_of_set_delete; by intros [_ ?] |].
      intros w Hne. rewrite elem_of_set_delete. split; [by intros [? _] | done].
    + eexists _, _. split; [by apply removeTab_untracked |].
      split; [done |]. split; [done |].
      split; [by apply removeTab_untracked | done].
  - intros win Hnin Hsole.
    destruct (addTab_untracked tab win st Hnin) as (st1 & effs1 & Hadd & Ht & Hm & Hw).
    assert (tab ∈ tabs st1) as Hin1.
    { rewrite Ht, elem_of_app, list_elem_of_singleton. by right. }
    assert (tabToWindow st1 !! tab = Some win) as Hwin1.
    { rewrite Hm. apply lookup_insert_eq. }
    pose proof (removeTab_tracked tab st1 Hin1) as Hrun.
    eexists _, _, _, _. split; [exact Hadd |].
    split; [apply Hw; by right |].
    split; [exact Hrun |].
    destruct (removeTab_windows tab win st1 Hin1 Hwin1 _ _ Hrun) as [Hdrop _].
    rewrite Hdrop.
    + rewrite elem_of_set_delete. by intros [_ ?].
    + simpl. intros t. rewrite elem_of_set_delete, Ht, elem_of_app, list_elem_of_singleton.
      intros [[Hin | ->] Hne]; [|done].
      rewrite lookup_delete_ne, Hm, lookup_insert_ne by done. by apply Hsole.
Qed.

Lemma same_id_same_tab tab (other : option WebContents) :
  Some (wc_id tab) = wc_id <$> other <-> other = Some tab.
Proof.
  destruct other as [[i]|], tab as [j]; simpl; split; try done.
  - by intros [= ->].
  - by intros [= ->].
Qed.

(** C8, as the code has it.  [setActiveTab] throws [NoParentWindow], changing
    nothing, for a tab without owning window.  Otherwise it returns with the
    window's active-tab pointer set to the tab and nothing else changed; it
    emits [active-tab-changed (tab, window)], followed by the select hook
    when configured, exactly when the tab is not the live active tab of its
    window (the recorded active tab, read as none when the window or that tab
    is destroyed), and emits nothing otherwise.  When the window and the tab
    recorded as its active tab are not destroyed, this is exactly when the
    pointer changes; and for a tab and a window that are not destroyed a
    second call in a row changes nothing and emits nothing. *)
Theorem setActiveTab_contract tab st :
  (tabToWindow st !! tab = None ->
   setActiveTab tab st = (Thrown NoParentWindow, st, []))
  /\ (forall win, tabToWindow st !! tab = Some win ->
      exists st' effs,
        setActiveTab tab st = (Returned tt, st', effs)
        /\ st' = set_windowToActiveTab (<[win := tab]> (windowToActiveTab st)) st
        /\ (activeTabOf tab st <> Some tab ->
            effs = Emit (ActiveTabChanged tab win)
                   :: (if impl_selectTab impl then [CallSelectTab tab win] else []))
        /\ (activeTabOf tab st = Some tab -> effs = [])
        /\ (bwDestroyed win = false ->
            (forall t, windowToActiveTab st !! win = Some t -> wcDestroyed t = false) ->
            (effs = [] <-> windowToActiveTab st' = windowToActiveTab st))
        /\ (bwDestroyed win = false -> wcDestroyed tab = false ->
            setActiveTab tab st' = (Returned tt, st', []))).
Proof.
  split; [apply setActiveTab_no_parent |].
  intros win Hwin. rewrite (setActiveTab_parent tab win st Hwin).
  eexists _, _. split; [reflexivity |]. split; [reflexivity |].
  split; [|split; [|split]].
  - intros Hne. rewrite bool_decide_eq_false_2; [done |].
    by rewrite same_id_same_tab.
  - intros Heq. rewrite bool_decide_eq_true_2; [done |].
    by rewrite same_id_same_tab.
  - intros Hw Hlive. simpl.
    assert (activeTabOf tab st = windowToActiveTab st !! win) as Hact.
    { unfold getActiveTabFromWebContents, getActiveTabFromWindow.
      rewrite Hwin, Hw. simpl.
      destruct (windowToActiveTab st !! win) as [t|] eqn:Ht; [|done].
      by rewrite (Hlive t eq_refl). }
    case_bool_decide as Hid; rewrite same_id_same_tab, Hact in Hid.
    + split; [intros _; by apply insert_id | done].
    + split; [done |]. intros Heq. exfalso. apply Hid.
      rewrite <- Heq. apply lookup_insert_eq.
  - intros Hw Ht.
    set (st' := set_windowToActiveTab _ st).
    rewrite (setActiveTab_parent tab win st') by done.
    assert (activeTabOf tab st' = Some tab) as Hact.
    { unfold getActiveTabFromWebContents, getActiveTabFromWindow. simpl.
      rewrite Hwin, Hw. simpl. rewrite lookup_insert_eq. by rewrite Ht. }
    rewrite bool_decide_eq_true_2 by (by rewrite same_id_same_tab).
    f_equal. f_equal. subst st'. unfold set_windowToActiveTab. simpl.
    by rewrite insert_insert_eq.
Qed.


Local Abbreviation createTab :=
  (Store.createTab wcDestroyed bwDestroyed fromWebContents fromId impl).
Local Abbreviation createTab_afterAwait :=
  (Store.createTab_afterAwait wcDestroyed bwDestroyed fromWebContents fromId impl).
Local Abbreviation createWindow := (Store.createWindow impl).
Local Abbreviation createWindow_afterAwait :=
  (Store.createWindow_afterAwait (CreateData := CreateData)).


(** C10, as the code has it.  When the adapter function is configured and
    [details.windowId] is unset, the adapter is called with [details] in
    which [windowId] is the store's [lastFocusedWindowId], the other fields
    as given, on the store as it is, and [createTab] goes on with what the
    adapter settles to.  So the adapter gets the last focused window's id
    when the store has one, and an absent [windowId] when it has none. *)
Theorem createTab_defaults_windowId details st implCreateTab :
  impl_createTab impl = Some implCreateTab ->
  Chrome.cp_windowId details = None ->
  let details' :=
    Chrome.mkCreateProperties (lastFocusedWindowId st)
      (Chrome.cp_url details) (Chrome.cp_active details) in
  createTab_details details st = details'
  /\ createTab details st
     = (let '(settled, st1) := implCreateTab details' st in
        let '(o, st2, effs) := createTab_afterAwait settled st1 in
        (o, st2, CallCreateTab details' :: effs))
  /\ (forall n, lastFocusedWindowId st = Some n ->
      Chrome.cp_windowId details' = Some n)
  /\ (lastFocusedWindowId st = None -> Chrome.cp_windowId details' = None).
Proof.
  intros Himpl Hunset details'.
  assert (createTab_details details st = details') as Hd.
  { unfold createTab_details. by rewrite Hunset. }
  split; [exact Hd |]. split; [|done].
  unfold Store.createTab. rewrite Himpl, Hd. run_store.
  destruct (implCreateTab details' st) as [settled st1].
  by destruct (createTab_afterAwait settled st1) as [[o st2] effs].
Qed.
End store_facts.

(** [addTab] of [T1] into [W1] on a new store, then [removeTab]: the window
    is tracked in between and untracked at the end. *)
Lemma removeTab_contract_witness :
  exists st1 effs1 st2 effs2,
    Store.addTab Scenario.wcAlive Scenario.bwAlive Scenario.noOwner Scenario.noImpl
      Scenario.T1 Scenario.W1 Store.newStore = (Store.Returned tt, st1, effs1)
    /\ Scenario.W1 ∈ Store.windows st1
    /\ Store.removeTab Scenario.noImpl Scenario.T1 st1 = (Store.Returned tt, st2, effs2)
    /\ Scenario.W1 ∉ Store.windows st2.
Proof.
  destruct (removeTab_contract Scenario.wcAlive Scenario.bwAlive Scenario.noOwner
              Scenario.noImpl Scenario.T1 Store.newStore) as [_ H].
  apply (H Scenario.W1).
  - simpl. intros Hin. inversion Hin.
  - simpl. intros t Hin. inversion Hin.
Defined.

(** The scenario of the specification: with [T1] active in [W1],
    [setActiveTab (T2)] emits [active-tab-changed (T2, W1)] once, and a
    second call emits nothing. *)
Lemma setActiveTab_contract_witness :
  exists st' effs,
    Store.setActiveTab Scenario.wcAlive Scenario.bwAlive Scenario.noOwner
      Scenario.noImpl Scenario.T2 Scenario.twoTabs = (Store.Returned tt, st', effs)
    /\ effs = [Store.Emit (Store.ActiveTabChanged Scenario.T2 Scenario.W1)]
    /\ Store.setActiveTab Scenario.wcAlive Scenario.bwAlive Scenario.noOwner
         Scenario.noImpl Scenario.T2 st' = (Store.Returned tt, st', []).
Proof.
  destruct (setActiveTab_contract Scenario.wcAlive Scenario.bwAlive Scenario.noOwner
              Scenario.noImpl Scenario.T2 Scenario.twoTabs) as [_ H].
  destruct (H Scenario.W1) as (st' & effs & Hrun & _ & Hemit & _ & _ & Htwice).
  - vm_compute. reflexivity.
  - exists st', effs. split; [exact Hrun |]. split.
    + apply Hemit. vm_compute. discriminate.
    + apply Htwice; reflexivity.
Defined.

(** C8, as stated, fails: with the owning window destroyed, two calls of
    [setActiveTab] in a row for the same tab both emit, the second one
    although the active-tab pointer is not changed by it. *)
Lemma setActiveTab_destroyed_window_emits_again :
  let first :=
    Store.setActiveTab Scenario.wcAlive Scenario.bwGone Scenario.noOwner
      Scenario.noImpl Scenario.T1 Scenario.oneTab in
  let second :=
    Store.setActiveTab Scenario.wcAlive Scenario.bwGone Scenario.noOwner
      Scenario.noImpl Scenario.T1 first.1.2 in
  first.2 = [Store.Emit (Store.ActiveTabChanged Scenario.T1 Scenario.W1)]
  /\ second.2 = [Store.Emit (Store.ActiveTabChanged Scenario.T1 Scenario.W1)]
  /\ Store.windowToActiveTab second.1.2 = Store.windowToActiveTab first.1.2.
Proof. vm_compute. done. Qed.


(** [createWindow] on a store whose last focused window is [W1], with an
    adapter that settles to [undefined]: [undefined] is filed as a window,
    ['window-added'] is emitted with it, and it is returned. *)
Lemma createWindow_does_not_validate :
  Store.createWindow Scenario.sloppyImpl tt Scenario.twoTabs
  = (Store.OutsideTypes Store.HUndefined None Store.ReturnedFiled,
     Scenario.twoTabs,
     [Store.CallCreateWindow tt;
      Store.Emit (Store.WindowAddedValue Store.HUndefined)]).
Proof. vm_compute. reflexivity. Qed.

(** C10, as stated, fails: on a new store, which has no last focused
    window, [createTab ({url})] calls the adapter with [windowId] absent. *)
Lemma createTab_without_focused_window :
  exists effs,
    (Store.createTab Scenario.wcAlive Scenario.bwAlive Scenario.noOwner
       Scenario.allRegistered Scenario.sloppyImpl
       (Chrome.mkCreateProperties None (Some "https://example.org") None)
       Store.newStore).2
    = Store.CallCreateTab
        (Chrome.mkCreateProperties None (Some "https://example.org") None)
      :: effs.
Proof. vm_compute. eexists. reflexivity. Qed.

(** [createTab ({url})] on the store with two tabs, whose last focused window
    is [W1]: the adapter is called with [windowId] 1. *)
Lemma createTab_defaults_windowId_witness :
  exists effs,
    (Store.createTab Scenario.wcAlive Scenario.bwAlive Scenario.noOwner
       Scenario.allRegistered Scenario.sloppyImpl
       (Chrome.mkCreateProperties None (Some "https://example.org") None)
       Scenario.twoTabs).2
    = Store.CallCreateTab
        (Chrome.mkCreateProperties (Some 1%Z) (Some "https://example.org") None)
      :: effs.
Proof.
  destruct (createTab_defaults_windowId Scenario.wcAlive Scenario.bwAlive
              Scenario.noOwner Scenario.allRegistered Scenario.sloppyImpl
              (Chrome.mkCreateProperties None (Some "https://example.org") None)
              Scenario.twoTabs
              (fun _ st => (Store.TabArray (Store.Given Scenario.T1)
                              (Store.Given Scenario.W1), st)))
    as (_ & Hrun & _ & _).
  - reflexivity.
  - reflexivity.
  - rewrite Hrun. vm_compute. eexists. reflexivity.
Defined.


(** ** The tabs API: the diff behind [tabs.onUpdated] *)
Section tabs_facts.
Import TabsAPI.
Context {CreateData : Type}.
Variable wcDestroyed : WebContents -> bool.
Variable bwDestroyed : BrowserWindow -> bool.
Variable fromWebContents : WebContents -> option BrowserWindow.
Variable reading : WebContents -> TabReading.
Variable getSize : BrowserWindow -> Z * Z.
Variable impl : Store.ChromeExtensionImpl CreateData.

Local Abbreviation createTabDetails :=
  (TabsAPI.createTabDetails wcDestroyed bwDestroyed fromWebContents reading getSize impl).
Local Abbreviation onUpdated :=
  (TabsAPI.onUpdated wcDestroyed bwDestroyed fromWebContents reading getSize impl).

(** The loop over [compareProps] sets [didUpdate] exactly when some key
    differs, and [changeInfo] holds exactly the keys that differ, with the
    new values. *)
Lemma diff_spec (details prevDetails : Chrome.Tab) :
  let changed prop := differs prop details prevDetails in
  let pick {A} prop (value : A) := if changed prop then Some value else None in
  diff details prevDetails
  = (existsb changed compareProps,
     Chrome.mkChangeInfo
       (pick P_status (Chrome.status details))
       (pick P_url (Chrome.url details))
       (pick P_pinned (Chrome.pinned details))
       (pick P_audible (Chrome.audible details))
       (pick P_discarded (Chrome.discarded details))
       (pick P_autoDiscardable (Chrome.autoDiscardable details))
       (pick P_mutedInfo (Chrome.mutedInfo details))
       (pick P_favIconUrl (Chrome.favIconUrl details))
       (pick P_title (Chrome.title details))).
Proof.
  intros changed pick. subst changed pick. unfold diff, compareProps.
  cbn -[differs].
  repeat match goal with
         | |- context [differs ?p details prevDetails] =>
             destruct (differs p details prevDetails); cbn -[differs]
         end.
  all: reflexivity.
Qed.

(** Without an [assignTabDetails] hook the descriptor carries a [mutedInfo]
    object made by this very call. *)
Lemma createTabDetails_fresh tab ctx :
  Store.impl_assignTabDetails impl = None ->
  Chrome.mi_object (Chrome.mutedInfo (createTabDetails tab ctx).1) = allocated ctx
  /\ allocated (createTabDetails tab ctx).2 = S (allocated ctx)
  /\ Store.tabDetailsCache (store (createTabDetails tab ctx).2)
     = <[wc_id tab := (createTabDetails tab ctx).1]>
         (Store.tabDetailsCache (store ctx)).
Proof.
  intros Hhook. unfold TabsAPI.createTabDetails. rewrite Hhook.
  destruct (match _ with Some w => getSize w | None => _ end) as [width height].
  done.
Qed.

Lemma createTabDetails_cache_allocated tab ctx :
  Store.impl_assignTabDetails impl = None ->
  cache_allocated ctx -> cache_allocated (createTabDetails tab ctx).2.
Proof.
  intros Hhook Hc tabId details.
  destruct (createTabDetails_fresh tab ctx Hhook) as (Hobj & -> & ->).
  destruct (decide (tabId = wc_id tab)) as [-> | Hne].
  - rewrite lookup_insert_eq. intros [= <-]. lia.
  - rewrite lookup_insert_ne by done. intros Hd. specialize (Hc _ _ Hd). lia.
Qed.

(** Every signal for a live tracked tab with a cached descriptor is
    broadcast, the change info naming [mutedInfo], whatever else changed or
    did not change. *)
Lemma onUpdated_always_emits tabId tab prevDetails ctx :
  Store.impl_assignTabDetails impl = None ->
  cache_allocated ctx ->
  Store.getTabById wcDestroyed tabId (store ctx) = Some tab ->
  Store.tabDetailsCache (store ctx) !! wc_id tab = Some prevDetails ->
  exists upd,
    onUpdated tabId ctx = (Some upd, (createTabDetails tab ctx).2)
    /\ upd_details upd = (createTabDetails tab ctx).1
    /\ Chrome.ci_mutedInfo (upd_changeInfo upd)
       = Some (Chrome.mutedInfo (upd_details upd)).
Proof.
  intros Hhook Hc Htab Hprev. unfold TabsAPI.onUpdated. rewrite Htab, Hprev.
  destruct (createTabDetails_fresh tab ctx Hhook) as (Hobj & _ & _).
  destruct (createTabDetails tab ctx) as [details ctx'] eqn:Hd. simpl in *.
  assert (differs P_mutedInfo details prevDetails = true) as Hdiff.
  { unfold differs. apply negb_true_iff, bool_decide_eq_false.
    specialize (Hc _ _ Hprev). lia. }
  rewrite diff_spec. cbn -[differs]. rewrite !Hdiff, !orb_true_r. cbn -[differs].
  eexists. split; [reflexivity |]. done.
Qed.

(** C4 on the code.  [T1] is tracked, live, and its descriptor is cached.
    The update signal arrives with nothing about the tab changed: the code
    broadcasts [tabs.onUpdated] all the same, with a change info whose only
    key is [mutedInfo]. *)
Theorem onUpdated_emits_without_change :
  upd_changeInfo
    <$> (TabsAPI.onUpdated Scenario.wcAlive Scenario.bwAlive Scenario.noOwner
           Scenario.blankPage Scenario.windowSize Scenario.noImpl 1%Z
           Scenario.observed).1
  = Some (Chrome.mkChangeInfo None None None None None None
            (Some (Chrome.mkMutedInfo 1 false)) None None).
Proof. vm_compute. reflexivity. Qed.
End tabs_facts.

(** ** The browser action API: the coalesced update *)
Section action_facts.
Import BrowserActionAPI.
Context {ActionMap : Type}.
Variable isDestroyed : WebContents -> bool.
Implicit Types (s : State ActionMap) (write : ActionMap -> ActionMap).

Lemma mutate_pending write s :
  queuedUpdate s = true ->
  queuedUpdate (mutate write s) = true
  /\ microtasks (mutate write s) = microtasks s
  /\ sent (mutate write s) = sent s
  /\ observers (mutate write s) = observers s.
Proof. intros H. unfold mutate, onUpdate. simpl. by rewrite H. Qed.

Lemma mutations_pending writes s :
  queuedUpdate s = true ->
  queuedUpdate (mutations writes s) = true
  /\ microtasks (mutations writes s) = microtasks s
  /\ sent (mutations writes s) = sent s
  /\ observers (mutations writes s) = observers s.
Proof.
  revert s. induction writes as [|write writes IH]; intros s H; [done |].
  destruct (mutate_pending write s H) as (Hq & Hm & Hs & Ho).
  unfold mutations in *. simpl.
  destruct (IH _ Hq) as (-> & -> & -> & ->). done.
Qed.

(** An update is pending exactly while its flush is queued, and nothing
    else is ever queued. *)
Lemma reachable_pending s :
  reachable s -> microtasks s = if queuedUpdate s then [FlushUpdate] else [].
Proof.
  induction 1 as [actions | write s _ IH | wc s _ IH | wc s _ IH | isD s _ IH];
    simpl; try done.
  - unfold mutate, onUpdate. simpl. destruct (queuedUpdate s); simpl; [done |].
    by rewrite IH.
  - unfold drainMicrotasks. rewrite IH. by destruct (queuedUpdate s).
Qed.

(** C5.  Take a state the API can be in at the start of a tick, when no
    microtask is queued, and make one or more writes to the action state
    without a microtask running in between.  Then one flush has been
    scheduled, whatever the number of writes: the flag is set and the
    microtask queue holds exactly one entry, nothing has been sent yet, and
    a further write schedules nothing.  Running the microtasks then sends
    one ["browserAction.update"] to each observer that is not destroyed, in
    the order of the observer set, and nothing else, and clears the flag. *)
Theorem updates_coalesce s writes :
  reachable s ->
  microtasks s = [] ->
  writes <> [] ->
  let s' := mutations writes s in
  queuedUpdate s' = true
  /\ microtasks s' = [FlushUpdate]
  /\ sent s' = sent s
  /\ observers s' = observers s
  /\ (forall write, microtasks (mutate write s') = microtasks s'
                    /\ queuedUpdate (mutate write s') = true)
  /\ (let s'' := drainMicrotasks isDestroyed s' in
      sent s''
      = sent s ++ flat_map (fun observer =>
                              if negb (isDestroyed observer)
                              then [(observer, "browserAction.update")]
                              else [])
                           (observers s)
      /\ queuedUpdate s'' = false
      /\ microtasks s'' = []).
Proof.
  intros Hreach Hempty Hne s'.
  assert (queuedUpdate s = false) as Hq.
  { apply reachable_pending in Hreach. rewrite Hempty in Hreach.
    by destruct (queuedUpdate s). }
  destruct writes as [|write writes]; [done |].
  subst s'. unfold mutations. simpl.
  set (s1 := mutate write s).
  assert (queuedUpdate s1 = true /\ microtasks s1 = [FlushUpdate]
          /\ sent s1 = sent s /\ observers s1 = observers s) as (Hq1 & Hm1 & Hs1 & Ho1).
  { subst s1. unfold mutate, onUpdate. simpl. by rewrite Hq, Hempty. }
  destruct (mutations_pending writes s1 Hq1) as (Hq' & Hm' & Hs' & Ho').
  unfold mutations in *.
  set (s' := foldl _ s1 writes) in *.
  split; [done |]. split; [by rewrite Hm' |]. split; [by rewrite Hs' |].
  split; [by rewrite Ho' |]. split.
  - intros w. destruct (mutate_pending w s' Hq') as (? & ? & _). done.
  - unfold drainMicrotasks. rewrite Hm', Hm1. simpl. by rewrite Hs', Hs1, Ho', Ho1.
Qed.
End action_facts.

(** Three writes in one tick, two observers of which one is destroyed. *)
Lemma updates_coalesce_witness :
  let s :=
    BrowserActionAPI.addObserver (WC 2)
      (BrowserActionAPI.addObserver (WC 1) (BrowserActionAPI.newState 0)) in
  let s' := BrowserActionAPI.mutations [S; S; S] s in
  BrowserActionAPI.microtasks s' = [BrowserActionAPI.FlushUpdate]
  /\ BrowserActionAPI.sent
       (BrowserActionAPI.drainMicrotasks
          (fun wc => bool_decide (wc = WC 2)) s')
     = [(WC 1, "browserAction.update")].
Proof.
  intros s s'.
  destruct (updates_coalesce (fun wc => bool_decide (wc = WC 2)) s [S; S; S])
    as (_ & Hm & _ & _ & _ & Hsent & _).
  - subst s. repeat constructor.
  - reflexivity.
  - discriminate.
  - split; [exact Hm | exact Hsent].
Defined.

(** ** The router: the fan-out of [sendEvent] *)
Section fanout_facts.
Import Router MainProcess.
Context {Extension Arg Value : Type}.
Implicit Types (m : Main Extension Arg Value) (l : EventListener).

(** What [sendEvent] sends, entry by entry. *)
Lemma sendEvent_filter (isDestroyed : WebContents -> bool)
    (r : ExtensionRouter Extension Arg Value) (extensionId : option string)
    (eventName : string) (args : list Arg) :
  sendEvent isDestroyed r extensionId eventName args
  = (fun l => mkSent (host l) ("crx-" +:+ eventName) args)
      <$> JS.filter
            (fun l => negb (isDestroyed (host l))
                      && (negb (JS.truthy_string extensionId)
                          || bool_decide (Some (Router.extensionId l) = extensionId)))
            (listenersFor eventName r).
Proof.
  unfold sendEvent, listenersFor.
  assert (forall (p : EventListener -> bool) ls,
            flat_map (fun el => if isDestroyed (host el) then []
                                else [mkSent (host el) ("crx-" +:+ eventName) args])
                     (JS.filter p ls)
            = (fun l => mkSent (host l) ("crx-" +:+ eventName) args)
                <$> JS.filter (fun l => negb (isDestroyed (host l)) && p l) ls)
    as Hflat.
  { intros p ls. induction ls as [|x ls IH]; simpl; [done |].
    destruct (isDestroyed (host x)) eqn:Hd; simpl; destruct (p x); simpl;
      rewrite ?Hd; simpl; rewrite ?IH; reflexivity. }
  destruct (listeners r !! eventName) as [ls|]; simpl.
  - destruct (JS.truthy_string extensionId); simpl.
    + case_bool_decide as Hlen.
      * rewrite <- Hflat. by destruct (JS.filter _ ls).
      * apply Hflat.
    + assert (flat_map (fun el => if isDestroyed (host el) then []
                                  else [mkSent (host el) ("crx-" +:+ eventName) args])
                       ls
              = (fun l => mkSent (host l) ("crx-" +:+ eventName) args)
                  <$> JS.filter (fun l => negb (isDestroyed (host l)) && true) ls)
        as Hall.
      { clear. induction ls as [|x ls IH]; simpl; [done |].
        destruct (isDestroyed (host x)); simpl; by rewrite IH. }
      case_bool_decide as Hlen; [|apply Hall].
      by destruct ls.
  - by destruct (JS.truthy_string extensionId).
Qed.

(** Jobs append to the outbox and never read it. *)
Lemma run_jobs_outbox (jobs : list (Job Extension Arg))
    (r : ExtensionRouter Extension Arg Value) (sent : list (Sent Arg)) :
  run_jobs jobs (mkMain r sent)
  = mkMain (router (run_jobs jobs (mkMain r [])))
           (sent ++ outbox (run_jobs jobs (mkMain r []))).
Proof.
  induction jobs as [|j jobs IH] using rev_ind.
  - simpl. by rewrite app_nil_r.
  - unfold run_jobs in *. rewrite !foldl_app. simpl. rewrite IH.
    destruct j; simpl; try done. by rewrite app_assoc.
Qed.

(** Removing the first occurrence of an element keeps the others in
    order. *)
Lemma splice_first_occurrence l (ls : list EventListener) :
  match JS.findIndex (fun y => bool_decide (y = l)) ls with
  | Some index =>
      exists before after,
        ls = before ++ l :: after /\ (l ∉ before)
        /\ JS.splice1 index ls = before ++ after
  | None => l ∉ ls
  end.
Proof.
  induction ls as [|x ls IH]; simpl.
  - apply not_elem_of_nil.
  - case_bool_decide as Hx; simpl.
    + subst x. exists [], ls. repeat split. apply not_elem_of_nil.
    + destruct (JS.findIndex _ ls) as [i|]; simpl.
      * destruct IH as (before & after & -> & Hnin & Hs).
        exists (x :: before), after. repeat split.
        -- rewrite not_elem_of_cons. split; [congruence | done].
        -- by rewrite Hs.
      * rewrite not_elem_of_cons. split; [congruence | done].
Qed.

(** C3.  [sendEvent] delivers to the listeners held for the event name
    when it is called, those of the extension when a non-empty extension id
    is given, skipping destroyed hosts, each once and in the order of the
    array; it leaves the router as it is.  That order is registration
    order: [addListener] puts a new entry at the end and [removeListener]
    takes its entry out from between the others.  Whatever jobs arrive
    during the fan-out run behind it, so the recipients are those fixed when
    the call started, and what the later jobs send comes after. *)
Theorem sendEvent_order m (isDestroyed : WebContents -> bool)
    (extensionId : option string) (eventName : string) (args : list Arg)
    (later : list (Job Extension Arg)) :
  let recipients :=
    JS.filter
      (fun l => negb (isDestroyed (host l))
                && (negb (JS.truthy_string extensionId)
                    || bool_decide (Some (Router.extensionId l) = extensionId)))
      (listenersFor eventName (router m)) in
  let sent := (fun l => mkSent (host l) ("crx-" +:+ eventName) args) <$> recipients in
  let send := SendEvent isDestroyed extensionId eventName args in
  run_job send m = mkMain (router m) (outbox m ++ sent)
  /\ outbox (run_jobs (send :: later) m)
     = outbox m ++ sent ++ outbox (run_jobs later (mkMain (router m) []))
  /\ (forall getExtension l ext r',
        addListener getExtension l ext eventName (router m) = inr r' ->
        l ∉ listenersFor eventName (router m) ->
        listenersFor eventName r' = listenersFor eventName (router m) ++ [l])
  /\ (forall l ext,
        l ∈ listenersFor eventName (router m) ->
        exists before after,
          listenersFor eventName (router m) = before ++ l :: after
          /\ listenersFor eventName (removeListener l ext eventName (router m))
             = before ++ after).
Proof.
  intros recipients sent send.
  assert (run_job send m = mkMain (router m) (outbox m ++ sent)) as Hsend.
  { subst send sent recipients. simpl. by rewrite sendEvent_filter. }
  split; [exact Hsend |]. split; [|split].
  - change (run_jobs (send :: later) m) with (run_jobs later (run_job send m)).
    rewrite Hsend, run_jobs_outbox. simpl. by rewrite app_assoc.
  - intros getExtension l ext r' Hadd Hnin.
    destruct (addListener_listenersFor _ _ _ _ _ _ Hadd) as (-> & _).
    by destruct (decide (l ∈ listenersFor eventName (router m))).
  - intros l ext Hin.
    destruct (removeListener_listenersFor l ext eventName (router m)) as (-> & _).
    pose proof (splice_first_occurrence l (listenersFor eventName (router m))) as Hs.
    destruct (JS.findIndex _ _) as [i|].
    + destruct Hs as (before & after & Heq & _ & Hsplice).
      exists before, after. split; [exact Heq | exact Hsplice].
    + by destruct Hs.
Qed.
End fanout_facts.

(** Three hosts listen to ["tabs.onUpdated"] for ["ext"].  While a
    broadcast and a send to ["ext"] fan out, the first host's
    [removeListener] and a fourth host's [addListener] arrive: both sends
    reach the three hosts in the order they registered; a broadcast made
    after that reaches the second, third and fourth. *)
Lemma sendEvent_order_witness :
  let later :=
    [MainProcess.ListenerMessage Scenario.extLoaded Router.RemoveListener (WC 1)
       "ext" "tabs.onUpdated";
     MainProcess.ListenerMessage Scenario.extLoaded Router.AddListener (WC 4)
       "ext" "tabs.onUpdated"] in
  Router.sent_to
    <$> MainProcess.outbox
          (MainProcess.run_jobs
             (MainProcess.SendEvent Scenario.wcAlive None "tabs.onUpdated" [tt] :: later)
             Scenario.threeListeners)
  = [WC 1; WC 2; WC 3]
  /\ Router.sent_to
       <$> MainProcess.outbox
             (MainProcess.run_jobs
                (MainProcess.SendEvent Scenario.wcAlive (Some "ext") "tabs.onUpdated" [tt]
                   :: later ++ [MainProcess.SendEvent Scenario.wcAlive None
                                  "tabs.onUpdated" [tt]])
                Scenario.threeListeners)
     = [WC 1; WC 2; WC 3; WC 2; WC 3; WC 4].
Proof.
  intros later. split.
  - destruct (sendEvent_order Scenario.threeListeners Scenario.wcAlive None
                "tabs.onUpdated" [tt] later) as (_ & -> & _).
    vm_compute. reflexivity.
  - destruct (sendEvent_order Scenario.threeListeners Scenario.wcAlive (Some "ext")
                "tabs.onUpdated" [tt]
                (later ++ [MainProcess.SendEvent Scenario.wcAlive None
                             "tabs.onUpdated" [tt]])) as (_ & -> & _).
    vm_compute. reflexivity.
Defined.


(* ===================================================================== *)
(** * Further properties of the code                                      *)
(* ===================================================================== *)

(** ** The router: what the registry keeps *)
Section registry_more.
Import Router RouterMore.
Context {Extension Arg Value : Type}.
Local Abbreviation Router := (ExtensionRouter Extension Arg Value).
Implicit Types (r : Router) (l : EventListener) (ev : string).

Lemma addListener_listeners getExtension l ext ev r r' :
  addListener getExtension l ext ev r = inr r' ->
  listeners r'
  = (if decide (l ∈ listenersFor ev r) then listeners r
     else <[ev := listenersFor ev r ++ [l]]> (listeners r)).
Proof.
  unfold addListener, listenersFor.
  destruct (getExtension (session r) ext); [|done].
  destruct (listeners r !! ev) as [ls|] eqn:Hev; simpl.
  - rewrite Hev. simpl.
    destruct (JS.find (eventListenerEquals l) ls) eqn:Hf.
    + intros Hr. injection Hr as <-. simpl.
      apply find_Some in Hf as [Hin E]. apply eventListenerEquals_true in E as ->.
      by destruct (decide (l ∈ ls)).
    + intros Hr. injection Hr as <-. simpl. apply find_listener_None in Hf.
      by destruct (decide (l ∈ ls)).
  - rewrite lookup_insert_eq. simpl. intros Hr. injection Hr as <-. simpl.
    destruct (decide (l ∈ [])) as [H | _]; [inversion H |].
    by rewrite insert_insert_eq.
Qed.

Lemma removeListener_listeners l ext ev r :
  listeners (removeListener l ext ev r)
  = match listeners r !! ev with
    | None => listeners r
    | Some ls =>
        let ls' := match JS.findIndex (fun y => bool_decide (y = l)) ls with
                   | Some index => JS.splice1 index ls
                   | None => ls
                   end in
        if bool_decide (length ls' = 0) then delete ev (listeners r)
        else <[ev := ls']> (listeners r)
    end.
Proof.
  unfold removeListener. destruct (listeners r !! ev) as [ls|]; [|done].
  rewrite findIndex_listener_ext. simpl. by case_bool_decide.
Qed.

Lemma filterListeners_no_empty_array (p : EventListener -> bool) r :
  no_empty_array (filterListeners p r).
Proof.
  intros ev ls. unfold filterListeners. simpl. rewrite lookup_omap.
  destruct (listeners r !! ev) as [ls0|]; simpl; [|done].
  case_bool_decide as Hlen; [|done]. intros [= <-] Hnil. rewrite Hnil in Hlen.
  simpl in Hlen. lia.
Qed.

Lemma listenerCall_no_empty_array getExtension c (caller : WebContents) ext ev r :
  no_empty_array r -> no_empty_array (listenerCall getExtension c caller ext ev r).
Proof.
  intros Hne k ls. destruct c; simpl.
  - destruct (addListener _ _ _ _ _) as [e | r'] eqn:Ha; [apply Hne |].
    rewrite (addListener_listeners _ _ _ _ _ _ Ha).
    destruct (decide (_ ∈ _)); [apply Hne |].
    rewrite lookup_insert. case_decide; [|apply Hne].
    intros [= <-]. by destruct (listenersFor ev r).
  - rewrite removeListener_listeners.
    destruct (listeners r !! ev) as [ls0|] eqn:Hev; [|apply Hne]. simpl.
    case_bool_decide as Hlen.
    + rewrite lookup_delete. case_decide; [done | apply Hne].
    + rewrite lookup_insert. case_decide; [|apply Hne].
      intros [= <-] Hnil. by rewrite Hnil in Hlen.
Qed.

(** X1.  When an extension is unloaded, each event name keeps exactly its
    entries of other extensions, in their order; the handlers and the armed
    callbacks are as before. *)
Theorem extension_unloaded_removes_its_listeners (r : Router) (id : string) :
  let r' := onExtensionUnloaded id r in
  (forall ev, listenersFor ev r'
              = JS.filter (fun l => negb (bool_decide (extensionId l = id)))
                          (listenersFor ev r))
  /\ (forall ev l, l ∈ listenersFor ev r' -> extensionId l <> id)
  /\ (forall ev l, l ∈ listenersFor ev r -> extensionId l <> id ->
                   l ∈ listenersFor ev r')
  /\ handlers r' = handlers r
  /\ destroyedOnce r' = destroyedOnce r.
Proof.
  intros r'. subst r'. unfold onExtensionUnloaded.
  split; [intros ev; apply filterListeners_listenersFor |].
  split; [|split; [|done]].
  - intros ev l. rewrite filterListeners_listenersFor, elem_of_filter.
    rewrite negb_true_iff, bool_decide_eq_false. by intros [_ ?].
  - intros ev l Hl Hne. rewrite filterListeners_listenersFor, elem_of_filter.
    rewrite negb_true_iff, bool_decide_eq_false. done.
Qed.

Lemma reachable_no_empty_array (r : Router) :
  reachable r -> no_empty_array r.
Proof.
  induction 1 as [ses | getExtension c caller ext ev r _ IH
                 | name cb opts r _ IH | h r _ IH | id r _ IH].
  - intros ev ls H. simpl in H. by rewrite lookup_empty in H.
  - by apply listenerCall_no_empty_array.
  - apply IH.
  - unfold emitDestroyed. intros ev ls. simpl.
    assert (forall hs (acc : Router), no_empty_array acc ->
              no_empty_array
                (foldl (fun acc h' => if bool_decide (h' = h)
                                      then onHostDestroyed h acc else acc) acc hs))
      as Hfold.
    { induction hs as [|h' hs IHhs]; intros acc Hacc; [done |]. simpl.
      apply IHhs. case_bool_decide; [apply filterListeners_no_empty_array | done]. }
    apply (Hfold (destroyedOnce r) r IH).
  - apply filterListeners_no_empty_array.
Qed.

(** X2.  A router a session can have never keeps an event name with an
    empty array: [removeListener] and the clean-ups delete the name with its
    last entry.  So an event name is in the map exactly when it has a
    listener, and the length check of [sendEvent] never decides a
    broadcast. *)
Theorem registry_keeps_no_empty_array (r : Router) :
  reachable r ->
  no_empty_array r
  /\ forall eventName,
       listeners r !! eventName = None <-> listenersFor eventName r = [].
Proof.
  intros Hreach. apply reachable_no_empty_array in Hreach. split; [done |].
  intros ev. unfold listenersFor.
  destruct (listeners r !! ev) as [ls|] eqn:Hev; simpl; [|done].
  split; [done |]. intros ->. by destruct (Hreach _ _ Hev).
Qed.

(** X3.  On a router a session can have, [removeListener] for an entry that
    is not registered under the event name leaves the router exactly as it
    was. *)
Theorem removeListener_unregistered_changes_nothing (r : Router)
    (l : EventListener) (ext ev : string) :
  reachable r ->
  l ∉ listenersFor ev r ->
  removeListener l ext ev r = r.
Proof.
  intros Hreach Hnin. apply reachable_no_empty_array in Hreach.
  unfold removeListener. unfold listenersFor in Hnin.
  destruct (listeners r !! ev) as [ls|] eqn:Hev; [|done]. simpl in Hnin.
  assert (JS.findIndex (eventListenerEquals l) ls = None) as ->.
  { apply findIndex_None. by apply find_listener_None. }
  rewrite bool_decide_eq_false_2.
  - rewrite insert_id by done. apply set_listeners_same.
  - specialize (Hreach _ _ Hev). by destruct ls.
Qed.

Lemma splice_appended (l : EventListener) (ls : list EventListener) :
  l ∉ ls ->
  match JS.findIndex (fun y => bool_decide (y = l)) (ls ++ [l]) with
  | Some index => JS.splice1 index (ls ++ [l])
  | None => ls ++ [l]
  end = ls.
Proof.
  induction ls as [|x ls IH]; simpl; intros Hnin.
  - by rewrite bool_decide_eq_true_2.
  - apply not_elem_of_cons in Hnin as [Hne Hnin].
    rewrite bool_decide_eq_false_2 by done. specialize (IH Hnin).
    destruct (JS.findIndex _ (ls ++ [l])) as [i|]; simpl; [by rewrite IH |].
    exfalso. revert IH. clear. intros H.
    assert (length (ls ++ [l]) = length ls) as Hlen by by rewrite H.
    rewrite length_app in Hlen. simpl in Hlen. lia.
Qed.

(** X4.  On a router a session can have, registering an entry that was not
    there and removing it again gives back the registry as it was, event
    name by event name (the ['destroyed'] callback armed on the way stays
    armed). *)
Theorem addListener_removeListener_round_trip getExtension (r r1 : Router)
    (l : EventListener) (ext ev : string) :
  reachable r ->
  l ∉ listenersFor ev r ->
  addListener getExtension l ext ev r = inr r1 ->
  listeners (removeListener l ext ev r1) = listeners r
  /\ destroyedOnce (removeListener l ext ev r1) = destroyedOnce r ++ [host l].
Proof.
  intros Hreach Hnin Hadd. apply reachable_no_empty_array in Hreach.
  destruct (addListener_listenersFor _ _ _ _ _ _ Hadd) as (_ & _ & _ & Hd).
  destruct (removeListener_listenersFor l ext ev r1) as (_ & _ & _ & ->).
  rewrite Hd. destruct (decide (l ∈ listenersFor ev r)); [done |].
  split; [|done].
  rewrite removeListener_listeners, (addListener_listeners _ _ _ _ _ _ Hadd).
  destruct (decide (l ∈ listenersFor ev r)); [done |].
  rewrite lookup_insert_eq. simpl. rewrite splice_appended by done.
  unfold listenersFor in *.
  destruct (listeners r !! ev) as [ls|] eqn:Hev; simpl.
  - rewrite bool_decide_eq_false_2.
    + rewrite insert_insert_eq. by apply insert_id.
    + specialize (Hreach _ _ Hev). by destruct ls.
  - rewrite delete_insert_eq. by apply delete_id.
Qed.

(** X5.  [sendEvent] sends one message per entry held for the event name
    whose host is not destroyed, in array order, on the channel ["crx-"]
    followed by the event name and with the arguments given; when a
    non-empty extension id is given, only the entries of that extension
    count.  [broadcastEvent] is [sendEvent] without extension id. *)
Theorem sendEvent_recipients (isDestroyed : WebContents -> bool) (r : Router)
    (extensionId : option string) (eventName : string) (args : list Arg) :
  let wanted l :=
    negb (isDestroyed (host l))
    && (negb (JS.truthy_string extensionId)
        || bool_decide (Some (Router.extensionId l) = extensionId)) in
  sendEvent isDestroyed r extensionId eventName args
  = (fun l => mkSent (host l) ("crx-" +:+ eventName) args)
      <$> JS.filter wanted (listenersFor eventName r)
  /\ broadcastEvent isDestroyed r eventName args
     = sendEvent isDestroyed r None eventName args.
Proof.
  intros wanted. split; [|done]. unfold sendEvent, listenersFor. subst wanted.
  assert (forall (p : EventListener -> bool) ls,
            flat_map (fun el => if isDestroyed (host el) then []
                                else [mkSent (host el) ("crx-" +:+ eventName) args])
                     (JS.filter p ls)
            = (fun l => mkSent (host l) ("crx-" +:+ eventName) args)
                <$> JS.filter (fun l => negb (isDestroyed (host l)) && p l) ls)
    as Hflat.
  { intros p ls. induction ls as [|x ls IH]; simpl; [done |].
    destruct (isDestroyed (host x)) eqn:Hd; simpl; destruct (p x); simpl;
      rewrite ?Hd; simpl; rewrite ?IH; reflexivity. }
  destruct (listeners r !! eventName) as [ls|]; simpl.
  - destruct (JS.truthy_string extensionId); simpl.
    + case_bool_decide as Hlen.
      * rewrite <- Hflat. by destruct (JS.filter _ ls).
      * apply Hflat.
    + assert (flat_map (fun el => if isDestroyed (host el) then []
                                  else [mkSent (host el) ("crx-" +:+ eventName) args])
                       ls
              = (fun l => mkSent (host l) ("crx-" +:+ eventName) args)
                  <$> JS.filter (fun l => negb (isDestroyed (host l)) && true) ls)
        as Hall.
      { clear. induction ls as [|x ls IH]; simpl; [done |].
        destruct (isDestroyed (host x)); simpl; by rewrite IH. }
      case_bool_decide as Hlen; [|apply Hall].
      by destruct ls.
  - by destruct (JS.truthy_string extensionId).
Qed.
End registry_more.

(** ** The routing delegate *)
Section delegate_facts.
Import Router RouterMore.
Context {Extension Arg Value : Type}.
Local Abbreviation Delegate := (RoutingDelegate Extension Arg Value).

Lemma reachable_filed_by_session (d : Delegate) :
  DelegateStates.reachable d -> filed_by_session d.
Proof.
  induction 1 as [| observer d _ IH
                 | getExtension session_of caller ext ev d _ IH
                 | session_of caller ext ev d _ IH
                 | ses observer observer' d _ IH Hl Hs].
  - intros ses o H. simpl in H. by rewrite lookup_empty in H.
  - intros ses o. unfold addObserver. simpl. rewrite lookup_insert.
    case_decide as E; [by intros [= <-] | apply IH].
  - unfold onAddListener.
    destruct (sessionMap d !! session_of caller) as [observer|] eqn:Ho; [|apply IH].
    destruct (addListener _ _ _ _ _) as [e | observer'] eqn:Ha; [apply IH |].
    intros ses o. simpl. rewrite lookup_insert.
    case_decide as E; [|apply IH]. intros [= <-].
    apply addListener_listenersFor in Ha as (_ & _ & -> & _).
    rewrite <- E. by apply IH.
  - unfold onRemoveListener.
    destruct (sessionMap d !! session_of caller) as [observer|] eqn:Ho; [|apply IH].
    intros ses o. simpl. rewrite lookup_insert.
    case_decide as E; [|apply IH]. intros [= <-].
    destruct (removeListener_listenersFor (mkListener caller ext) ext ev observer)
      as (_ & _ & -> & _).
    rewrite <- E. by apply IH.
  - intros ses' o. simpl. rewrite lookup_insert.
    case_decide as E; [|apply IH]. intros [= <-]. rewrite Hs, <- E. by apply IH.
Qed.

(** X6.  A message on ['crx-msg'] goes to the router filed under the
    sender's session, and every router is filed under its own session: the
    call never fails as a cross-session call, whatever the handler's
    [allowRemote].  It fails only for a handler that is not registered or
    for one that needs an extension the sender's session does not know. *)
Theorem local_message_is_never_cross_session getExtension session_of
    (d : Delegate) (caller : WebContents) (extensionId handlerName : string)
    (args : list Arg) (e : RouterError) :
  DelegateStates.reachable d ->
  onRouterMessage getExtension session_of d caller extensionId handlerName args
  = Some (inl e) ->
  e = UnknownVerb handlerName \/ e = UnknownExtensionContext handlerName.
Proof.
  intros Hreach. apply reachable_filed_by_session in Hreach.
  unfold onRouterMessage.
  destruct (sessionMap d !! session_of caller) as [observer|] eqn:Ho; [|done].
  apply Hreach in Ho. unfold onExtensionMessage, getHandler.
  destruct (handlers observer !! handlerName) as [handler|]; [|intros [= <-]; by left].
  rewrite bool_decide_eq_true_2 by done. simpl.
  destruct (_ && _); [intros [= <-]; by right | done].
Qed.

(** X7.  A message on ['crx-msg-remote'] goes to the router of the sender's
    own session when the partition is ["_self"], and to that of the named
    partition otherwise.  It reaches a callback only of a handler registered
    with [extensionContext: false], and for a router of another session only
    of one registered with [allowRemote: true]; the callback gets an event
    without extension. *)
Theorem remote_message_reaches_only_open_handlers getExtension session_of
    fromPartition (d : Delegate) (caller : WebContents)
    (sessionPartition handlerName : string) (args : list Arg)
    (result : Settled Value) :
  onRemoteMessage getExtension session_of fromPartition d caller
    sessionPartition handlerName args = Some (inr result) ->
  exists observer handler,
    sessionMap d !! (if bool_decide (sessionPartition = "_self")
                     then session_of caller else fromPartition sessionPartition)
    = Some observer
    /\ handlers observer !! handlerName = Some handler
    /\ extensionContext handler = false
    /\ (session_of caller = session observer \/ allowRemote handler = true)
    /\ result = callback handler (mkEvent caller None) args.
Proof.
  unfold onRemoteMessage, DEFAULT_SESSION.
  set (ses := if bool_decide _ then _ else _).
  destruct (sessionMap d !! ses) as [observer|] eqn:Ho; [|done].
  unfold onExtensionMessage, getHandler.
  destruct (handlers observer !! handlerName) as [handler|] eqn:Hh; [|done].
  destruct (negb (bool_decide (session_of caller = session observer))
            && negb (allowRemote handler)) eqn:Hcross; [done |].
  simpl. destruct (extensionContext handler) eqn:Hctx; [done |].
  intros [= <-]. exists observer, handler. repeat split; try done.
  apply andb_false_iff in Hcross as [H | H].
  - left. apply negb_false_iff, bool_decide_eq_true in H. done.
  - right. by apply negb_false_iff in H.
Qed.
End delegate_facts.

Lemma local_message_is_never_cross_session_witness :
  RouterMore.onRouterMessage RoutingScenario.loadedInS1 RoutingScenario.inS1
    RoutingScenario.delegateS1 (WC 1) "" "tabs.get" [tt]
  = Some (inl (Router.UnknownExtensionContext "tabs.get"))
  /\ (Router.UnknownExtensionContext "tabs.get" = Router.UnknownVerb "tabs.get"
      \/ Router.UnknownExtensionContext "tabs.get"
         = Router.UnknownExtensionContext "tabs.get").
Proof.
  split; [reflexivity |].
  apply (local_message_is_never_cross_session RoutingScenario.loadedInS1
           RoutingScenario.inS1 RoutingScenario.delegateS1 (WC 1) "" "tabs.get" [tt]).
  - apply DelegateStates.reach_addObserver, DelegateStates.reach_new.
  - reflexivity.
Defined.

Lemma remote_message_reaches_only_open_handlers_witness :
  exists observer handler,
    RouterMore.sessionMap RoutingScenario.delegateS1 !! RoutingScenario.S1
    = Some observer
    /\ Router.handlers observer !! "browserAction.getState" = Some handler
    /\ Router.extensionContext handler = false
    /\ (RoutingScenario.S1 = Router.session observer
        \/ Router.allowRemote handler = true)
    /\ Router.Fulfilled tt
       = Router.callback handler (Router.mkEvent (WC 1) None) [tt].
Proof.
  apply (remote_message_reaches_only_open_handlers RoutingScenario.loadedInS1
           RoutingScenario.inS1 RoutingScenario.partitionS2
           RoutingScenario.delegateS1 (WC 1) "_self" "browserAction.getState" [tt]).
  reflexivity.
Defined.

(** ** The listener count of an extension context *)
Section renderer_facts.
Import RendererEvent.
Implicit Types (s : State) (cs : list Call).

Lemma calls_snoc ext name cs c s :
  calls ext name (cs ++ [c]) s = call ext name c (calls ext name cs s).
Proof. unfold calls. by rewrite foldl_app. Qed.

Lemma count_after_snoc cs c n :
  count_after (cs ++ [c]) n
  = match c with Add _ => S (count_after cs n) | Remove _ => pred (count_after cs n) end.
Proof. unfold count_after. by rewrite foldl_app. Qed.

Lemma renderer_invariant ext name cs :
  let s := calls ext name cs newState in
  let n := count_after cs 0 in
  listenerMap s !! name = (if bool_decide (n = 0) then None else Some n)
  /\ (forall name', name' <> name -> listenerMap s !! name' = None)
  /\ (forall i m, sent s !! i = Some m ->
        m = if Nat.even i then CrxAddListener ext name
            else CrxRemoveListener ext name)
  /\ Nat.odd (length (sent s)) = negb (bool_decide (n = 0)).
Proof.
  induction cs as [|c cs IH] using rev_ind; [done |].
  simpl in *. rewrite calls_snoc, count_after_snoc.
  set (s := calls ext name cs newState) in *.
  set (n := count_after cs 0) in *.
  destruct IH as (Hmap & Hother & Hsent & Hodd).
  assert (forall (b : bool) i m,
            Nat.odd (length (sent s)) = negb b ->
            (sent s ++ [if b then CrxAddListener ext name
                        else CrxRemoveListener ext name]) !! i = Some m ->
            m = if Nat.even i then CrxAddListener ext name
                else CrxRemoveListener ext name) as Hsnoc.
  { intros b i m Hpar. rewrite lookup_app.
    destruct (sent s !! i) as [m'|] eqn:Hi; [intros [= <-]; by apply Hsent |].
    apply lookup_ge_None in Hi. intros Hl.
    apply list_lookup_singleton_Some in Hl as [Hz <-].
    assert (i = length (sent s)) as -> by lia.
    rewrite <- Nat.negb_odd, Hpar. by destruct b. }
  destruct c as [f | f]; simpl.
  - unfold addExtensionListener. simpl. rewrite Hmap.
    destruct (decide (n = 0)) as [Hz | Hnz].
    + rewrite (bool_decide_eq_true_2 (n = 0)) by done. simpl.
      rewrite lookup_insert_eq, Hz. split; [done |].
      split; [intros name' Hne; rewrite lookup_insert_ne by done; by apply Hother |].
      split.
      * intros i m. apply (Hsnoc true).
        by rewrite Hodd, (bool_decide_eq_true_2 (n = 0)).
      * rewrite length_app, Nat.add_1_r, Nat.odd_succ, <- Nat.negb_odd, Hodd.
        by rewrite (bool_decide_eq_true_2 (n = 0)).
    + rewrite (bool_decide_eq_false_2 (n = 0)) by done. simpl.
      rewrite (bool_decide_eq_false_2 (n = 0)) by done.
      rewrite lookup_insert_eq, Nat.add_1_r. split; [done |].
      split; [intros name' Hne; rewrite lookup_insert_ne by done; by apply Hother |].
      split; [done |]. rewrite Hodd. by rewrite (bool_decide_eq_false_2 (n = 0)).
  - unfold removeExtensionListener. rewrite Hmap.
    destruct (decide (n = 0)) as [Hz | Hnz].
    + rewrite (bool_decide_eq_true_2 (n = 0)) by done. simpl. rewrite Hz. simpl.
      rewrite Hmap, Hodd, !(bool_decide_eq_true_2 (n = 0)) by done. done.
    + rewrite (bool_decide_eq_false_2 (n = 0)) by done.
      destruct (decide (n <= 1)) as [Hle | Hgt].
      * rewrite (bool_decide_eq_true_2 (n <= 1)) by done. simpl.
        assert (n = 1) as Hone by lia. rewrite Hone. simpl.
        rewrite lookup_delete_eq.
        split; [done |].
        split; [intros name' Hne; rewrite lookup_delete_ne by done; by apply Hother |].
        split.
        -- intros i m. apply (Hsnoc false).
           by rewrite Hodd, (bool_decide_eq_false_2 (n = 0)).
        -- rewrite length_app, Nat.add_1_r, Nat.odd_succ, <- Nat.negb_odd, Hodd.
           by rewrite (bool_decide_eq_false_2 (n = 0)).
      * rewrite (bool_decide_eq_false_2 (n <= 1)) by done. simpl.
        rewrite lookup_insert_eq.
        assert (n - 1 = pred n) as -> by lia.
        rewrite (bool_decide_eq_false_2 (pred n = 0)) by lia.
        split; [done |].
        split; [intros name' Hne; rewrite lookup_insert_ne by done; by apply Hother |].
        split; [done |]. rewrite Hodd. by rewrite (bool_decide_eq_false_2 (n = 0)).
Qed.

(** X8.  Starting with no listener, after any calls of [addListener] and
    [removeListener] on one event the module's count for the event is the
    number the calls leave (up on an add, down on a remove, not below zero),
    the event being absent from the map at zero; counts of other events are
    untouched.  The messages sent to the main process alternate,
    ['crx-add-listener'] first: one goes out exactly when the count leaves
    or reaches zero, so the last one is an add exactly when the count is
    positive. *)
Theorem renderer_count_and_messages (extensionId name : string) (cs : list Call) :
  let s := calls extensionId name cs newState in
  listenerMap s !! name
  = (if bool_decide (count_after cs 0 = 0) then None else Some (count_after cs 0))
  /\ (forall name', name' <> name -> listenerMap s !! name' = None)
  /\ (forall i m, sent s !! i = Some m ->
        m = if Nat.even i then CrxAddListener extensionId name
            else CrxRemoveListener extensionId name)
  /\ (Nat.odd (length (sent s)) = true <-> 0 < count_after cs 0).
Proof.
  destruct (renderer_invariant extensionId name cs) as (H1 & H2 & H3 & H4).
  simpl. split; [done |]. split; [done |]. split; [done |].
  rewrite H4. case_bool_decide; simpl; split; try done; lia.
Qed.

Lemma removeLast_None channel fn (l : list (string * Fn)) :
  (channel, fn) ∉ l -> removeLast channel fn l = None.
Proof.
  induction l as [|entry l IH]; [done |]. intros Hnin.
  apply not_elem_of_cons in Hnin as [Hne Hnin]. simpl. rewrite IH by done.
  by rewrite bool_decide_eq_false_2.
Qed.

(** X9.  [removeExtensionListener] hands [ipcRenderer.removeListener] the
    extension's callback, while what [addExtensionListener] attached is a
    wrapper made around it: nothing is ever detached.  After any calls,
    every callback ever added has its wrapper attached, in call order,
    whether it was removed since or not. *)
Theorem removeExtensionListener_detaches_nothing (extensionId name : string)
    (cs : list Call) :
  let s := calls extensionId name cs newState in
  attached s
  = imap (fun i callback => (formatIpcName name, Wrapper i (Callback callback)))
         (added cs)
  /\ (forall callback,
        attached (removeExtensionListener extensionId name (Callback callback) s)
        = attached s).
Proof.
  simpl.
  assert (forall cs',
            let s := calls extensionId name cs' newState in
            attached s
            = imap (fun i callback =>
                      (formatIpcName name, Wrapper i (Callback callback)))
                   (added cs')
            /\ made s = length (added cs')
            /\ forall callback, (formatIpcName name, Callback callback) ∉ attached s)
    as Hinv.
  { induction cs' as [|c cs' IH] using rev_ind.
    - simpl. split; [done |]. split; [done |]. intros callback H. inversion H.
    - simpl in *. rewrite calls_snoc. destruct IH as (Hatt & Hmade & Hnone).
      unfold added in *. rewrite omap_app. destruct c as [f | f]; simpl.
      + rewrite imap_app, length_app. simpl. rewrite Hatt, Hmade, Nat.add_0_r.
        split; [done |]. split; [lia |]. intros callback Hin.
        apply elem_of_app in Hin as [Hin | Hin].
        * rewrite <- Hatt in Hin. by apply Hnone in Hin.
        * apply list_elem_of_singleton in Hin. done.
      + rewrite app_nil_r. unfold removeExtensionListener.
        destruct (match listenerMap _ !! name with Some _ => _ | None => _ end)
          as [m' sent']. simpl. unfold ipcRemoveListener.
        rewrite removeLast_None by apply Hnone. simpl. rewrite Hatt.
        split; [done |]. split; [done |]. intros callback. rewrite <- Hatt.
        apply Hnone. }
  destruct (Hinv cs) as (Hatt & _ & Hnone). split; [done |].
  intros callback. unfold removeExtensionListener.
  destruct (match listenerMap _ !! name with Some _ => _ | None => _ end)
    as [m' sent']. simpl. unfold ipcRemoveListener.
  by rewrite removeLast_None by apply Hnone.
Qed.
End renderer_facts.

(** ** From the extension's calls to the router's registry *)
Section end_to_end.
Import Router RendererEvent.
Context {Extension Arg Value : Type}.
Local Abbreviation Router := (ExtensionRouter Extension Arg Value).

Lemma listenerCalls_snoc getExtension cs c (caller : WebContents) ext ev (r : Router) :
  listenerCalls getExtension (cs ++ [c]) caller ext ev r
  = listenerCall getExtension c caller ext ev
      (listenerCalls getExtension cs caller ext ev r).
Proof. unfold listenerCalls. by rewrite foldl_app. Qed.

Lemma listenerCalls_keep_no_duplicates getExtension cs (caller : WebContents)
    ext ev (r : Router) :
  no_duplicates r -> no_duplicates (listenerCalls getExtension cs caller ext ev r).
Proof.
  intros Hnd. induction cs as [|c cs IH] using rev_ind; [done |].
  rewrite listenerCalls_snoc. by apply listenerCall_no_duplicates.
Qed.

Lemma listenerCalls_last getExtension cs (caller : WebContents) ext ev (r : Router) :
  is_Some (getExtension (session r) ext) ->
  no_duplicates r ->
  mkListener caller ext ∈ listenersFor ev (listenerCalls getExtension cs caller ext ev r)
  <-> match last cs with
      | Some c => c = AddListener
      | None => mkListener caller ext ∈ listenersFor ev r
      end.
Proof.
  intros Hext Hnd. destruct cs as [|c cs _] using rev_ind; [done |].
  rewrite listenerCalls_snoc, last_snoc.
  apply listenerCall_registered.
  - by rewrite listenerCalls_session.
  - by apply listenerCalls_keep_no_duplicates.
Qed.

(** X10.  From the extension's calls to the registry: when the main process
    has handled the messages an extension context sent for one event, the
    context is registered for the event with the router of its session
    exactly when its listener count is positive (the extension being loaded
    in the session, and the context not registered at the start). *)
Theorem registered_iff_listener_count_positive getExtension (r : Router)
    (caller : WebContents) (extensionId name : string) (cs : list Call) :
  is_Some (getExtension (session r) extensionId) ->
  no_duplicates r ->
  mkListener caller extensionId ∉ listenersFor name r ->
  let s := calls extensionId name cs newState in
  let r' := listenerCalls getExtension (toListenerCall <$> sent s)
              caller extensionId name r in
  mkListener caller extensionId ∈ listenersFor name r' <-> 0 < count_after cs 0.
Proof.
  intros Hext Hnd Hnin s r'. subst r'.
  rewrite listenerCalls_last by done.
  destruct (renderer_invariant extensionId name cs) as (_ & _ & Hsent & Hodd).
  fold s in Hsent, Hodd.
  destruct (sent s) as [|m ms _] using rev_ind.
  - simpl in *. symmetry in Hodd. apply negb_false_iff, bool_decide_eq_true in Hodd.
    rewrite Hodd. split; [done | lia].
  - rewrite fmap_app. simpl. rewrite last_snoc.
    specialize (Hsent (length ms) m).
    rewrite lookup_app_r, Nat.sub_diag in Hsent by lia. specialize (Hsent eq_refl).
    rewrite length_app, Nat.add_1_r, Nat.odd_succ in Hodd.
    rewrite Hodd in Hsent. subst m.
    case_bool_decide as Hz; simpl; split; try done; lia.
Qed.
End end_to_end.

Lemma registered_iff_listener_count_positive_witness :
  Router.mkListener (WC 2) "ext"
    ∈ Router.listenersFor "tabs.onUpdated"
        (Router.listenerCalls RoutingScenario.loadedInS1
           (RendererEvent.toListenerCall
              <$> RendererEvent.sent
                    (RendererEvent.calls "ext" "tabs.onUpdated"
                       [RendererEvent.Add 0; RendererEvent.Add 1; RendererEvent.Remove 0]
                       RendererEvent.newState))
           (WC 2) "ext" "tabs.onUpdated" RoutingScenario.listeningS1)
  <-> 0 < RendererEvent.count_after
            [RendererEvent.Add 0; RendererEvent.Add 1; RendererEvent.Remove 0] 0.
Proof.
  apply (registered_iff_listener_count_positive RoutingScenario.loadedInS1
           RoutingScenario.listeningS1 (WC 2) "ext" "tabs.onUpdated"
           [RendererEvent.Add 0; RendererEvent.Add 1; RendererEvent.Remove 0]).
  - by eexists.
  - intros ev. unfold RoutingScenario.listeningS1.
    apply listenerCall_no_duplicates. intros ev'. apply NoDup_nil_2.
  - vm_compute. intros H. apply list_elem_of_singleton in H. discriminate H.
Defined.

Lemma registry_keeps_no_empty_array_witness :
  RouterMore.no_empty_array RoutingScenario.listeningS1
  /\ forall eventName,
       Router.listeners RoutingScenario.listeningS1 !! eventName = None
       <-> Router.listenersFor eventName RoutingScenario.listeningS1 = [].
Proof.
  apply (registry_keeps_no_empty_array RoutingScenario.listeningS1).
  apply Router.reach_listenerCall, Router.reach_handle, Router.reach_handle,
    Router.reach_new.
Defined.

Lemma removeListener_unregistered_changes_nothing_witness :
  Router.removeListener (Router.mkListener (WC 2) "ext") "ext" "tabs.onUpdated"
    RoutingScenario.listeningS1
  = RoutingScenario.listeningS1.
Proof.
  apply (removeListener_unregistered_changes_nothing RoutingScenario.listeningS1
           (Router.mkListener (WC 2) "ext") "ext" "tabs.onUpdated").
  - apply Router.reach_listenerCall, Router.reach_handle, Router.reach_handle,
      Router.reach_new.
  - vm_compute. intros H. apply list_elem_of_singleton in H. discriminate H.
Defined.

Lemma addListener_removeListener_round_trip_witness :
  Router.listeners
    (Router.removeListener (Router.mkListener (WC 2) "ext") "ext" "tabs.onUpdated"
       (Router.listenerCall RoutingScenario.loadedInS1 Router.AddListener (WC 2)
          "ext" "tabs.onUpdated" RoutingScenario.listeningS1))
  = Router.listeners RoutingScenario.listeningS1
  /\ Router.destroyedOnce
       (Router.removeListener (Router.mkListener (WC 2) "ext") "ext" "tabs.onUpdated"
          (Router.listenerCall RoutingScenario.loadedInS1 Router.AddListener (WC 2)
             "ext" "tabs.onUpdated" RoutingScenario.listeningS1))
     = Router.destroyedOnce RoutingScenario.listeningS1 ++ [WC 2].
Proof.
  apply (addListener_removeListener_round_trip RoutingScenario.loadedInS1
           RoutingScenario.listeningS1).
  - apply Router.reach_listenerCall, Router.reach_handle, Router.reach_handle,
      Router.reach_new.
  - vm_compute. intros H. apply list_elem_of_singleton in H. discriminate H.
  - reflexivity.
Defined.

(** ** The store: each method, step by step *)
Section store_steps.
Import Store StoreStates.
Context {CreateData : Type}.
Variable wcDestroyed : WebContents -> bool.
Variable bwDestroyed : BrowserWindow -> bool.
Variable fromWebContents : WebContents -> option BrowserWindow.
Variable impl : ChromeExtensionImpl CreateData.

Local Abbreviation addWindow := (Store.addWindow (CreateData := CreateData)).
Local Abbreviation removeWindow := (Store.removeWindow impl).
Local Abbreviation addTab :=
  (Store.addTab wcDestroyed bwDestroyed fromWebContents impl).
Local Abbreviation removeTab := (Store.removeTab impl).
Local Abbreviation setActiveTab :=
  (Store.setActiveTab wcDestroyed bwDestroyed fromWebContents impl).
Local Abbreviation activeTabIn :=
  (Store.getActiveTabFromWindow wcDestroyed bwDestroyed).

Implicit Types (st : ExtensionStore) (tab : WebContents) (win : BrowserWindow).

Ltac run_store :=
  unfold mbind, M_bind, Store.bind, modify, perform, when, mret, M_ret, ret, throw;
  simpl.

Lemma addWindow_exact win st :
  addWindow win st
  = (Returned tt,
     (if JS.set_has win (windows st) then st
      else mkStore (tabs st) (windows st ++ [win])
             (match lastFocusedWindowId st with
              | Some i => Some i
              | None => Some (bw_id win)
              end)
             (tabToWindow st) (windowToActiveTab st) (tabDetailsCache st)),
     if JS.set_has win (windows st) then [] else [Emit (WindowAdded win)]).
Proof.
  unfold Store.addWindow. destruct (JS.set_has win (windows st)) eqn:Hhas; run_store.
  - done.
  - unfold JS.set_add. rewrite Hhas.
    destruct st as [? ? [i|] ? ? ?]; reflexivity.
Qed.

Lemma removeWindow_exact win st :
  removeWindow win st
  = (Returned tt,
     (if JS.set_has win (windows st)
      then set_windows (JS.set_delete win (windows st)) st else st),
     if JS.set_has win (windows st)
     then [if impl_removeWindow impl then CallRemoveWindow win else WindowDestroy win]
     else []).
Proof.
  unfold Store.removeWindow. destruct (JS.set_has win (windows st)); run_store.
  - by destruct (impl_removeWindow impl).
  - done.
Qed.

Lemma addTab_exact tab win st :
  tab ∉ tabs st ->
  addTab tab win st
  = (Returned tt,
     mkStore (tabs st ++ [tab]) (JS.set_add win (windows st))
       (if JS.set_has win (windows st) then lastFocusedWindowId st
        else match lastFocusedWindowId st with
             | Some i => Some i
             | None => Some (bw_id win)
             end)
       (<[tab := win]> (tabToWindow st))
       (match activeTabIn win st with
        | Some _ => windowToActiveTab st
        | None => <[win := tab]> (windowToActiveTab st)
        end)
       (tabDetailsCache st),
     (if JS.set_has win (windows st) then [] else [Emit (WindowAdded win)])
     ++ (match activeTabIn win st with
         | Some _ => []
         | None => Emit (ActiveTabChanged tab win)
                   :: (if impl_selectTab impl then [CallSelectTab tab win] else [])
         end)
     ++ [Emit (TabAdded tab)]).
Proof.
  intros H. unfold Store.addTab. apply set_has_false in H. rewrite H.
  run_store. unfold JS.set_add at 1. rewrite H.
  set (st1 := set_tabToWindow _ _). rewrite (addWindow_exact win st1).
  assert (windows st1 = windows st) as Hws by done. rewrite Hws.
  set (st2 := if JS.set_has win (windows st) then st1 else _).
  assert (tabs st2 = tabs st ++ [tab]
          /\ windows st2 = JS.set_add win (windows st)
          /\ lastFocusedWindowId st2
             = (if JS.set_has win (windows st) then lastFocusedWindowId st
                else match lastFocusedWindowId st with
                     | Some i => Some i
                     | None => Some (bw_id win)
                     end)
          /\ tabToWindow st2 = <[tab := win]> (tabToWindow st)
          /\ windowToActiveTab st2 = windowToActiveTab st
          /\ tabDetailsCache st2 = tabDetailsCache st)
    as (Ht & Hw & Hl & Hm & Ha & Hc).
  { subst st2. unfold JS.set_add.
    destruct (JS.set_has win (windows st)); simpl; done. }
  assert (getActiveTabFromWebContents wcDestroyed bwDestroyed fromWebContents tab st2
          = activeTabIn win st) as Hact.
  { unfold getActiveTabFromWebContents. rewrite Hm, lookup_insert_eq.
    unfold getActiveTabFromWindow. by rewrite Ha. }
  rewrite Hact. destruct (activeTabIn win st) as [t|] eqn:Hprev.
  - rewrite bool_decide_eq_true_2 by by eexists. simpl.
    destruct st2; simpl in *; subst. reflexivity.
  - rewrite bool_decide_eq_false_2 by by intros [? ?]. simpl.
    rewrite (setActiveTab_parent wcDestroyed bwDestroyed fromWebContents impl
               tab win st2) by (rewrite Hm; apply lookup_insert_eq).
    rewrite Hact. simpl.
    destruct st2; simpl in *; subst.
    destruct (JS.set_has win (windows st)), (impl_selectTab impl); reflexivity.
Qed.
End store_steps.

(** ** The store: what holds of every store a session can have *)
Section store_invariants.
Import Store StoreStates.
Context {CreateData : Type}.
Implicit Types (st : ExtensionStore) (tab : WebContents) (win : BrowserWindow).

Lemma set_add_NoDup {A} `{EqDecision A} (x : A) (l : list A) :
  NoDup l -> NoDup (JS.set_add x l).
Proof.
  intros Hnd. unfold JS.set_add. destruct (JS.set_has x l) eqn:H; [done |].
  apply set_has_false in H. apply NoDup_app. split; [done |].
  split; [|apply NoDup_singleton].
  intros y Hy Hy'. apply list_elem_of_singleton in Hy' as ->. done.
Qed.

Lemma run_keeps_invariants wcDestroyed bwDestroyed fromWebContents
    (impl : ChromeExtensionImpl CreateData) op st :
  owners_known st /\ focus_known st /\ NoDup (tabs st) /\ NoDup (windows st) ->
  let st' := (run wcDestroyed bwDestroyed fromWebContents impl op st).1.2 in
  owners_known st' /\ focus_known st' /\ NoDup (tabs st') /\ NoDup (windows st').
Proof.
  intros (Hown & Hfoc & Hnt & Hnw). destruct op as [win | win | tab win | tab | tab];
    simpl.
  - rewrite addWindow_exact. simpl.
    destruct (JS.set_has win (windows st)) eqn:Hhas; [done |]. simpl.
    split; [done |]. split; [intros _; by destruct (lastFocusedWindowId st) |].
    split; [done |]. apply (set_add_NoDup win) in Hnw. unfold JS.set_add in Hnw.
    by rewrite Hhas in Hnw.
  - rewrite removeWindow_exact. simpl.
    destruct (JS.set_has win (windows st)) eqn:Hhas; [|done]. simpl.
    apply set_has_true in Hhas.
    split; [done |]. split; [|split; [done | by apply filter_NoDup]].
    intros _. apply Hfoc. left. intros Hnil. rewrite Hnil in Hhas. inversion Hhas.
  - destruct (decide (tab ∈ tabs st)) as [Hin | Hnin].
    + unfold Store.addTab. apply set_has_true in Hin. by rewrite Hin.
    + rewrite addTab_exact by done. simpl. split; [|split; [|split]].
      * intros t Ht. simpl in *. rewrite lookup_insert. case_decide; [by eexists |].
        apply Hown. apply elem_of_app in Ht as [Ht | Ht]; [done |].
        apply list_elem_of_singleton in Ht. by subst.
      * intros _. simpl. destruct (JS.set_has win (windows st)) eqn:Hhas.
        -- apply set_has_true in Hhas. apply Hfoc. left. intros Hnil.
           rewrite Hnil in Hhas. inversion Hhas.
        -- by destruct (lastFocusedWindowId st).
      * apply NoDup_app. split; [done |]. split; [|apply NoDup_singleton].
        intros y Hy Hy'. apply list_elem_of_singleton in Hy' as ->. done.
      * by apply set_add_NoDup.
  - destruct (decide (tab ∈ tabs st)) as [Hin | Hnin].
    + rewrite (removeTab_tracked impl tab st Hin). simpl. split; [|split; [|split]].
      * intros t Ht. simpl in *. apply elem_of_set_delete in Ht as [Ht Hne].
        rewrite lookup_delete_ne by done. by apply Hown.
      * intros _. simpl. apply Hfoc. right. intros Hnil. rewrite Hnil in Hin.
        inversion Hin.
      * by apply filter_NoDup.
      * destruct (JS.find _ _), (tabToWindow st !! tab); try done.
        by apply filter_NoDup.
    + by rewrite (removeTab_untracked impl tab st Hnin).
  - destruct (tabToWindow st !! tab) as [win|] eqn:Hwin.
    + by rewrite (setActiveTab_parent wcDestroyed bwDestroyed fromWebContents impl
                    tab win st Hwin).
    + by rewrite (setActiveTab_no_parent wcDestroyed bwDestroyed fromWebContents impl
                    tab st Hwin).
Qed.

Lemma reachable_store_invariants st :
  reachable CreateData st ->
  owners_known st /\ focus_known st /\ NoDup (tabs st) /\ NoDup (windows st).
Proof.
  induction 1 as [| wcDestroyed bwDestroyed fromWebContents impl op st _ IH
                 | windowId st _ IH | cache st _ IH].
  - split; [intros t Ht; inversion Ht |]. split; [by intros [? | ?] |].
    split; apply NoDup_nil_2.
  - by apply run_keeps_invariants.
  - destruct IH as (Hown & Hfoc & Hnt & Hnw). split; [done |].
    split; [intros _; by eexists | done].
  - done.
Qed.

(** X11.  In every store a session can have, [tabs] and [windows] hold no
    member twice and every tracked tab has an owning window on record, so
    that [setActiveTab] never throws for a tracked tab, whatever is
    destroyed. *)
Theorem tracked_tabs_have_an_owner st :
  reachable CreateData st ->
  NoDup (tabs st) /\ NoDup (windows st)
  /\ forall tab, tab ∈ tabs st ->
       exists win,
         tabToWindow st !! tab = Some win
         /\ forall wcDestroyed bwDestroyed fromWebContents
                   (impl : ChromeExtensionImpl CreateData),
              exists st' effs,
                setActiveTab wcDestroyed bwDestroyed fromWebContents impl tab st
                = (Returned tt, st', effs).
Proof.
  intros Hreach. apply reachable_store_invariants in Hreach as (Hown & _ & Hnt & Hnw).
  split; [done |]. split; [done |]. intros tab Hin.
  destruct (Hown tab Hin) as [win Hwin]. exists win. split; [done |].
  intros wcDestroyed bwDestroyed fromWebContents impl.
  rewrite (setActiveTab_parent wcDestroyed bwDestroyed fromWebContents impl
             tab win st Hwin). by eexists _, _.
Qed.

(** X12.  [lastFocusedWindowId] is never unset: in every store a session
    can have in which a window or a tab is tracked it is a number, and
    [createTab] called without [windowId] then hands the adapter a window
    id. *)
Theorem last_focused_is_set_once_a_window_was_added st
    (details : Chrome.CreateProperties) :
  reachable CreateData st ->
  windows st <> [] \/ tabs st <> [] ->
  Chrome.cp_windowId details = None ->
  exists windowId,
    lastFocusedWindowId st = Some windowId
    /\ Chrome.cp_windowId (createTab_details details st) = Some windowId.
Proof.
  intros Hreach Hne Hnone. apply reachable_store_invariants in Hreach as (_ & Hfoc & _).
  destruct (Hfoc Hne) as [windowId Hid]. exists windowId. split; [done |].
  unfold createTab_details. rewrite Hnone. simpl. done.
Qed.
End store_invariants.

(** ** The store: windows and tabs coming and going *)
Section store_more.
Import Store StoreStates.
Context {CreateData : Type}.
Variable wcDestroyed : WebContents -> bool.
Variable bwDestroyed : BrowserWindow -> bool.
Variable fromWebContents : WebContents -> option BrowserWindow.
Variable impl : ChromeExtensionImpl CreateData.

Local Abbreviation removeWindow := (Store.removeWindow impl).
Local Abbreviation addTab :=
  (Store.addTab wcDestroyed bwDestroyed fromWebContents impl).
Local Abbreviation removeTab := (Store.removeTab impl).
Local Abbreviation activeTabIn :=
  (Store.getActiveTabFromWindow wcDestroyed bwDestroyed).

Implicit Types (st : ExtensionStore) (tab : WebContents) (win : BrowserWindow).

(** X13.  [removeWindow] takes the window out of [windows] and nothing
    else: the window's tabs stay tracked with it as their owner, the
    active-tab record and [lastFocusedWindowId] stay, and no store event is
    emitted; the adapter's [removeWindow] is called when configured, the
    window destroyed otherwise.  For an untracked window nothing happens,
    so a second call does nothing.  When the window was the last focused
    one, [getLastFocusedWindow] finds no window afterwards. *)
Theorem removeWindow_takes_the_window_only win st :
  exists st' effs,
    removeWindow win st = (Returned tt, st', effs)
    /\ tabs st' = tabs st /\ tabToWindow st' = tabToWindow st
    /\ windowToActiveTab st' = windowToActiveTab st
    /\ lastFocusedWindowId st' = lastFocusedWindowId st
    /\ tabDetailsCache st' = tabDetailsCache st
    /\ (win ∉ windows st')
    /\ (forall w, w <> win -> (w ∈ windows st' <-> w ∈ windows st))
    /\ (win ∈ windows st ->
        effs = [if impl_removeWindow impl then CallRemoveWindow win
                else WindowDestroy win])
    /\ (win ∉ windows st -> st' = st /\ effs = [])
    /\ removeWindow win st' = (Returned tt, st', [])
    /\ (lastFocusedWindowId st = Some (bw_id win) ->
        getLastFocusedWindow bwDestroyed st' = None).
Proof.
  rewrite removeWindow_exact. eexists _, _. split; [reflexivity |].
  assert (win ∉ windows (if JS.set_has win (windows st)
                         then set_windows (JS.set_delete win (windows st)) st
                         else st)) as Hgone.
  { destruct (JS.set_has win (windows st)) eqn:Hhas; simpl.
    - rewrite elem_of_set_delete. by intros [_ ?].
    - by apply set_has_false. }
  destruct (JS.set_has win (windows st)) eqn:Hhas; simpl in *.
  - apply set_has_true in Hhas. repeat (split; [done |]).
    split; [intros w Hne; rewrite elem_of_set_delete; by split; [intros [? _] |] |].
    split; [done |]. split; [done |]. split.
    + rewrite removeWindow_exact. simpl. apply set_has_false in Hgone.
      by rewrite Hgone.
    + intros Hlast. unfold getLastFocusedWindow. simpl. rewrite Hlast.
      destruct (negb _); [|done]. unfold getWindowById. simpl.
      apply find_None. intros w Hw. apply andb_false_iff. right.
      apply bool_decide_eq_false. intros Hid.
      apply Hgone. destruct w as [i], win as [j]. simpl in Hid. by subst.
  - apply set_has_false in Hhas. repeat (split; [done |]). split.
    + rewrite removeWindow_exact. apply set_has_false in Hhas. by rewrite Hhas.
    + intros Hlast. unfold getLastFocusedWindow. rewrite Hlast.
      simpl. destruct (negb _); [|done]. unfold getWindowById.
      apply find_None. intros w Hw. apply andb_false_iff. right.
      apply bool_decide_eq_false. intros Hid.
      apply Hhas. destruct w as [i], win as [j]. simpl in Hid. by subst.
Qed.

(** X15.  [removeTab] leaves the active-tab record as it is: a tab removed
    from the store while it is its window's live active tab is no longer
    tracked, so that [getTabById] does not find it, and is still reported
    as the window's active tab, by [getActiveTabFromWindow] and, when the
    window is the current one, by [getActiveTabOfCurrentWindow]. *)
Theorem removed_tab_stays_recorded_as_active tab win st :
  tab ∈ tabs st ->
  activeTabIn win st = Some tab ->
  let st1 := (removeTab tab st).1.2 in
  windowToActiveTab st1 = windowToActiveTab st
  /\ activeTabIn win st1 = Some tab
  /\ (tab ∉ tabs st1)
  /\ Store.getTabById wcDestroyed (wc_id tab) st1 = None
  /\ (Store.getCurrentWindow bwDestroyed st1 = Some win ->
      Store.getActiveTabOfCurrentWindow wcDestroyed bwDestroyed st1 = Some tab).
Proof.
  intros Hin Hact st1. subst st1.
  rewrite (removeTab_tracked impl tab st Hin). simpl.
  set (st1 := mkStore _ _ _ _ _ _).
  assert (activeTabIn win st1 = Some tab) as Hact1 by done.
  split; [done |]. split; [done |]. split; [|split].
  - rewrite elem_of_set_delete. by intros [_ ?].
  - unfold Store.getTabById. apply find_None. intros t Ht. simpl in Ht.
    apply elem_of_set_delete in Ht as [_ Hne].
    apply andb_false_iff. right. apply bool_decide_eq_false.
    intros Hid. apply Hne. destruct t as [i], tab as [j]. simpl in Hid. by subst.
  - intros Hcur. unfold Store.getActiveTabOfCurrentWindow. by rewrite Hcur.
Qed.
End store_more.

(** ** The focus signal of [api/windows.ts] *)
Section windows_facts.
Import Store WindowsAPI.
Implicit Types (st : ExtensionStore).

Lemma no_repeat_snoc (l : list Z) (x : Z) :
  no_repeat l -> last l <> Some x -> no_repeat (l ++ [x]).
Proof.
  induction l as [|y l IH]; [done |]. destruct l as [|z l]; simpl in *.
  - intros _ Hne. split; [|done]. intros ->. done.
  - intros [Hyz Hl] Hx. split; [done |]. by apply IH.
Qed.

Lemma focusSignals_snoc windowIds windowId st :
  focusSignals (windowIds ++ [windowId]) st
  = (let '(st', more) := onFocusChanged windowId (focusSignals windowIds st).1 in
     (st', (focusSignals windowIds st).2 ++ more)).
Proof.
  unfold focusSignals. rewrite foldl_app. simpl.
  by destruct (foldl _ _ windowIds).
Qed.

(** X16.  [onFocusChanged] broadcasts ['windows.onFocusChanged'] only when
    the id differs from [lastFocusedWindowId], which it then sets: over any
    run of focus signals no two broadcasts in a row carry the same id, the
    first is not for the id the store started with, and the store ends with
    the id of the last signal.  Nothing checks that the window is tracked
    ([windows] is neither read nor changed), and a [createTab] without
    [windowId] then targets the id of the last signal. *)
Theorem focus_signals_broadcast_changes windowIds st :
  let result := focusSignals windowIds st in
  lastFocusedWindowId result.1
  = (match last windowIds with
     | Some windowId => Some windowId
     | None => lastFocusedWindowId st
     end)
  /\ no_repeat result.2
  /\ (forall windowId, head result.2 = Some windowId ->
        lastFocusedWindowId st <> Some windowId)
  /\ windows result.1 = windows st /\ tabs result.1 = tabs st
  /\ (forall details windowId,
        Chrome.cp_windowId details = None ->
        last windowIds = Some windowId ->
        Chrome.cp_windowId (createTab_details details result.1) = Some windowId).
Proof.
  simpl.
  assert (lastFocusedWindowId (focusSignals windowIds st).1
          = (match last windowIds with
             | Some windowId => Some windowId
             | None => lastFocusedWindowId st
             end)
          /\ no_repeat (focusSignals windowIds st).2
          /\ (forall windowId, head (focusSignals windowIds st).2 = Some windowId ->
                lastFocusedWindowId st <> Some windowId)
          /\ windows (focusSignals windowIds st).1 = windows st
          /\ tabs (focusSignals windowIds st).1 = tabs st
          /\ ((focusSignals windowIds st).2 = []
              /\ lastFocusedWindowId (focusSignals windowIds st).1
                 = lastFocusedWindowId st
              \/ (focusSignals windowIds st).2 <> []
                 /\ lastFocusedWindowId (focusSignals windowIds st).1
                    = last (focusSignals windowIds st).2))
    as (Hlast & Hrep & Hhead & Hw & Ht & _).
  { induction windowIds as [|windowId windowIds IH] using rev_ind.
    - simpl. repeat (split; [done |]). by left.
    - rewrite focusSignals_snoc, last_snoc.
      destruct (focusSignals windowIds st) as [st1 sent1]. simpl in *.
      destruct IH as (Hl & Hrep & Hhead & Hw & Ht & Hinv).
      unfold onFocusChanged. case_bool_decide as Hsame; simpl.
      + rewrite app_nil_r. repeat (split; [done |]). done.
      + split; [done |]. split; [|split; [|split; [done | split; [done |]]]].
        * apply no_repeat_snoc; [done |].
          destruct Hinv as [[-> _] | [_ Heq]]; [done | by rewrite <- Heq].
        * intros i. destruct Hinv as [[-> Heq] | [Hne _]]; simpl.
          -- intros [= <-]. by rewrite <- Heq.
          -- destruct sent1; [done |]. simpl. apply Hhead.
        * right. split; [by destruct sent1 | by rewrite last_snoc]. }
  repeat (split; [done |]).
  intros details windowId Hnone Hl. unfold createTab_details. rewrite Hnone. simpl.
  by rewrite Hlast, Hl.
Qed.
End windows_facts.

(** ** The tab events of [api/tabs.ts] *)
Section tab_events_facts.
Import Store TabsAPI TabsEvents.
Context {CreateData : Type}.
Variable wcDestroyed : WebContents -> bool.
Variable bwDestroyed : BrowserWindow -> bool.
Variable fromWebContents : WebContents -> option BrowserWindow.
Variable reading : WebContents -> TabReading.
Variable getSize : BrowserWindow -> Z * Z.
Variable getAllWindows : list BrowserWindow.
Variable impl : ChromeExtensionImpl CreateData.

Local Abbreviation getTabById := (Store.getTabById wcDestroyed).
Local Abbreviation activeTabOf :=
  (Store.getActiveTabFromWebContents wcDestroyed bwDestroyed fromWebContents).
Local Abbreviation onUpdated :=
  (TabsAPI.onUpdated wcDestroyed bwDestroyed fromWebContents reading getSize impl).
Local Abbreviation getTabDetails :=
  (TabsAPI.getTabDetails wcDestroyed bwDestroyed fromWebContents reading getSize impl).
Local Abbreviation onCreated :=
  (TabsEvents.onCreated wcDestroyed bwDestroyed fromWebContents reading getSize impl).
Local Abbreviation onRemoved := (TabsEvents.onRemoved bwDestroyed getAllWindows).
Local Abbreviation onActivated :=
  (TabsEvents.onActivated wcDestroyed bwDestroyed fromWebContents impl).
Local Abbreviation observeTab :=
  (TabsEvents.observeTab wcDestroyed bwDestroyed fromWebContents reading getSize impl).
Local Abbreviation removeOne :=
  (TabsEvents.removeOne wcDestroyed bwDestroyed getAllWindows impl).
Local Abbreviation remove :=
  (TabsEvents.remove wcDestroyed bwDestroyed getAllWindows impl).

Implicit Types (st : ExtensionStore) (tab : WebContents) (win : BrowserWindow)
  (ctx : Ctx).

Lemma getTabById_Some tabId st tab :
  getTabById tabId st = Some tab
  <-> tab = WC tabId /\ tab ∈ tabs st /\ wcDestroyed tab = false.
Proof.
  unfold Store.getTabById. split.
  - intros H. apply find_Some in H as [Hin Hp].
    apply andb_true_iff in Hp as [Hd Hid].
    apply negb_true_iff in Hd. apply bool_decide_eq_true in Hid.
    destruct tab as [i]. simpl in Hid. by subst.
  - intros (-> & Hin & Hd).
    destruct (JS.find _ (tabs st)) as [t|] eqn:Hf.
    + apply find_Some in Hf as [_ Hp]. apply andb_true_iff in Hp as [_ Hid].
      apply bool_decide_eq_true in Hid. destruct t as [i]. simpl in Hid. by subst.
    + rewrite find_None in Hf. specialize (Hf _ Hin). simpl in Hf.
      rewrite Hd in Hf. simpl in Hf. by rewrite bool_decide_eq_true_2 in Hf.
Qed.

(** X17.  [onActivated] for the id of a live tracked tab.  When the tab is
    the live active tab of its window already, nothing happens.  Otherwise
    the store's [setActiveTab] runs, ['tabs.onActivated'] is broadcast with
    the tab's id and its window's, and every cached descriptor, of whatever
    window, has [active] rewritten: true for the activated tab, false for
    every other one.  With the window alive, a second call does nothing. *)
Theorem onActivated_marks_one_tab_active tabId tab ctx :
  getTabById tabId (store ctx) = Some tab ->
  (activeTabOf tab (store ctx) = Some tab ->
   onActivated tabId ctx = (Returned tt, ctx, [], []))
  /\ (forall win,
        tabToWindow (store ctx) !! tab = Some win ->
        activeTabOf tab (store ctx) <> Some tab ->
        exists ctx',
          onActivated tabId ctx
          = (Returned tt, ctx',
             Emit (ActiveTabChanged tab win)
             :: (if impl_selectTab impl then [CallSelectTab tab win] else []),
             [OnActivated tabId (Some (bw_id win))])
          /\ windowToActiveTab (store ctx')
             = <[win := tab]> (windowToActiveTab (store ctx))
          /\ tabs (store ctx') = tabs (store ctx)
          /\ tabToWindow (store ctx') = tabToWindow (store ctx)
          /\ (forall cacheTabId,
                tabDetailsCache (store ctx') !! cacheTabId
                = set_active (bool_decide (tabId = cacheTabId))
                    <$> tabDetailsCache (store ctx) !! cacheTabId)
          /\ (bwDestroyed win = false ->
              onActivated tabId ctx' = (Returned tt, ctx', [], []))).
Proof.
  intros Hget. pose proof Hget as Hget'.
  apply getTabById_Some in Hget' as (Htab & Hin & Hlive).
  assert (wc_id tab = tabId) as Hid by by subst.
  split.
  - intros Hact. unfold TabsEvents.onActivated. rewrite Hget, Hact. simpl.
    by rewrite Hid, bool_decide_eq_true_2.
  - intros win Hwin Hact. unfold TabsEvents.onActivated. rewrite Hget.
    assert (bool_decide (wc_id <$> activeTabOf tab (store ctx) = Some tabId) = false)
      as Hchanged.
    { apply bool_decide_eq_false. intros Heq. apply Hact.
      apply (same_id_same_tab tab). by rewrite Heq, Hid. }
    rewrite Hchanged. simpl. rewrite Hwin.
    rewrite (setActiveTab_parent wcDestroyed bwDestroyed fromWebContents impl
               tab win (store ctx) Hwin).
    rewrite bool_decide_eq_false_2
      by (intros Heq; apply Hact; by apply (same_id_same_tab tab)).
    eexists. split; [reflexivity |]. simpl.
    split; [done |]. split; [done |]. split; [done |]. split.
    + intros cacheTabId. by rewrite map_lookup_imap.
    + intros Hwlive. unfold TabsEvents.onActivated. simpl.
      replace (Store.getTabById wcDestroyed tabId _) with (Some tab)
        by (symmetry; apply getTabById_Some; done).
      unfold getActiveTabFromWebContents, getActiveTabFromWindow. simpl.
      rewrite Hwin, Hwlive. simpl. rewrite lookup_insert_eq, Hlive. simpl.
      by rewrite Hid, bool_decide_eq_true_2.
Qed.

(** X18.  [onRemoved] broadcasts ['tabs.onRemoved'] with the window id of
    the cached descriptor, [-1] when there is none, and drops the
    descriptor.  From then on [onUpdated] for the id broadcasts nothing and
    caches nothing, also for a tab that is still tracked and alive; and a
    second [onRemoved] for the id, as the tab's ['destroyed'] callback makes
    after [tabs.remove], broadcasts again, with window id [-1]. *)
Theorem onRemoved_forgets_the_tab tabId ctx :
  let result := onRemoved tabId ctx in
  (exists isWindowClosing,
     result.2
     = [OnRemoved tabId
          (match tabDetailsCache (store ctx) !! tabId with
           | Some details => Chrome.windowId details
           | None => (-1)%Z
           end) isWindowClosing])
  /\ tabDetailsCache (store result.1) = delete tabId (tabDetailsCache (store ctx))
  /\ tabs (store result.1) = tabs (store ctx)
  /\ onUpdated tabId result.1 = (None, result.1)
  /\ onRemoved tabId result.1 = (result.1, [OnRemoved tabId (-1)%Z false]).
Proof.
  simpl. split; [by eexists |]. split; [done |]. split; [done |]. split.
  - unfold TabsAPI.onUpdated. simpl.
    destruct (Store.getTabById wcDestroyed tabId _) as [tab|] eqn:Hget; [|done].
    apply getTabById_Some in Hget as (-> & _). simpl. by rewrite lookup_delete_eq.
  - unfold TabsEvents.onRemoved, with_store. simpl. rewrite lookup_delete_eq. simpl.
    rewrite delete_id by apply lookup_delete_eq. done.
Qed.

Lemma getTabById_None_mono tabId st st' :
  (forall tab, tab ∈ tabs st' -> tab ∈ tabs st) ->
  getTabById tabId st = None -> getTabById tabId st' = None.
Proof.
  unfold Store.getTabById. rewrite !find_None. intros Hsub H x Hx. apply H, Hsub, Hx.
Qed.

Lemma removeOne_spec tabId ctx :
  let result := removeOne tabId ctx in
  (exists windowId isWindowClosing,
     result.2 = [OnRemoved tabId windowId isWindowClosing])
  /\ (forall tab, tab ∈ tabs (store result.1.1) -> tab ∈ tabs (store ctx))
  /\ getTabById tabId (store result.1.1) = None
  /\ tabDetailsCache (store result.1.1)
     = delete tabId (tabDetailsCache (store ctx)).
Proof.
  unfold TabsEvents.removeOne.
  destruct (Store.getTabById wcDestroyed tabId (store ctx)) as [tab|] eqn:Hget.
  - pose proof Hget as Hget'. apply getTabById_Some in Hget' as (Htab & Hin & Hlive).
    rewrite (removeTab_tracked impl tab (store ctx) Hin). simpl.
    split; [by eexists _, _ |]. split; [|split; [|done]].
    + intros t Ht. by apply elem_of_set_delete in Ht as [? _].
    + match goal with
      | |- Store.getTabById _ _ ?s = None =>
          destruct (Store.getTabById wcDestroyed tabId s) as [t|] eqn:Hget2; [|done]
      end.
      apply getTabById_Some in Hget2 as (Ht & Hin2 & _). cbn [tabs] in Hin2.
      apply elem_of_set_delete in Hin2 as [_ Hne]. by subst.
  - simpl. split; [by eexists _, _ |]. done.
Qed.

Lemma remove_snoc ids tabId ctx :
  remove (ids ++ [tabId]) ctx
  = (let '(ctx', effs', removed') := removeOne tabId (remove ids ctx).1.1 in
     (ctx', (remove ids ctx).1.2 ++ effs', (remove ids ctx).2 ++ removed')).
Proof.
  unfold TabsEvents.remove. rewrite foldl_app. simpl.
  by destruct (foldl _ _ ids) as [[? ?] ?].
Qed.

(** X19.  [tabs.remove] broadcasts ['tabs.onRemoved'] once for every id it
    is given, in the order given, whether or not the id is that of a
    tracked tab; afterwards none of the ids is that of a live tracked tab
    or has a cached descriptor, and no tab has been added. *)
Theorem remove_broadcasts_for_every_id ids ctx :
  let result := remove ids ctx in
  removedId <$> result.2 = Some <$> ids
  /\ (forall tabId, tabId ∈ ids ->
        getTabById tabId (store result.1.1) = None
        /\ tabDetailsCache (store result.1.1) !! tabId = None)
  /\ (forall tab, tab ∈ tabs (store result.1.1) -> tab ∈ tabs (store ctx)).
Proof.
  simpl. induction ids as [|tabId ids IH] using rev_ind.
  - split; [done |]. split; [|done]. intros tabId H. inversion H.
  - rewrite remove_snoc. destruct IH as (Hids & Hgone & Hsub).
    destruct (removeOne_spec tabId (remove ids ctx).1.1)
      as ((windowId & closing & Hb) & Hsub1 & Hnone & Hcache).
    destruct (removeOne tabId (remove ids ctx).1.1) as [[ctx' effs'] removed'].
    simpl in *. subst removed'. split; [|split].
    + by rewrite !fmap_app, Hids.
    + intros i Hi. apply elem_of_app in Hi as [Hi | Hi].
      * destruct (Hgone i Hi) as [Hg Hc]. split.
        -- by apply (getTabById_None_mono i (store (remove ids ctx).1.1)).
        -- rewrite Hcache. destruct (decide (i = tabId)) as [-> | Hne].
           ++ apply lookup_delete_eq.
           ++ by rewrite lookup_delete_ne.
      * apply list_elem_of_singleton in Hi as ->. split; [done |].
        rewrite Hcache. apply lookup_delete_eq.
    + intros tab Ht. by apply Hsub, Hsub1.
Qed.

(** X20.  What the tabs API does at once when the store emits [tab-added]
    for a live tab: ['tabs.onCreated'] is broadcast with the tab's
    descriptor, and the tab is made the active tab of its window unless it
    is that already, with ['tabs.onActivated'] broadcast after
    ['tabs.onCreated'].  So a tab added to a window that has a live active
    tab, which [addTab] itself does not activate, ends up as the window's
    active tab all the same. *)
Theorem observeTab_activates_the_added_tab tab win ctx :
  tab ∈ tabs (store ctx) ->
  tabToWindow (store ctx) !! tab = Some win ->
  wcDestroyed tab = false ->
  exists ctx' effs activated,
    observeTab tab ctx
    = (Returned tt, ctx', effs, OnCreated (getTabDetails tab ctx).1 :: activated)
    /\ (activeTabOf tab (store ctx) = Some tab -> effs = [] /\ activated = [])
    /\ (activeTabOf tab (store ctx) <> Some tab ->
        effs = Emit (ActiveTabChanged tab win)
               :: (if impl_selectTab impl then [CallSelectTab tab win] else [])
        /\ activated = [OnActivated (wc_id tab) (Some (bw_id win))])
    /\ windowToActiveTab (store ctx') !! win = Some tab.
Proof.
  intros Hin Hwin Hlive.
  assert (getTabById (wc_id tab) (store ctx) = Some tab) as Hget.
  { apply getTabById_Some. by destruct tab. }
  unfold TabsEvents.observeTab, TabsEvents.onCreated. rewrite Hget.
  destruct (getTabDetails tab ctx) as [details ctx1] eqn:Hd.
  assert (tabs (store ctx1) = tabs (store ctx)
          /\ tabToWindow (store ctx1) = tabToWindow (store ctx)
          /\ windowToActiveTab (store ctx1) = windowToActiveTab (store ctx))
    as (Ht1 & Hm1 & Ha1).
  { revert Hd. unfold TabsAPI.getTabDetails, createTabDetails.
    destruct (tabDetailsCache (store ctx) !! wc_id tab); [by intros [= _ <-] |].
    destruct (match tabToWindow (store ctx) !! tab with
              | Some w => if bwDestroyed w then None else Some w
              | None => None
              end) as [w|]; [destruct (getSize w) |]; by intros [= _ <-]. }
  assert (activeTabOf tab (store ctx1) = activeTabOf tab (store ctx)) as Hact1.
  { unfold getActiveTabFromWebContents, getActiveTabFromWindow. by rewrite Hm1, Ha1. }
  assert (getTabById (wc_id tab) (store ctx1) = Some tab) as Hget1.
  { apply getTabById_Some. rewrite Ht1. by destruct tab. }
  destruct (decide (activeTabOf tab (store ctx) = Some tab)) as [Hact | Hact].
  - unfold TabsEvents.onActivated. rewrite Hget1, Hact1, Hact. simpl.
    rewrite bool_decide_eq_true_2 by done. simpl.
    eexists _, _, _. split; [reflexivity |]. split; [done |]. split; [done |].
    rewrite Ha1. revert Hact.
    unfold getActiveTabFromWebContents, getActiveTabFromWindow. rewrite Hwin.
    destruct (negb (bwDestroyed win)); [|done].
    destruct (windowToActiveTab (store ctx) !! win) as [t|]; [|done].
    destruct (negb (wcDestroyed t)); [|done]. by intros [= ->].
  - unfold TabsEvents.onActivated. rewrite Hget1, Hact1.
    rewrite (bool_decide_eq_false_2 (wc_id <$> _ = Some (wc_id tab)))
      by (intros Heq; apply Hact; by apply (same_id_same_tab tab)).
    simpl. rewrite Hm1, Hwin.
    rewrite (setActiveTab_parent wcDestroyed bwDestroyed fromWebContents impl
               tab win (store ctx1)) by by rewrite Hm1.
    rewrite Hact1.
    rewrite bool_decide_eq_false_2
      by (intros Heq; apply Hact; by apply (same_id_same_tab tab)).
    simpl. eexists _, _, _. split; [reflexivity |]. split; [done |].
    split; [done |]. simpl. apply lookup_insert_eq.
Qed.
End tab_events_facts.

(** ** [addTab] with the tabs API subscribed *)
Section program_facts.
Import Store TabsAPI TabsEvents.
Context {CreateData : Type}.
Variable wcDestroyed : WebContents -> bool.
Variable bwDestroyed : BrowserWindow -> bool.
Variable fromWebContents : WebContents -> option BrowserWindow.
Variable reading : WebContents -> TabReading.
Variable getSize : BrowserWindow -> Z * Z.
Variable impl : ChromeExtensionImpl CreateData.

Local Abbreviation activeTabIn :=
  (Store.getActiveTabFromWindow wcDestroyed bwDestroyed).
Local Abbreviation activeTabOf :=
  (Store.getActiveTabFromWebContents wcDestroyed bwDestroyed fromWebContents).
Local Abbreviation getTabDetails :=
  (TabsAPI.getTabDetails wcDestroyed bwDestroyed fromWebContents reading getSize impl).
Local Abbreviation onActivated :=
  (TabsEvents.onActivated wcDestroyed bwDestroyed fromWebContents impl).
Local Abbreviation observeTab :=
  (TabsEvents.observeTab wcDestroyed bwDestroyed fromWebContents reading getSize impl).
Local Abbreviation addTab :=
  (Program.addTab wcDestroyed bwDestroyed fromWebContents reading getSize impl).

Implicit Types (st : ExtensionStore) (tab : WebContents) (win : BrowserWindow)
  (ctx : Ctx).

(** [getTabDetails] builds and caches a descriptor; the store's tabs, owners
    and active-tab record stay. *)
Lemma getTabDetails_store tab ctx :
  let ctx1 := (getTabDetails tab ctx).2 in
  tabs (store ctx1) = tabs (store ctx)
  /\ tabToWindow (store ctx1) = tabToWindow (store ctx)
  /\ windowToActiveTab (store ctx1) = windowToActiveTab (store ctx).
Proof.
  unfold TabsAPI.getTabDetails, createTabDetails.
  destruct (tabDetailsCache (store ctx) !! wc_id tab); [done |].
  destruct (match tabToWindow (store ctx) !! tab with
            | Some w => if bwDestroyed w then None else Some w
            | None => None
            end) as [w|]; [destruct (getSize w) |]; done.
Qed.

(** What [observeTab] does at once for a live tracked tab. *)
Lemma observeTab_exact tab win ctx :
  tab ∈ tabs (store ctx) ->
  tabToWindow (store ctx) !! tab = Some win ->
  wcDestroyed tab = false ->
  exists ctx',
    observeTab tab ctx
    = (Returned tt, ctx',
       (if bool_decide (activeTabOf tab (store ctx) = Some tab) then []
        else Emit (ActiveTabChanged tab win)
             :: (if impl_selectTab impl then [CallSelectTab tab win] else [])),
       OnCreated (getTabDetails tab ctx).1
       :: (if bool_decide (activeTabOf tab (store ctx) = Some tab) then []
           else [OnActivated (wc_id tab) (Some (bw_id win))]))
    /\ tabs (store ctx') = tabs (store ctx)
    /\ tabToWindow (store ctx') = tabToWindow (store ctx)
    /\ windowToActiveTab (store ctx') !! win = Some tab.
Proof.
  intros Hin Hwin Hlive.
  assert (Store.getTabById wcDestroyed (wc_id tab) (store ctx) = Some tab) as Hget.
  { apply getTabById_Some. by destruct tab. }
  unfold TabsEvents.observeTab, TabsEvents.onCreated. rewrite Hget.
  destruct (getTabDetails_store tab ctx) as (Ht1 & Hm1 & Ha1).
  destruct (getTabDetails tab ctx) as [details ctx1] eqn:Hd. simpl in *.
  assert (activeTabOf tab (store ctx1) = activeTabOf tab (store ctx)) as Hact1.
  { unfold getActiveTabFromWebContents, getActiveTabFromWindow. by rewrite Hm1, Ha1. }
  assert (Store.getTabById wcDestroyed (wc_id tab) (store ctx1) = Some tab) as Hget1.
  { apply getTabById_Some. rewrite Ht1. by destruct tab. }
  case_bool_decide as Hact.
  - unfold TabsEvents.onActivated. rewrite Hget1, Hact1, Hact. simpl.
    rewrite bool_decide_eq_true_2 by done. simpl.
    eexists. split; [reflexivity |]. split; [done |]. split; [done |].
    rewrite Ha1. revert Hact.
    unfold getActiveTabFromWebContents, getActiveTabFromWindow. rewrite Hwin.
    destruct (negb (bwDestroyed win)); [|done].
    destruct (windowToActiveTab (store ctx) !! win) as [t|]; [|done].
    destruct (negb (wcDestroyed t)); [|done]. by intros [= ->].
  - unfold TabsEvents.onActivated. rewrite Hget1, Hact1.
    rewrite (bool_decide_eq_false_2 (wc_id <$> _ = Some (wc_id tab)))
      by (intros Heq; apply Hact; by apply (same_id_same_tab tab)).
    simpl. rewrite Hm1, Hwin.
    rewrite (setActiveTab_parent wcDestroyed bwDestroyed fromWebContents impl
               tab win (store ctx1)) by by rewrite Hm1.
    rewrite Hact1.
    rewrite bool_decide_eq_false_2
      by (intros Heq; apply Hact; by apply (same_id_same_tab tab)).
    simpl. eexists. split; [reflexivity |]. simpl.
    split; [done |]. split; [done |]. apply lookup_insert_eq.
Qed.

(** X14.  The program's [addTab] of a live untracked tab into a live
    window: the tab is tracked under the window and ends as the window's
    active tab whatever the window had before.  The store emits
    [window-added] when the window was not tracked, then
    [active-tab-changed] when the window had no live active tab, then
    [tab-added]; on [tab-added] the tabs API broadcasts ['tabs.onCreated']
    and, when the window had another live active tab, makes the tab active,
    so that [active-tab-changed] is emitted after [tab-added] and
    ['tabs.onActivated'] is broadcast.  [active-tab-changed] is followed by
    the select hook when configured.  A further [addTab] of the tab, also
    with another window, does nothing. *)
Theorem addTab_events_and_active_tab tab win ctx :
  tab ∉ tabs (store ctx) ->
  wcDestroyed tab = false ->
  bwDestroyed win = false ->
  let st := store ctx in
  let changed :=
    Emit (ActiveTabChanged tab win)
    :: (if impl_selectTab impl then [CallSelectTab tab win] else []) in
  let st1 := (Store.addTab wcDestroyed bwDestroyed fromWebContents impl tab win st).1.2 in
  exists ctx',
    addTab tab win ctx
    = (Returned tt, ctx',
       (if bool_decide (win ∈ windows st) then [] else [Emit (WindowAdded win)])
       ++ match activeTabIn win st with
          | None => changed
          | Some _ => []
          end
       ++ [Emit (TabAdded tab)]
       ++ match activeTabIn win st with
          | Some other => if bool_decide (other = tab) then [] else changed
          | None => []
          end,
       OnCreated (getTabDetails tab (with_store st1 ctx)).1
       :: match activeTabIn win st with
          | Some other =>
              if bool_decide (other = tab) then []
              else [OnActivated (wc_id tab) (Some (bw_id win))]
          | None => []
          end)
    /\ tabs (store ctx') = tabs st ++ [tab]
    /\ tabToWindow (store ctx') = <[tab := win]> (tabToWindow st)
    /\ windowToActiveTab (store ctx') !! win = Some tab
    /\ forall win', addTab tab win' ctx' = (Returned tt, ctx', [], []).
Proof.
  intros Hnin Hlive Hwlive st changed st1. subst st1.
  unfold Program.addTab. fold st.
  rewrite (proj2 (set_has_false tab (tabs st)) Hnin).
  rewrite (addTab_exact wcDestroyed bwDestroyed fromWebContents impl tab win st Hnin).
  simpl. set (st1 := mkStore _ _ _ _ _ _).
  destruct (observeTab_exact tab win (with_store st1 ctx)) as (ctx' & -> & Ht & Hm & Ha).
  { simpl. apply elem_of_app. right. by apply list_elem_of_singleton. }
  { simpl. apply lookup_insert_eq. }
  { done. }
  simpl in Ht, Hm.
  assert (activeTabOf tab st1
          = match activeTabIn win st with
            | Some other => Some other
            | None => Some tab
            end) as Hact.
  { unfold getActiveTabFromWebContents. simpl. rewrite lookup_insert_eq.
    unfold getActiveTabFromWindow at 1. simpl. rewrite Hwlive. simpl.
    destruct (activeTabIn win st) as [other|] eqn:Hprev.
    - revert Hprev. unfold getActiveTabFromWindow. rewrite Hwlive. simpl.
      destruct (windowToActiveTab st !! win) as [recorded|]; [|done].
      by destruct (negb (wcDestroyed recorded)).
    - by rewrite lookup_insert_eq, Hlive. }
  exists ctx'. simpl. rewrite Hact. split; [|split; [|split; [|split]]].
  - unfold JS.set_has. rewrite <- !app_assoc.
    destruct (activeTabIn win st) as [other|]; simpl.
    + destruct (decide (other = tab)) as [-> | Hne].
      * rewrite (bool_decide_eq_true_2 (Some tab = Some tab)) by done.
        by rewrite (bool_decide_eq_true_2 (tab = tab)).
      * rewrite (bool_decide_eq_false_2 (Some other = Some tab)) by congruence.
        by rewrite (bool_decide_eq_false_2 (other = tab)).
    + rewrite (bool_decide_eq_true_2 (Some tab = Some tab)) by done.
      subst changed. simpl. done.
  - done.
  - done.
  - done.
  - intros win'. unfold Program.addTab. rewrite Ht.
    assert (JS.set_has tab (tabs st ++ [tab]) = true) as ->; [|done].
    apply set_has_true, elem_of_app. right. by apply list_elem_of_singleton.
Qed.
End program_facts.

(** ** The action state of [api/browser-action.ts] *)
Section action_state_facts.
Import BrowserActionAPI ActionState.
Context {Value : Type}.
Variable truthy : Value -> bool.
Variable getBrowserActionDefaults : string -> option (ExtensionAction Value).

Local Abbreviation getter := (ActionState.getter (Value := Value)).
Local Abbreviation setDetails :=
  (ActionState.setDetails truthy getBrowserActionDefaults).
Local Abbreviation onTabRemoved := (ActionState.onTabRemoved (Value := Value)).

Implicit Types (s : ActionState.State Value) (propName : ExtensionActionKey).

Lemma actionMap_mutate (write : ActionMap Value -> ActionMap Value) s :
  actionMap (mutate write s) = write (actionMap s)
  /\ queuedUpdate (mutate write s) = true
  /\ observers (mutate write s) = observers s.
Proof. unfold mutate, onUpdate. simpl. by destruct (queuedUpdate s). Qed.

Lemma getAction_known extensionId s action :
  actionMap s !! extensionId = Some action ->
  getAction extensionId s = (action, s).
Proof. unfold getAction. by intros ->. Qed.

Lemma getter_result propName extensionId tabId s :
  (getter propName extensionId tabId s).1
  = (let action := default (mkActionStore ∅ ∅) (actionMap s !! extensionId) in
     match tabId with
     | Some t =>
         if Store.truthy_number tabId
         then match tabs action !! t with
              | Some tabAction => read propName tabAction
              | None => read propName (props action)
              end
         else read propName (props action)
     | None => read propName (props action)
     end).
Proof.
  unfold ActionState.getter, getAction.
  by destruct (actionMap s !! extensionId).
Qed.

Lemma setDetails_actionMap extensionId tabId given propName s :
  exists value,
    value = (match (match given with
                    | Some v => if truthy v then Some v else None
                    | None => None
                    end) with
             | Some v => Some v
             | None => match getBrowserActionDefaults extensionId with
                       | Some defaults => read propName defaults
                       | None => None
                       end
             end)
    /\ actionMap (setDetails extensionId tabId given propName s)
       = (let action := default (mkActionStore ∅ ∅) (actionMap s !! extensionId) in
          <[extensionId :=
              match tabId with
              | Some t =>
                  if Store.truthy_number tabId
                  then mkActionStore (props action)
                         (<[t := <[propName := value]> (default ∅ (tabs action !! t))]>
                            (tabs action))
                  else mkActionStore (<[propName := value]> (props action)) (tabs action)
              | None => mkActionStore (<[propName := value]> (props action)) (tabs action)
              end]> (actionMap s)).
Proof.
  eexists. split; [reflexivity |]. unfold ActionState.setDetails, getAction.
  destruct (actionMap s !! extensionId) as [action|] eqn:Ha; simpl.
  - match goal with
    | |- actionMap (mutate ?w ?s') = _ =>
        by destruct (actionMap_mutate w s') as (-> & _)
    end.
  - match goal with
    | |- actionMap (mutate ?w ?s') = _ =>
        destruct (actionMap_mutate w s') as (-> & _)
    end.
    destruct (actionMap_mutate
                (fun m => <[extensionId := mkActionStore ∅ ∅]> m) s) as (-> & _).
    apply (insert_insert_eq (M := gmap string)).
Qed.

(** X21.  A setter followed by the getter of the same property for the
    same [tabId]: the getter returns the value set, for a tab as well as
    extension-wide, and changes nothing; an update is pending after the
    setter. *)
Theorem setter_then_getter extensionId tabId (v : Value) propName s :
  truthy v = true ->
  let s' := setDetails extensionId tabId (Some v) propName s in
  getter propName extensionId tabId s' = (Some v, s')
  /\ queuedUpdate s' = true.
Proof.
  intros Hv s'.
  destruct (setDetails_actionMap extensionId tabId (Some v) propName s)
    as (value & Hvalue & Hmap).
  rewrite Hv in Hvalue. subst value. fold s' in Hmap. simpl in Hmap.
  split.
  - rewrite (surjective_pairing (getter propName extensionId tabId s')). f_equal.
    + rewrite getter_result, Hmap. unfold read in *. unfold ActionMap, ExtensionAction in *.
      rewrite lookup_insert_eq. simpl.
      destruct tabId as [t|]; [destruct (Store.truthy_number (Some t)) |]; simpl;
        by rewrite !lookup_insert_eq.
    + unfold ActionState.getter, getAction. rewrite Hmap.
      unfold ActionMap in *. by rewrite lookup_insert_eq.
  - subst s'. unfold ActionState.setDetails.
    destruct (getAction extensionId s) as [action s1].
    apply actionMap_mutate.
Qed.

(** X22.  The getters do not fall back property by property.  For a tab
    without state of its own a getter returns the extension-wide value; once
    any property has been set for the tab, the getter of every other
    property returns [undefined] for that tab, whatever the extension-wide
    value, which itself is unchanged. *)
Theorem tab_state_hides_extension_values extensionId (t : Z) given
    propName other s :
  t <> 0%Z ->
  other <> propName ->
  (forall action, actionMap s !! extensionId = Some action -> tabs action !! t = None) ->
  let s' := setDetails extensionId (Some t) given propName s in
  (getter other extensionId (Some t) s).1 = (getter other extensionId None s).1
  /\ (getter other extensionId (Some t) s').1 = None
  /\ (getter other extensionId None s').1 = (getter other extensionId None s).1.
Proof.
  intros Ht Hne Hnone s'.
  destruct (setDetails_actionMap extensionId (Some t) given propName s)
    as (value & _ & Hmap).
  fold s' in Hmap. simpl in Hmap.
  assert (negb (bool_decide (t = 0%Z)) = true) as Htruthy
    by by rewrite bool_decide_eq_false_2.
  rewrite Htruthy in Hmap.
  assert (tabs (default (mkActionStore ∅ ∅) (actionMap s !! extensionId)) !! t = None)
    as Hnone'.
  { destruct (actionMap s !! extensionId) as [action|] eqn:Ha; simpl; [by apply Hnone |].
    apply lookup_empty. }
  rewrite !getter_result, Hmap. unfold read in *. unfold ActionMap, ExtensionAction in *.
  rewrite lookup_insert_eq. simpl.
  rewrite Htruthy, Hnone', lookup_insert_eq. simpl.
  split; [done |]. split; [|done].
  by rewrite lookup_insert_ne, lookup_empty.
Qed.

(** X23.  When the store reports a tab removed, the state every extension
    set for the tab is dropped: the getters return the extension-wide
    values for it again, the state of other tabs is as before, and an
    update is pending. *)
Theorem tab_removed_drops_tab_state (tabId : Z) propName extensionId s :
  let s' := onTabRemoved tabId s in
  (getter propName extensionId (Some tabId) s').1
  = (getter propName extensionId None s).1
  /\ (forall t, t <> tabId ->
        (getter propName extensionId (Some t) s').1
        = (getter propName extensionId (Some t) s).1)
  /\ (getter propName extensionId None s').1 = (getter propName extensionId None s).1
  /\ queuedUpdate s' = true.
Proof.
  intros s'.
  assert (actionMap s'
          = (fun actionDetails =>
               mkActionStore (props actionDetails) (delete tabId (tabs actionDetails)))
              <$> actionMap s
          /\ queuedUpdate s' = true) as [Hmap Hq].
  { destruct (actionMap_mutate
                (fun m : gmap string (ExtensionActionStore Value) =>
                   (fun actionDetails =>
                      mkActionStore (props actionDetails)
                        (delete tabId (tabs actionDetails))) <$> m) s)
      as (H1 & H2 & _).
    split; [exact H1 | exact H2]. }
  rewrite !getter_result, Hmap. unfold ActionMap, ExtensionAction in *.
  rewrite lookup_fmap.
  split; [|split; [|split; [|done]]].
  - destruct (@lookup _ _ _ _ extensionId (@actionMap (gmap string _) s)) as [action|]; simpl.
    + rewrite lookup_delete_eq. by destruct (negb _).
    + rewrite lookup_empty. by destruct (negb _).
  - intros t Hne. rewrite !getter_result. unfold ActionMap, ExtensionAction in *.
    rewrite Hmap, lookup_fmap.
    destruct (@lookup _ _ _ _ extensionId (@actionMap (gmap string _) s))
      as [action|]; simpl; [|done].
    by rewrite lookup_delete_ne.
  - by destruct (@lookup _ _ _ _ extensionId (@actionMap (gmap string _) s)) as [action|].
Qed.
End action_state_facts.

(** ** The theorems above at the stores, contexts and states of the examples *)

Lemma twoTabs_reachable : StoreStates.reachable unit Scenario.twoTabs.
Proof.
  apply (StoreStates.reach_run unit Scenario.wcAlive Scenario.bwAlive Scenario.noOwner
           Scenario.noImpl (StoreStates.AddTab Scenario.T2 Scenario.W1)).
  apply (StoreStates.reach_run unit Scenario.wcAlive Scenario.bwAlive Scenario.noOwner
           Scenario.noImpl (StoreStates.AddTab Scenario.T1 Scenario.W1)).
  apply (StoreStates.reach_run unit Scenario.wcAlive Scenario.bwAlive Scenario.noOwner
           Scenario.noImpl (StoreStates.AddWindow Scenario.W1)).
  apply StoreStates.reach_new.
Qed.

Lemma tracked_tabs_have_an_owner_witness :
  NoDup (Store.tabs Scenario.twoTabs) /\ NoDup (Store.windows Scenario.twoTabs)
  /\ forall tab, tab ∈ Store.tabs Scenario.twoTabs ->
       exists win,
         Store.tabToWindow Scenario.twoTabs !! tab = Some win
         /\ forall wcDestroyed bwDestroyed fromWebContents
                   (impl : Store.ChromeExtensionImpl unit),
              exists st' effs,
                Store.setActiveTab wcDestroyed bwDestroyed fromWebContents impl tab
                  Scenario.twoTabs
                = (Store.Returned tt, st', effs).
Proof.
  apply (tracked_tabs_have_an_owner (CreateData := unit) Scenario.twoTabs).
  apply twoTabs_reachable.
Defined.

Lemma last_focused_is_set_once_a_window_was_added_witness :
  exists windowId,
    Store.lastFocusedWindowId Scenario.twoTabs = Some windowId
    /\ Chrome.cp_windowId
         (Store.createTab_details (Chrome.mkCreateProperties None None None)
            Scenario.twoTabs)
       = Some windowId.
Proof.
  apply (last_focused_is_set_once_a_window_was_added (CreateData := unit)
           Scenario.twoTabs (Chrome.mkCreateProperties None None None)).
  - apply twoTabs_reachable.
  - left. vm_compute. discriminate.
  - reflexivity.
Defined.

(** A third tab added to [W1], whose active tab is [T1]: the tabs API makes
    it active, after [tab-added]. *)
Lemma addTab_events_and_active_tab_witness :
  exists ctx',
    Program.addTab Scenario.wcAlive Scenario.bwAlive Scenario.noOwner
      Scenario.blankPage Scenario.windowSize Scenario.noImpl
      (WC 3) Scenario.W1 Scenario.observed
    = (Store.Returned tt, ctx',
       [Store.Emit (Store.TabAdded (WC 3));
        Store.Emit (Store.ActiveTabChanged (WC 3) Scenario.W1)],
       [TabsEvents.OnCreated
          (TabsAPI.getTabDetails Scenario.wcAlive Scenario.bwAlive Scenario.noOwner
             Scenario.blankPage Scenario.windowSize Scenario.noImpl (WC 3)
             (TabsEvents.with_store
                (Store.addTab Scenario.wcAlive Scenario.bwAlive Scenario.noOwner
                   Scenario.noImpl (WC 3) Scenario.W1
                   (TabsAPI.store Scenario.observed)).1.2
                Scenario.observed)).1;
        TabsEvents.OnActivated 3 (Some 1%Z)])
    /\ Store.windowToActiveTab (TabsAPI.store ctx') !! Scenario.W1 = Some (WC 3)
    /\ Store.getActiveTabFromWindow Scenario.wcAlive Scenario.bwAlive Scenario.W1
         (TabsAPI.store Scenario.observed) = Some Scenario.T1.
Proof.
  destruct (addTab_events_and_active_tab Scenario.wcAlive Scenario.bwAlive
              Scenario.noOwner Scenario.blankPage Scenario.windowSize Scenario.noImpl
              (WC 3) Scenario.W1 Scenario.observed)
    as (ctx' & Hrun & _ & _ & Hactive & _).
  - apply set_has_false. reflexivity.
  - reflexivity.
  - reflexivity.
  - exists ctx'. split; [exact Hrun |]. split; [exact Hactive | reflexivity].
Defined.

(** [T1], the active tab of [W1], is removed: it is untracked and still
    reported as the active tab of [W1], the current window. *)
Lemma removed_tab_stays_recorded_as_active_witness :
  let st1 := (Store.removeTab Scenario.noImpl Scenario.T1 Scenario.twoTabs).1.2 in
  Store.windowToActiveTab st1 = Store.windowToActiveTab Scenario.twoTabs
  /\ Store.getActiveTabFromWindow Scenario.wcAlive Scenario.bwAlive Scenario.W1 st1
     = Some Scenario.T1
  /\ (Scenario.T1 ∉ Store.tabs st1)
  /\ Store.getTabById Scenario.wcAlive 1 st1 = None
  /\ Store.getActiveTabOfCurrentWindow Scenario.wcAlive Scenario.bwAlive st1
     = Some Scenario.T1.
Proof.
  intros st1.
  destruct (removed_tab_stays_recorded_as_active Scenario.wcAlive Scenario.bwAlive
              Scenario.noImpl Scenario.T1 Scenario.W1 Scenario.twoTabs)
    as (Hrec & Hact & Hnin & Hget & Hcur).
  - apply set_has_true. reflexivity.
  - reflexivity.
  - repeat apply conj; [exact Hrec | exact Hact | exact Hnin | exact Hget |].
    apply Hcur. reflexivity.
Defined.

Lemma onActivated_marks_one_tab_active_witness :
  (Store.getActiveTabFromWebContents Scenario.wcAlive Scenario.bwAlive Scenario.noOwner
     Scenario.T2 (TabsAPI.store Scenario.observed) = Some Scenario.T2 ->
   TabsEvents.onActivated Scenario.wcAlive Scenario.bwAlive Scenario.noOwner
     Scenario.noImpl 2 Scenario.observed
   = (Store.Returned tt, Scenario.observed, [], []))
  /\ (forall win,
        Store.tabToWindow (TabsAPI.store Scenario.observed) !! Scenario.T2 = Some win ->
        Store.getActiveTabFromWebContents Scenario.wcAlive Scenario.bwAlive
          Scenario.noOwner Scenario.T2 (TabsAPI.store Scenario.observed)
        <> Some Scenario.T2 ->
        exists ctx',
          TabsEvents.onActivated Scenario.wcAlive Scenario.bwAlive Scenario.noOwner
            Scenario.noImpl 2 Scenario.observed
          = (Store.Returned tt, ctx',
             Store.Emit (Store.ActiveTabChanged Scenario.T2 win)
             :: (if Store.impl_selectTab Scenario.noImpl
                 then [Store.CallSelectTab Scenario.T2 win] else []),
             [TabsEvents.OnActivated 2 (Some (bw_id win))])
          /\ Store.windowToActiveTab (TabsAPI.store ctx')
             = <[win := Scenario.T2]>
                 (Store.windowToActiveTab (TabsAPI.store Scenario.observed))
          /\ Store.tabs (TabsAPI.store ctx') = Store.tabs (TabsAPI.store Scenario.observed)
          /\ Store.tabToWindow (TabsAPI.store ctx')
             = Store.tabToWindow (TabsAPI.store Scenario.observed)
          /\ (forall cacheTabId,
                Store.tabDetailsCache (TabsAPI.store ctx') !! cacheTabId
                = TabsEvents.set_active (bool_decide (2%Z = cacheTabId))
                    <$> Store.tabDetailsCache (TabsAPI.store Scenario.observed)
                        !! cacheTabId)
          /\ (Scenario.bwAlive win = false ->
              TabsEvents.onActivated Scenario.wcAlive Scenario.bwAlive Scenario.noOwner
                Scenario.noImpl 2 ctx'
              = (Store.Returned tt, ctx', [], []))).
Proof.
  apply (onActivated_marks_one_tab_active Scenario.wcAlive Scenario.bwAlive
           Scenario.noOwner Scenario.noImpl 2 Scenario.T2 Scenario.observed).
  reflexivity.
Defined.

Lemma observeTab_activates_the_added_tab_witness :
  exists ctx' effs activated,
    TabsEvents.observeTab Scenario.wcAlive Scenario.bwAlive Scenario.noOwner
      Scenario.blankPage Scenario.windowSize Scenario.noImpl Scenario.T2
      Scenario.observed
    = (Store.Returned tt, ctx', effs,
       TabsEvents.OnCreated
         (TabsAPI.getTabDetails Scenario.wcAlive Scenario.bwAlive Scenario.noOwner
            Scenario.blankPage Scenario.windowSize Scenario.noImpl Scenario.T2
            Scenario.observed).1
       :: activated)
    /\ (Store.getActiveTabFromWebContents Scenario.wcAlive Scenario.bwAlive
          Scenario.noOwner Scenario.T2 (TabsAPI.store Scenario.observed)
        = Some Scenario.T2 ->
        effs = [] /\ activated = [])
    /\ (Store.getActiveTabFromWebContents Scenario.wcAlive Scenario.bwAlive
          Scenario.noOwner Scenario.T2 (TabsAPI.store Scenario.observed)
        <> Some Scenario.T2 ->
        effs = Store.Emit (Store.ActiveTabChanged Scenario.T2 Scenario.W1)
               :: (if Store.impl_selectTab Scenario.noImpl
                   then [Store.CallSelectTab Scenario.T2 Scenario.W1] else [])
        /\ activated = [TabsEvents.OnActivated (wc_id Scenario.T2)
                          (Some (bw_id Scenario.W1))])
    /\ Store.windowToActiveTab (TabsAPI.store ctx') !! Scenario.W1 = Some Scenario.T2.
Proof.
  apply (observeTab_activates_the_added_tab Scenario.wcAlive Scenario.bwAlive
           Scenario.noOwner Scenario.blankPage Scenario.windowSize Scenario.noImpl
           Scenario.T2 Scenario.W1 Scenario.observed).
  - apply set_has_true. reflexivity.
  - reflexivity.
  - reflexivity.
Defined.

Lemma setter_then_getter_witness :
  ActionState.getter ActionState.K_text "ext" (Some 7%Z)
    (ActionState.setDetails ActionScenario.nonEmpty ActionScenario.noDefaults
       "ext" (Some 7%Z) (Some "all") ActionState.K_text ActionScenario.fresh)
  = (Some "all",
     ActionState.setDetails ActionScenario.nonEmpty ActionScenario.noDefaults
       "ext" (Some 7%Z) (Some "all") ActionState.K_text ActionScenario.fresh)
  /\ BrowserActionAPI.queuedUpdate
       (ActionState.setDetails ActionScenario.nonEmpty ActionScenario.noDefaults
          "ext" (Some 7%Z) (Some "all") ActionState.K_text ActionScenario.fresh)
     = true.
Proof.
  apply (setter_then_getter ActionScenario.nonEmpty ActionScenario.noDefaults
           "ext" (Some 7%Z) "all" ActionState.K_text ActionScenario.fresh).
  reflexivity.
Defined.

Lemma tab_state_hides_extension_values_witness :
  (ActionState.getter ActionState.K_text "ext" (Some 7%Z) ActionScenario.badgeAll).1
  = (ActionState.getter ActionState.K_text "ext" None ActionScenario.badgeAll).1
  /\ (ActionState.getter ActionState.K_text "ext" (Some 7%Z)
        (ActionState.setDetails ActionScenario.nonEmpty ActionScenario.noDefaults
           "ext" (Some 7%Z) (Some "Seven") ActionState.K_title
           ActionScenario.badgeAll)).1
     = None
  /\ (ActionState.getter ActionState.K_text "ext" None
        (ActionState.setDetails ActionScenario.nonEmpty ActionScenario.noDefaults
           "ext" (Some 7%Z) (Some "Seven") ActionState.K_title
           ActionScenario.badgeAll)).1
     = (ActionState.getter ActionState.K_text "ext" None ActionScenario.badgeAll).1.
Proof.
  apply (tab_state_hides_extension_values ActionScenario.nonEmpty
           ActionScenario.noDefaults "ext" 7%Z (Some "Seven") ActionState.K_title
           ActionState.K_text ActionScenario.badgeAll).
  - discriminate.
  - discriminate.
  - intros action H. vm_compute in H. injection H as <-. reflexivity.
Defined.

(** ** Handlers registered with the default options *)
Section default_handlers.
Import Router RouterMore.
Context {Extension Arg Value : Type}.

(** X24.  A handler registered through [handle] without options needs an
    extension context and allows no remote call: a ['crx-msg-remote'] call
    for it never reaches its callback.  Sent from the router's own session
    it fails for want of an extension context, from another session as a
    cross-session call. *)
Theorem default_handlers_are_closed_to_remote_calls getExtension session_of
    fromPartition (d : RoutingDelegate Extension Arg Value) (caller : WebContents)
    (sessionPartition name : string) (cb : HandlerCallback Extension Arg Value)
    (observer : ExtensionRouter Extension Arg Value) (args : list Arg) :
  sessionMap d !! (if bool_decide (sessionPartition = "_self")
                   then session_of caller else fromPartition sessionPartition)
  = Some (handle name cb None observer) ->
  onRemoteMessage getExtension session_of fromPartition d caller
    sessionPartition name args
  = Some (inl (if bool_decide (session_of caller = session observer)
               then UnknownExtensionContext name
               else CrossSessionNotAllowed name)).
Proof.
  intros Hobs. unfold onRemoteMessage, DEFAULT_SESSION. rewrite Hobs.
  unfold onExtensionMessage, getHandler, handle. simpl.
  rewrite lookup_insert_eq. simpl.
  by destruct (bool_decide (session_of caller = session observer)).
Qed.
End default_handlers.

Lemma default_handlers_are_closed_to_remote_calls_witness :
  RouterMore.onRemoteMessage RoutingScenario.loadedInS1 RoutingScenario.inS1
    RoutingScenario.partitionS2
    (RouterMore.addObserver
       (Router.handle "tabs.get" RoutingScenario.answer None
          (Router.newRouter RoutingScenario.S1))
       RouterMore.newDelegate)
    (WC 1) "_self" "tabs.get" [tt]
  = Some (inl (if bool_decide (RoutingScenario.inS1 (WC 1)
                               = Router.session
                                   (Router.newRouter (Extension := unit) (Arg := unit)
                                      (Value := unit) RoutingScenario.S1))
               then Router.UnknownExtensionContext "tabs.get"
               else Router.CrossSessionNotAllowed "tabs.get")).
Proof.
  apply (default_handlers_are_closed_to_remote_calls RoutingScenario.loadedInS1
           RoutingScenario.inS1 RoutingScenario.partitionS2
           (RouterMore.addObserver
              (Router.handle "tabs.get" RoutingScenario.answer None
                 (Router.newRouter RoutingScenario.S1))
              RouterMore.newDelegate)
           (WC 1) "_self" "tabs.get" RoutingScenario.answer
           (Router.newRouter RoutingScenario.S1) [tt]).
  reflexivity.
Defined.

(** ** The action state when an extension is unloaded *)
Section action_unload_facts.
Import BrowserActionAPI ActionState.
Context {Value : Type}.
Implicit Types (s : ActionState.State Value) (propName : ExtensionActionKey).

(** X25.  [removeActions], which runs when an extension is unloaded, drops
    the extension's action state and leaves that of other extensions; an
    update is pending.  A getter called for the extension afterwards returns
    [undefined] for every property and tab, and is not a pure read: it files
    an empty action object for the extension again. *)
Theorem removeActions_forgets_the_extension extensionId propName tabId s :
  let s' := removeActions (Value := Value) extensionId s in
  actionMap s' !! extensionId = None
  /\ (forall other, other <> extensionId ->
        actionMap s' !! other = actionMap s !! other)
  /\ queuedUpdate s' = true
  /\ (getter propName extensionId tabId s').1 = None
  /\ actionMap (getter propName extensionId tabId s').2 !! extensionId
     = Some (mkActionStore ∅ ∅).
Proof.
  intros s'.
  assert (actionMap s' = delete extensionId (actionMap s)
          /\ queuedUpdate s' = true) as [Hmap Hq].
  { destruct (actionMap_mutate
                (fun m : gmap string (ExtensionActionStore Value) =>
                   delete extensionId m) s) as (H1 & H2 & _).
    split; [exact H1 | exact H2]. }
  assert (actionMap s' !! extensionId = None) as Hnone.
  { rewrite Hmap. apply (lookup_delete_eq (M := gmap string)). }
  split; [done |]. split.
  { intros other Hne. rewrite Hmap.
    by apply (lookup_delete_ne (M := gmap string)). }
  split; [done |]. split.
  - rewrite getter_result, Hnone. simpl. unfold read.
    destruct tabId as [t|]; [destruct (Store.truthy_number (Some t)) |];
      by rewrite ?lookup_empty.
  - unfold getter, getAction. rewrite Hnone. simpl.
    match goal with
    | |- actionMap (mutate ?w ?s0) !! _ = _ =>
        destruct (actionMap_mutate w s0) as (-> & _)
    end.
    apply (lookup_insert_eq (M := gmap string)).
Qed.
End action_unload_facts.
